(** * Reachinbox email aggregator: the ingestion pipeline

    A shallow embedding of the services behind the mail ingestion pipeline
    ([AICategorizationService], [SlackService], [WebhookService] and
    [ImapSyncService]) and the properties of the design document that can
    be stated over it.

    Conventions.
    - A JavaScript string is a [string]: the sequence of its UTF-16 code
      units, each below 256.
    - A [Date] is its time value, a [Z] of milliseconds since the epoch,
      read in UTC.
    - Every [async] method is a computation in the monad [M]: it threads
      the service state and the trace of interactions with the outside,
      and ends by returning, by throwing, or never ([Pending], a promise
      that is never settled).  [await] is sequencing.
    - What the outside answers (the model provider, the HTTP peers, the
      search index, the mail parser, the mail server, the clock) is given
      by an [Externals] record of oracles.  Each oracle also receives the
      number of oracle consultations made so far, so the same request may
      be answered differently at different times. *)

From Stdlib Require Import ZArith QArith Ascii.
From stdpp Require Import gmap strings list pretty.

Local Open Scope Z_scope.

(** * Language-level notions *)

Inductive js_error : Type :=
| JsTypeError (msg : string)   (* raised by the language itself *)
| JsError (msg : string)       (* [new Error(msg)] *)
| LibError (code : string).    (* thrown or rejected by a library or a remote peer *)

(** How a settled library promise ends. *)
Inductive settled (A : Type) : Type :=
| Fulfilled (a : A)
| Rejected (e : js_error).
Arguments Fulfilled {A} a.
Arguments Rejected {A} e.

(** How a method of the program ends. *)
Inductive outcome (A : Type) : Type :=
| Returned (a : A)
| Thrown (e : js_error)
| Pending.
Arguments Returned {A} a.
Arguments Thrown {A} e.
Arguments Pending {A}.

(** [!s] for a value that is a string or [undefined]. *)
Definition falsy (o : option string) : bool :=
  match o with
  | None => true
  | Some s => bool_decide (s = "")
  end.

(** [o || d] for such a value. *)
Definition or_default (o : option string) (d : string) : string :=
  if falsy o then d else default d o.

Definition nl : string := String "010"%char EmptyString.

(** ** [String.prototype.trim] *)

(** WhiteSpace and LineTerminator code units below 256: TAB, LF, VT, FF,
    CR, SP and NBSP. *)
Definition is_js_whitespace (c : ascii) : bool :=
  let n := N_of_ascii c in
  ((9 <=? n) && (n <=? 13) || (n =? 32) || (n =? 160))%N.

Fixpoint trimStart (s : string) : string :=
  match s with
  | String c s' => if is_js_whitespace c then trimStart s' else s
  | EmptyString => EmptyString
  end.

Definition trimEnd (s : string) : string :=
  String.rev (trimStart (String.rev s)).

Definition trim (s : string) : string := trimEnd (trimStart s).

(** ** [String.prototype.split] with a one-character separator *)

Fixpoint split_go (sep : ascii) (cur : string) (s : string) : list string :=
  match s with
  | EmptyString => [String.rev cur]
  | String c s' =>
      if Ascii.eqb c sep then String.rev cur :: split_go sep EmptyString s'
      else split_go sep (String c cur) s'
  end.

Definition split (sep : ascii) (s : string) : list string :=
  split_go sep EmptyString s.

(** * Data model *)

Record attachment : Type := mkAttachment {
  att_filename : string;
  att_contentType : string;
  att_size : N
}.

(** [references] of a parsed mail is one id or an array of ids. *)
Inductive references : Type :=
| RefOne (r : string)
| RefMany (rs : list string).

(** The object [emailData] built by [processEmailMessage]. *)
Record email_data : Type := mkEmailData {
  e_id : string;
  e_uid : option N;
  e_email : string;
  e_from : string;
  e_to : string;
  e_subject : string;
  e_date : Z;
  e_text : string;
  e_html : string;
  e_attachments : list attachment;
  e_folder : string;
  e_flags : list string;
  e_size : N;
  e_messageId : string;
  e_inReplyTo : string;
  e_references : references;
  e_createdAt : Z;
  e_updatedAt : Z;
  e_category : option string      (* unset until classified *)
}.

Definition set_category (emailData : email_data) (category : string) : email_data :=
  {| e_id := e_id emailData; e_uid := e_uid emailData;
     e_email := e_email emailData; e_from := e_from emailData;
     e_to := e_to emailData; e_subject := e_subject emailData;
     e_date := e_date emailData; e_text := e_text emailData;
     e_html := e_html emailData; e_attachments := e_attachments emailData;
     e_folder := e_folder emailData; e_flags := e_flags emailData;
     e_size := e_size emailData; e_messageId := e_messageId emailData;
     e_inReplyTo := e_inReplyTo emailData;
     e_references := e_references emailData;
     e_createdAt := e_createdAt emailData;
     e_updatedAt := e_updatedAt emailData;
     e_category := Some category |}.

(** ** What the mail parser returns: every field may be missing *)

Record parsed_mail : Type := mkParsed {
  p_from : option string;          (* [parsed.from?.text] *)
  p_to : option string;            (* [parsed.to?.text] *)
  p_subject : option string;
  p_date : option Z;
  p_text : option string;
  p_html : option string;          (* [false] when there is no HTML part *)
  p_attachments : option (list attachment);
  p_messageId : option string;
  p_inReplyTo : option string;
  p_references : option references
}.

(** ** What the mail server delivers for one fetched message *)

Record imap_attributes : Type := mkAttrs {
  a_uid : option N;
  a_flags : option (list string);
  a_size : option N
}.

Record imap_message : Type := mkImapMessage {
  m_chunks : list string;                  (* the ['data'] chunks of the body stream *)
  m_attributes : option imap_attributes    (* the ['attributes'] event, if any *)
}.

(** ** Requests to the model provider *)

Inductive chat_role : Type := RoleSystem | RoleUser.

Record chat_request : Type := mkChatRequest {
  cr_model : string;
  cr_messages : list (chat_role * string);
  cr_max_tokens : Z;
  cr_temperature : Q
}.

(** [response.choices[i].message.content], [null] when the model sent
    no text. *)
Record chat_response : Type := mkChatResponse {
  choices : list (option string)
}.

(** ** HTTP requests of the two sinks *)

Record axios_config : Type := mkAxiosConfig {
  cfg_headers : list (string * string);
  cfg_timeout : option Z           (* milliseconds; absent means the client's default, none *)
}.

Record slack_field : Type := mkSlackField {
  sf_title : string;
  sf_value : string;
  sf_short : bool
}.

Record slack_message : Type := mkSlackMessage {
  sm_text : string;
  sm_color : string;
  sm_fields : list slack_field;
  sm_footer : string;
  sm_ts : Z
}.

Record webhook_metadata : Type := mkWebhookMetadata {
  wm_source : string;
  wm_version : string;
  wm_processedAt : Z
}.

(** The [data] object of a webhook envelope. *)
Record webhook_data : Type := mkWebhookData {
  wd_id : string;
  wd_uid : option N;
  wd_email : string;
  wd_from : string;
  wd_to : string;
  wd_subject : string;
  wd_date : Z;
  wd_text : string;
  wd_html : string;
  wd_folder : string;
  wd_category : option string;
  wd_messageId : string;
  wd_inReplyTo : string;
  wd_references : references;
  wd_attachments : list attachment;
  wd_size : N;
  wd_flags : list string
}.

Record webhook_payload : Type := mkWebhookPayload {
  wp_event : string;
  wp_timestamp : Z;
  wp_data : webhook_data;
  wp_metadata : webhook_metadata
}.

Record batch_webhook_payload : Type := mkBatchWebhookPayload {
  bp_event : string;
  bp_timestamp : Z;
  bp_count : nat;
  bp_data : list webhook_data;
  bp_metadata : webhook_metadata
}.

Inductive http_body : Type :=
| SlackBody (message : slack_message)
| WebhookBody (payload : webhook_payload)
| BatchWebhookBody (payload : batch_webhook_payload).

(** ** The live-update event *)

Record live_update : Type := mkLiveUpdate {
  lu_id : string;
  lu_from : string;
  lu_subject : string;
  lu_category : string;
  lu_date : Z
}.

(** * Interactions with the outside *)

(** ** What the mail server does *)

Inductive search_key : Type :=
| SINCE (day : Z).     (* [['SINCE', 'DD-MMM-YYYY']]: the calendar day, as its number since the epoch *)

Inductive conn_event : Type :=
| ConnReady
| ConnError (err : js_error)
| ConnEnd.

Inductive fetch_event : Type :=
| FetchMessage (msg : imap_message) (seqno : N)
| FetchError (err : js_error)
| FetchEnd.

Inductive log_level : Type := LogInfo | LogWarn | LogError | LogDebug.

Inductive sink : Type := ChatSink | WebhookSink.

Inductive event : Type :=
| EvLog (level : log_level) (msg : string) (detail : option js_error)
| EvChatCompletion (req : chat_request)
| EvSleep (ms : Z)                                   (* [setTimeout] awaited *)
| EvSinkCall (k : sink) (emailData : email_data)     (* entry of a sink method *)
| EvAxiosPost (url : string) (body : http_body) (config : axios_config)
| EvParse (buffer : string)
| EvIndex (emailData : email_data)
| EvUpdateCategory (id : string) (category : string) (updatedAt : Z)
| EvEmit (room : string) (name : string) (payload : live_update)
| EvImapConnect (conn : nat) (user password : string)
| EvOpenBox (conn : nat) (box : string) (readOnly : bool)
| EvSearch (conn : nat) (criteria : search_key)
| EvFetch (conn : nat) (results : list N)
| EvImapEnd (conn : nat)                             (* [connection.end()] called *)
| EvSetInterval (ms : Z) (email : string) (conn : nat).

Record Externals : Type := mkExternals {
  (* process.env *)
  env_OPENAI_API_KEY : option string;
  env_EMAIL_ACCOUNTS : option string;
  env_EMAIL_PASSWORDS : option string;
  env_SLACK_WEBHOOK_URL : option string;
  env_WEBHOOK_URL : option string;
  (* Date *)
  date_now : nat → Z;
  date_toString : Z → string;
  date_toLocaleString : Z → string;
  (* openai, axios, mailparser, the Elasticsearch client *)
  openai_create : nat → chat_request → settled chat_response;
  axios_post : nat → string → http_body → axios_config → settled Z;
  simpleParser : nat → string → settled parsed_mail;
  es_index : nat → email_data → settled unit;
  es_update : nat → string → string → settled unit;
  (* the mail server, per connection *)
  imap_session : nat → string → string → list conn_event;
  imap_openBox : nat → nat → settled unit;
  imap_search : nat → nat → search_key → settled (list N);
  imap_fetch : nat → nat → list N → list fetch_event;
  imap_end : nat → nat → option js_error      (* what [connection.end()] throws, if anything *)
}.

(** * Program state *)

Record state : Type := mkState {
  trace : list event;                  (* interactions so far, oldest first *)
  calls : nat;                         (* oracle consultations so far *)
  connections : gmap string nat;       (* [this.connections] *)
  isRunning : bool;                    (* [this.isRunning] *)
  next_conn : nat;                     (* [Imap] objects created so far *)
  processedCount : nat;                (* [let processedCount] of the running sync *)
  sync_promise : option (settled unit);   (* the promise of the running [syncEmails] *)
  conn_promise : option (settled unit)    (* the promise of the running [initializeConnection] *)
}.

Definition initial_state : state :=
  {| trace := []; calls := 0; connections := ∅; isRunning := false;
     next_conn := 0; processedCount := 0;
     sync_promise := None; conn_promise := None |}.

Definition with_trace (f : list event → list event) (s : state) : state :=
  {| trace := f (trace s); calls := calls s; connections := connections s;
     isRunning := isRunning s; next_conn := next_conn s;
     processedCount := processedCount s;
     sync_promise := sync_promise s; conn_promise := conn_promise s |}.

Definition with_calls (f : nat → nat) (s : state) : state :=
  {| trace := trace s; calls := f (calls s); connections := connections s;
     isRunning := isRunning s; next_conn := next_conn s;
     processedCount := processedCount s;
     sync_promise := sync_promise s; conn_promise := conn_promise s |}.

Definition with_connections (f : gmap string nat → gmap string nat) (s : state) : state :=
  {| trace := trace s; calls := calls s; connections := f (connections s);
     isRunning := isRunning s; next_conn := next_conn s;
     processedCount := processedCount s;
     sync_promise := sync_promise s; conn_promise := conn_promise s |}.

Definition with_isRunning (b : bool) (s : state) : state :=
  {| trace := trace s; calls := calls s; connections := connections s;
     isRunning := b; next_conn := next_conn s;
     processedCount := processedCount s;
     sync_promise := sync_promise s; conn_promise := conn_promise s |}.

Definition with_next_conn (f : nat → nat) (s : state) : state :=
  {| trace := trace s; calls := calls s; connections := connections s;
     isRunning := isRunning s; next_conn := f (next_conn s);
     processedCount := processedCount s;
     sync_promise := sync_promise s; conn_promise := conn_promise s |}.

Definition with_processedCount (f : nat → nat) (s : state) : state :=
  {| trace := trace s; calls := calls s; connections := connections s;
     isRunning := isRunning s; next_conn := next_conn s;
     processedCount := f (processedCount s);
     sync_promise := sync_promise s; conn_promise := conn_promise s |}.

Definition with_sync_promise (p : option (settled unit)) (s : state) : state :=
  {| trace := trace s; calls := calls s; connections := connections s;
     isRunning := isRunning s; next_conn := next_conn s;
     processedCount := processedCount s;
     sync_promise := p; conn_promise := conn_promise s |}.

Definition with_conn_promise (p : option (settled unit)) (s : state) : state :=
  {| trace := trace s; calls := calls s; connections := connections s;
     isRunning := isRunning s; next_conn := next_conn s;
     processedCount := processedCount s;
     sync_promise := sync_promise s; conn_promise := p |}.

(** * The monad of methods *)

Definition M (A : Type) : Type := state → outcome A * state.

Definition ret {A} (a : A) : M A := λ s, (Returned a, s).

Definition bind {A B} (m : M A) (k : A → M B) : M B := λ s,
  match m s with
  | (Returned a, s') => k a s'
  | (Thrown e, s') => (Thrown e, s')
  | (Pending, s') => (Pending, s')
  end.

#[global] Instance M_ret : MRet M := @ret.
#[global] Instance M_bind : MBind M := λ A B k m, bind m k.

Definition throw {A} (e : js_error) : M A := λ s, (Thrown e, s).

(** [try { body } catch (error) { handler }] *)
Definition try_catch {A} (body : M A) (handler : js_error → M A) : M A := λ s,
  match body s with
  | (Thrown e, s') => handler e s'
  | r => r
  end.

(** An [async] event handler started by an emitter: the emitter goes on
    whatever becomes of the handler.  The handler is run to its end
    before the next event of the emitter is taken: events are taken as
    spaced widely enough for what a handler awaits to have settled in
    between. *)
Definition detach (handler : M unit) : M unit := λ s,
  (Returned tt, (handler s).2).

Definition get {A} (f : state → A) : M A := λ s, (Returned (f s), s).
Definition modify (f : state → state) : M unit := λ s, (Returned tt, f s).

Definition tell (ev : event) : M unit := modify (with_trace (λ t, t ++ [ev])).

Definition log (level : log_level) (msg : string) : M unit :=
  tell (EvLog level msg None).
Definition log_error (msg : string) (error : js_error) : M unit :=
  tell (EvLog LogError msg (Some error)).

(** Consulting an oracle: the answer depends on the number of
    consultations so far, which then grows by one. *)
Definition consult {A} (oracle : nat → A) : M A := λ s,
  (Returned (oracle (calls s)), with_calls S s).

(** [await p] for a library promise [p]. *)
Definition await {A} (p : M (settled A)) : M A :=
  r ← p;
  match r with
  | Fulfilled a => mret a
  | Rejected e => throw e
  end.

(** [for (const x of xs) { body }] *)
Fixpoint for_of {A} (xs : list A) (body : A → M unit) : M unit :=
  match xs with
  | [] => mret tt
  | x :: xs' => body x;; for_of xs' body
  end.

(** * The services *)

Record SlackService : Type := mkSlackService {
  slack_webhookUrl : option string
}.

Record WebhookService : Type := mkWebhookService {
  webhookUrl : option string
}.

Record batch_result : Type := mkBatchResult {
  br_id : string;
  br_category : string
}.

Section Services.

Variable X : Externals.

(** [new Date()] *)
Definition new_Date : M Z := consult (date_now X).

(** [await new Promise(resolve => setTimeout(resolve, ms))] *)
Definition sleep (ms : Z) : M unit := tell (EvSleep ms).

(** ** aiCategorizationService.js *)

Definition categories : list string :=
  ["Interested"; "Meeting Booked"; "Not Interested"; "Spam"; "Out of Office"].

Definition buildCategorizationPrompt (emailData : email_data) : string :=
  nl +:+ "Email Details:" +:+ nl
  +:+ "From: " +:+ e_from emailData +:+ nl
  +:+ "To: " +:+ e_to emailData +:+ nl
  +:+ "Subject: " +:+ e_subject emailData +:+ nl
  +:+ "Date: " +:+ date_toString X (e_date emailData) +:+ nl
  +:+ "Content: " +:+ Strings.String.substring 0 1000 (e_text emailData) +:+ "..." +:+ nl
  +:+ nl
  +:+ "Please categorize this email into one of the following categories:" +:+ nl
  +:+ "- Interested: The email shows genuine interest in a product, service, or opportunity" +:+ nl
  +:+ "- Meeting Booked: The email confirms or schedules a meeting, call, or appointment" +:+ nl
  +:+ "- Not Interested: The email shows no interest or is a general inquiry" +:+ nl
  +:+ "- Spam: The email appears to be spam, promotional, or irrelevant" +:+ nl
  +:+ "- Out of Office: The email is an automated out-of-office reply" +:+ nl
  +:+ nl
  +:+ "Category:".

Definition categorization_request (prompt : string) : chat_request :=
  {| cr_model := "gpt-3.5-turbo";
     cr_messages :=
       [(RoleSystem, "You are an AI assistant that categorizes emails based on their content and context. Analyze the email and return one of the following categories: Interested, Meeting Booked, Not Interested, Spam, Out of Office. Only return the category name, nothing else.");
        (RoleUser, prompt)];
     cr_max_tokens := 50;
     cr_temperature := 3 # 10 |}.

(** [await this.openai.chat.completions.create(req)] *)
Definition chat_completions_create (req : chat_request) : M chat_response :=
  tell (EvChatCompletion req);;
  await (consult (λ n, openai_create X n req)).

(** [response.choices[0].message.content.trim()] *)
Definition first_content_trimmed (response : chat_response) : M string :=
  match choices response with
  | [] => throw (JsTypeError "Cannot read properties of undefined (reading 'message')")
  | None :: _ => throw (JsTypeError "Cannot read properties of null (reading 'trim')")
  | Some content :: _ => mret (trim content)
  end.

Definition categorizeEmail (emailData : email_data) : M string :=
  try_catch
    (if falsy (env_OPENAI_API_KEY X) then
       (log LogWarn "OpenAI API key not configured, using default category";;
        mret "Not Interested")
     else
       (let prompt := buildCategorizationPrompt emailData in
        response ← chat_completions_create (categorization_request prompt);
        category ← first_content_trimmed response;
        (* Validate category *)
        if bool_decide (category ∈ categories) then
          (log LogInfo ("Email categorized as: " +:+ category
                        +:+ " for subject: " +:+ e_subject emailData);;
           mret category)
        else
          (log LogWarn ("Invalid category returned: " +:+ category
                        +:+ ", using default");;
           mret "Not Interested")))
    (λ error,
       log_error "Error categorizing email:" error;;
       mret "Not Interested").

Fixpoint batch_loop (emails : list email_data) (results : list batch_result)
  : M (list batch_result) :=
  match emails with
  | [] => mret results
  | email :: rest =>
      category ← categorizeEmail email;
      let results := results ++ [{| br_id := e_id email; br_category := category |}] in
      (* Add small delay to avoid rate limiting *)
      sleep 100;;
      batch_loop rest results
  end.

Definition batchCategorizeEmails (emails : list email_data) : M (list batch_result) :=
  try_catch
    (results ← batch_loop emails [];
     log LogInfo ("Batch categorized " +:+ pretty (length emails) +:+ " emails");;
     mret results)
    (λ error,
       log_error "Error in batch categorization:" error;;
       throw error).

(** ** slackService.js *)

Definition new_SlackService : SlackService :=
  {| slack_webhookUrl := env_SLACK_WEBHOOK_URL X |}.

(** [await axios.post(url, body, config)]; [response.status] is returned. *)
Definition axios_post_call (url : string) (body : http_body) (config : axios_config)
  : M Z :=
  tell (EvAxiosPost url body config);;
  await (consult (λ n, axios_post X n url body config)).

Definition buildSlackMessage (emailData : email_data) : slack_message :=
  let date := date_toLocaleString X (e_date emailData) in
  {| sm_text := "🎯 New Interested Email Received";
     sm_color := "good";
     sm_fields :=
       [ {| sf_title := "From"; sf_value := e_from emailData; sf_short := true |};
         {| sf_title := "To"; sf_value := e_to emailData; sf_short := true |};
         {| sf_title := "Subject"; sf_value := e_subject emailData; sf_short := false |};
         {| sf_title := "Date"; sf_value := date; sf_short := true |};
         {| sf_title := "Account"; sf_value := e_email emailData; sf_short := true |};
         {| sf_title := "Category";
            sf_value := or_default (e_category emailData) "Interested";
            sf_short := true |} ];
     sm_footer := "Reachinbox Email Aggregator";
     sm_ts := e_date emailData / 1000 |}.

Definition sendNotification (this : SlackService) (emailData : email_data) : M bool :=
  tell (EvSinkCall ChatSink emailData);;
  try_catch
    (if falsy (slack_webhookUrl this) then
       (log LogWarn "Slack webhook URL not configured";;
        mret false)
     else
       (let message := buildSlackMessage emailData in
        status ← axios_post_call (default "" (slack_webhookUrl this)) (SlackBody message)
                   {| cfg_headers := [("Content-Type", "application/json")];
                      cfg_timeout := None |};
        if bool_decide (status = 200) then
          (log LogInfo ("Slack notification sent for email: " +:+ e_subject emailData);;
           mret true)
        else
          (log LogError ("Slack notification failed: " +:+ pretty status);;
           mret false)))
    (λ error,
       log_error "Error sending Slack notification:" error;;
       mret false).

(** ** webhookService.js *)

Definition new_WebhookService : WebhookService :=
  {| webhookUrl := env_WEBHOOK_URL X |}.

Definition webhook_headers : list (string * string) :=
  [("Content-Type", "application/json"); ("User-Agent", "Reachinbox-Webhook/1.0")].

Definition buildWebhookPayload (emailData : email_data) : M webhook_payload :=
  timestamp ← new_Date;
  processedAt ← new_Date;
  mret {| wp_event := "email.interested";
          wp_timestamp := timestamp;
          wp_data :=
            {| wd_id := e_id emailData; wd_uid := e_uid emailData;
               wd_email := e_email emailData; wd_from := e_from emailData;
               wd_to := e_to emailData; wd_subject := e_subject emailData;
               wd_date := e_date emailData; wd_text := e_text emailData;
               wd_html := e_html emailData; wd_folder := e_folder emailData;
               wd_category := e_category emailData;
               wd_messageId := e_messageId emailData;
               wd_inReplyTo := e_inReplyTo emailData;
               wd_references := e_references emailData;
               wd_attachments := e_attachments emailData;
               wd_size := e_size emailData; wd_flags := e_flags emailData |};
          wp_metadata :=
            {| wm_source := "reachinbox-email-aggregator";
               wm_version := "1.0.0";
               wm_processedAt := processedAt |} |}.

Definition triggerWebhook (this : WebhookService) (emailData : email_data) : M bool :=
  tell (EvSinkCall WebhookSink emailData);;
  try_catch
    (if falsy (webhookUrl this) then
       (log LogWarn "Webhook URL not configured";;
        mret false)
     else
       (payload ← buildWebhookPayload emailData;
        status ← axios_post_call (default "" (webhookUrl this)) (WebhookBody payload)
                   {| cfg_headers := webhook_headers;
                      cfg_timeout := Some 10000 (* 10 second timeout *) |};
        if bool_decide (200 ≤ status) && bool_decide (status < 300) then
          (log LogInfo ("Webhook triggered successfully for email: " +:+ e_subject emailData);;
           mret true)
        else
          (log LogError ("Webhook failed with status: " +:+ pretty status);;
           mret false)))
    (λ error,
       log_error "Error triggering webhook:" error;;
       mret false).

(** [emails.map(email => this.buildWebhookPayload(email).data)] *)
Fixpoint map_payload_data (emails : list email_data) : M (list webhook_data) :=
  match emails with
  | [] => mret []
  | email :: rest =>
      payload ← buildWebhookPayload email;
      datas ← map_payload_data rest;
      mret (wp_data payload :: datas)
  end.

Definition triggerBatchWebhook (this : WebhookService) (emails : list email_data) : M bool :=
  try_catch
    (if falsy (webhookUrl this) then
       (log LogWarn "Webhook URL not configured";;
        mret false)
     else
       (timestamp ← new_Date;
        data ← map_payload_data emails;
        processedAt ← new_Date;
        let payload :=
          {| bp_event := "email.batch.interested";
             bp_timestamp := timestamp;
             bp_count := length emails;
             bp_data := data;
             bp_metadata :=
               {| wm_source := "reachinbox-email-aggregator";
                  wm_version := "1.0.0";
                  wm_processedAt := processedAt |} |} in
        status ← axios_post_call (default "" (webhookUrl this)) (BatchWebhookBody payload)
                   {| cfg_headers := webhook_headers;
                      cfg_timeout := Some 15000 (* Longer timeout for batch *) |};
        if bool_decide (200 ≤ status) && bool_decide (status < 300) then
          (log LogInfo ("Batch webhook triggered successfully for "
                        +:+ pretty (length emails) +:+ " emails");;
           mret true)
        else
          (log LogError ("Batch webhook failed with status: " +:+ pretty status);;
           mret false)))
    (λ error,
       log_error "Error triggering batch webhook:" error;;
       mret false).

(** ** elasticsearchService.js: the two writes of the pipeline *)

Definition indexEmail (emailData : email_data) : M unit :=
  try_catch
    (tell (EvIndex emailData);;
     await (consult (λ n, es_index X n emailData));;
     log LogDebug ("Indexed email: " +:+ e_id emailData))
    (λ error,
       log_error "Error indexing email:" error;;
       throw error).

Definition updateEmailCategory (emailId : string) (category : string) : M unit :=
  try_catch
    (updatedAt ← new_Date;
     tell (EvUpdateCategory emailId category updatedAt);;
     await (consult (λ n, es_update X n emailId category));;
     log LogDebug ("Updated email category: " +:+ emailId +:+ " -> " +:+ category))
    (λ error,
       log_error "Error updating email category:" error;;
       throw error).

(** ** imapSyncService.js *)

(** The services handed to the constructor. *)
Variable slackService : SlackService.
Variable webhookService : WebhookService.

Definition DAY_MS : Z := 86400000.

(** [moment(t).format('DD-MMM-YYYY')]: the calendar day of [t]. *)
Definition format_DD_MMM_YYYY (t : Z) : Z := t / DAY_MS.

(** [moment(t).subtract(n, 'days')] and [moment(t).subtract(n, 'minute')] *)
Definition subtract_days (t : Z) (n : Z) : Z := t - n * DAY_MS.
Definition subtract_minutes (t : Z) (n : Z) : Z := t - n * 60000.

(** [`${attributes.uid}`] *)
Definition template_uid (uid : option N) : string :=
  match uid with
  | Some n => pretty n
  | None => "undefined"
  end.

(** [this.io.to(room).emit(name, payload)] *)
Definition io_to_emit (room name : string) (payload : live_update) : M unit :=
  tell (EvEmit room name payload).

(** The body of the [msg.once('end', async () => ...)] handler; [buffer]
    and [attributes] are what the ['body'] and ['attributes'] handlers
    have collected by then. *)
Definition processEmailMessage (msg : imap_message) (email : string) (seqno : N)
    (callback : M unit) : M unit :=
  let buffer := foldl String.app "" (m_chunks msg) in
  let attributes :=
    default {| a_uid := None; a_flags := None; a_size := None |} (m_attributes msg) in
  try_catch
    (tell (EvParse buffer);;
     parsed ← await (consult (λ n, simpleParser X n buffer));
     date ← from_option mret new_Date (p_date parsed);
     createdAt ← new_Date;
     updatedAt ← new_Date;
     let emailData :=
       {| e_id := email +:+ "_" +:+ template_uid (a_uid attributes);
          e_uid := a_uid attributes;
          e_email := email;
          e_from := or_default (p_from parsed) "";
          e_to := or_default (p_to parsed) "";
          e_subject := or_default (p_subject parsed) "";
          e_date := date;
          e_text := or_default (p_text parsed) "";
          e_html := or_default (p_html parsed) "";
          e_attachments := default [] (p_attachments parsed);
          e_folder := "INBOX";
          e_flags := default [] (a_flags attributes);
          e_size := default 0%N (a_size attributes);
          e_messageId := or_default (p_messageId parsed) "";
          e_inReplyTo := or_default (p_inReplyTo parsed) "";
          e_references := default (RefOne "") (p_references parsed);
          e_createdAt := createdAt;
          e_updatedAt := updatedAt;
          e_category := None |} in
     (* Store in Elasticsearch *)
     indexEmail emailData;;
     (* Categorize with AI *)
     category ← categorizeEmail emailData;
     let emailData := set_category emailData category in
     (* Update with category *)
     updateEmailCategory (e_id emailData) category;;
     (* Send notifications for interested emails *)
     (if bool_decide (category = "Interested") then
        (sendNotification slackService emailData;;
         triggerWebhook webhookService emailData;;
         mret tt)
      else mret tt);;
     (* Emit real-time update *)
     io_to_emit "email-updates" "new-email"
       {| lu_id := e_id emailData;
          lu_from := e_from emailData;
          lu_subject := e_subject emailData;
          lu_category := category;
          lu_date := e_date emailData |};;
     log LogInfo ("Processed email: " +:+ e_subject emailData
                  +:+ " (" +:+ category +:+ ")");;
     callback)
    (λ error,
       log_error ("Error processing email for " +:+ email +:+ ":") error;;
       callback).

(** Settling the promise of the running [syncEmails]; only the first
    [resolve] or [reject] counts. *)
Definition settle_sync (r : settled unit) : M unit :=
  modify (λ s, if sync_promise s is None then with_sync_promise (Some r) s else s).

Definition settle_conn (r : settled unit) : M unit :=
  modify (λ s, if conn_promise s is None then with_conn_promise (Some r) s else s).

(** What awaiting a promise of the program gives once the events at hand
    have been handled. *)
Definition await_promise (cell : state → option (settled unit)) : M unit := λ s,
  match cell s with
  | Some (Fulfilled _) => (Returned tt, s)
  | Some (Rejected e) => (Thrown e, s)
  | None => (Pending, s)
  end.

(** The callback [syncEmails] passes to [processEmailMessage]. *)
Definition sync_callback (email : string) (results_length : nat) : M unit :=
  modify (with_processedCount S);;
  count ← get processedCount;
  if bool_decide (count = results_length) then
    (log LogInfo ("Completed initial sync for " +:+ email +:+ ": "
                  +:+ pretty count +:+ " emails processed");;
     settle_sync (Fulfilled tt))
  else mret tt.

(** The events of the fetch of [syncEmails], with its [on('message')],
    [once('error')] and [once('end')] handlers.  Messages are taken one
    after the other, each handled to its end before the next event; an
    event that no handler listens to any more is dropped. *)
Fixpoint sync_fetch_events (email : string) (results_length : nat)
    (events : list fetch_event) (error_armed end_armed : bool) : M unit :=
  match events with
  | [] => mret tt
  | FetchMessage msg seqno :: events' =>
      detach (processEmailMessage msg email seqno (sync_callback email results_length));;
      sync_fetch_events email results_length events' error_armed end_armed
  | FetchError err :: events' =>
      (if error_armed then
         (log_error ("Error fetching emails for " +:+ email +:+ ":") err;;
          settle_sync (Rejected err))
       else mret tt);;
      sync_fetch_events email results_length events' false end_armed
  | FetchEnd :: events' =>
      (if end_armed then log LogInfo ("Fetch completed for " +:+ email) else mret tt);;
      sync_fetch_events email results_length events' error_armed false
  end.

Definition syncEmails (email : string) (imap : nat) : M unit :=
  modify (with_sync_promise None);;
  tell (EvOpenBox imap "INBOX" true);;
  opened ← consult (λ n, imap_openBox X n imap);
  match opened with
  | Rejected err =>
      log_error ("Error opening INBOX for " +:+ email +:+ ":") err;;
      settle_sync (Rejected err)
  | Fulfilled _ =>
      (* Search for emails from last 30 days *)
      now ← new_Date;
      let thirtyDaysAgo := format_DD_MMM_YYYY (subtract_days now 30) in
      let searchCriteria := SINCE thirtyDaysAgo in
      tell (EvSearch imap searchCriteria);;
      found ← consult (λ n, imap_search X n imap searchCriteria);
      match found with
      | Rejected err =>
          log_error ("Error searching emails for " +:+ email +:+ ":") err;;
          settle_sync (Rejected err)
      | Fulfilled results =>
          if bool_decide (length results = 0%nat) then
            (log LogInfo ("No emails found for " +:+ email +:+ " in last 30 days");;
             settle_sync (Fulfilled tt))
          else
            (log LogInfo ("Found " +:+ pretty (length results) +:+ " emails for "
                          +:+ email +:+ ", processing...");;
             tell (EvFetch imap results);;
             events ← consult (λ n, imap_fetch X n imap results);
             modify (with_processedCount (λ _, 0%nat));;
             sync_fetch_events email (length results) events true true)
      end
  end;;
  await_promise sync_promise.

(** The callback of an incremental check. *)
Definition idle_callback (email : string) (results_length : nat) : M unit :=
  modify (with_processedCount S);;
  count ← get processedCount;
  if bool_decide (count = results_length) then
    log LogInfo ("Processed " +:+ pretty count +:+ " new emails for " +:+ email)
  else mret tt.

(** The fetch of an incremental check has an [on('message')] handler
    only; its other events are passed over. *)
Fixpoint idle_fetch_events (email : string) (results_length : nat)
    (events : list fetch_event) : M unit :=
  match events with
  | [] => mret tt
  | FetchMessage msg seqno :: events' =>
      detach (processEmailMessage msg email seqno (idle_callback email results_length));;
      idle_fetch_events email results_length events'
  | _ :: events' => idle_fetch_events email results_length events'
  end.

(** The closure [checkForNewEmails] of [setupIdleMode(email, imap)]. *)
Definition checkForNewEmails (email : string) (imap : nat) : M unit :=
  has ← get (λ s, bool_decide (is_Some (connections s !! email)));
  if negb has then mret tt
  else
    (tell (EvOpenBox imap "INBOX" true);;
     opened ← consult (λ n, imap_openBox X n imap);
     match opened with
     | Rejected err =>
         log_error ("Error opening INBOX for IDLE check " +:+ email +:+ ":") err
     | Fulfilled _ =>
         (* Check for new emails since last check *)
         now ← new_Date;
         let lastCheck := format_DD_MMM_YYYY (subtract_minutes now 1) in
         let searchCriteria := SINCE lastCheck in
         tell (EvSearch imap searchCriteria);;
         found ← consult (λ n, imap_search X n imap searchCriteria);
         match found with
         | Rejected err =>
             log_error ("Error searching for new emails " +:+ email +:+ ":") err
         | Fulfilled results =>
             if bool_decide (0 < length results)%nat then
               (log LogInfo ("Found " +:+ pretty (length results)
                             +:+ " new emails for " +:+ email);;
                tell (EvFetch imap results);;
                events ← consult (λ n, imap_fetch X n imap results);
                modify (with_processedCount (λ _, 0%nat));;
                idle_fetch_events email (length results) events)
             else mret tt
         end
     end).

Definition setupIdleMode (email : string) (imap : nat) : M unit :=
  (* Check for new emails every minute *)
  tell (EvSetInterval 60000 email imap);;
  log LogInfo ("IDLE mode setup completed for " +:+ email).

(** The three handlers [initializeConnection] attaches to the connection. *)
Definition on_ready (email : string) (imap : nat) : M unit :=
  log LogInfo ("Connected to IMAP for " +:+ email);;
  modify (with_connections (insert email imap));;
  try_catch
    ((* Initial sync - fetch last 30 days *)
     syncEmails email imap;;
     (* Set up IDLE mode for real-time updates *)
     setupIdleMode email imap;;
     settle_conn (Fulfilled tt))
    (λ error,
       log_error ("Error during initial sync for " +:+ email +:+ ":") error;;
       settle_conn (Rejected error)).

Definition on_error (email : string) (err : js_error) : M unit :=
  log_error ("IMAP connection error for " +:+ email +:+ ":") err;;
  settle_conn (Rejected err).

Definition on_end (email : string) : M unit :=
  log LogInfo ("IMAP connection ended for " +:+ email);;
  modify (with_connections (delete email)).

(** The events of the connection while [initializeConnection] waits; each
    handler is attached with [once]. *)
Fixpoint conn_events (email : string) (imap : nat) (events : list conn_event)
    (ready_armed error_armed end_armed : bool) : M unit :=
  match events with
  | [] => mret tt
  | ConnReady :: events' =>
      (if ready_armed then detach (on_ready email imap) else mret tt);;
      conn_events email imap events' false error_armed end_armed
  | ConnError err :: events' =>
      (if error_armed then on_error email err else mret tt);;
      conn_events email imap events' ready_armed false end_armed
  | ConnEnd :: events' =>
      (if end_armed then on_end email else mret tt);;
      conn_events email imap events' ready_armed error_armed false
  end.

Definition initializeConnection (email password : string) : M unit :=
  modify (with_conn_promise None);;
  imap ← get next_conn;
  modify (with_next_conn S);;
  tell (EvImapConnect imap email password);;
  events ← consult (λ n, imap_session X n email password);
  conn_events email imap events true true true;;
  await_promise conn_promise.

(** [process.env.NAME?.split(',') || []] *)
Definition env_list (value : option string) : list string :=
  from_option (split ",") [] value.

Definition start : M unit :=
  try_catch
    (log LogInfo "Starting IMAP sync service...";;
     let emailAccounts := env_list (env_EMAIL_ACCOUNTS X) in
     let emailPasswords := env_list (env_EMAIL_PASSWORDS X) in
     if bool_decide (length emailAccounts = 0%nat) then
       throw (JsError "No email accounts configured")
     else if bool_decide (length emailAccounts ≠ length emailPasswords) then
       throw (JsError "Email accounts and passwords count mismatch")
     else
       ((* Initialize connections for each email account *)
        for_of (zip emailAccounts emailPasswords) (λ account,
          let email := trim account.1 in
          let password := trim account.2 in
          initializeConnection email password);;
        modify (with_isRunning true);;
        log LogInfo "IMAP sync service started successfully"))
    (λ error,
       log_error "Failed to start IMAP sync service:" error;;
       throw error).

(** [connection.end()] *)
Definition connection_end (connection : nat) : M unit :=
  tell (EvImapEnd connection);;
  thrown ← consult (λ n, imap_end X n connection);
  from_option throw (mret tt) thrown.

(** The registry is gone through in the order of its keys here, in the
    order of insertion in the program. *)
Definition stop : M unit :=
  log LogInfo "Stopping IMAP sync service...";;
  modify (with_isRunning false);;
  entries ← get (λ s, map_to_list (connections s));
  for_of entries (λ entry,
    let email := entry.1 in
    let connection := entry.2 in
    try_catch
      (connection_end connection;;
       log LogInfo ("Closed connection for " +:+ email))
      (λ error,
         log_error ("Error closing connection for " +:+ email +:+ ":") error));;
  modify (with_connections (λ _, ∅));;
  log LogInfo "IMAP sync service stopped".

(** What the event loop may deliver once [start] or [stop] has given
    control back: a tick of a registered interval, or an event of a
    connection that [initializeConnection] has made: ['end'], or, for a
    connection that was still being set up, ['ready'] or ['error'].  A
    delivery is the run of the handler; what a pending [start] goes on
    to do once the promise of its connection has settled is no part of
    it. *)
Inductive later_event : Type :=
| Tick (email : string) (imap : nat)
| ConnectionEnded (email : string)
| ConnectionReady (email : string) (imap : nat)
| ConnectionError (email : string) (err : js_error).

Definition deliver (ev : later_event) : M unit :=
  match ev with
  | Tick email imap => detach (checkForNewEmails email imap)
  | ConnectionEnded email => on_end email
  | ConnectionReady email imap => detach (on_ready email imap)
  | ConnectionError email err => on_error email err
  end.

End Services.

(** * Property lookup on the service instances

    An instance has the own properties its constructor assigns; the
    methods of its class live on the prototype.  A property read looks at
    the own properties first. *)

Inductive js_value : Type :=
| VUndefined
| VBoolean (b : bool)
| VObject                       (* an object the claims do not look into *)
| VMethod (name : string).      (* a method of the class *)

Record js_object : Type := mkObject {
  own_properties : gmap string js_value;
  prototype : gmap string js_value
}.

Definition class_prototype (methods : list string) : gmap string js_value :=
  list_to_map ((λ name, (name, VMethod name)) <$> methods).

(** [o.name] *)
Definition get_property (o : js_object) (name : string) : js_value :=
  match own_properties o !! name with
  | Some v => v
  | None => default VUndefined (prototype o !! name)
  end.

(** The bodies of the two getters-by-name, [return this.isRunning] and
    [return this.isConnected]; every other method is [async] and returns
    a promise. *)
Definition method_body (name : string) (this : js_object) : js_value :=
  if bool_decide (name = "isRunning") then get_property this "isRunning"
  else if bool_decide (name = "isConnected") then get_property this "isConnected"
  else VObject.

(** [o.name()] *)
Definition call_method (o : js_object) (name : string) : outcome js_value :=
  match get_property o name with
  | VMethod m => Returned (method_body m o)
  | _ => Thrown (JsTypeError (name +:+ " is not a function"))
  end.

(** [new ImapSyncService(...)] in state [s]: the constructor assigns
    eight fields, [start] and [stop] reassign [isRunning]. *)
Definition imapSyncService (s : state) : js_object :=
  {| own_properties :=
       list_to_map
         [("elasticsearchService", VObject); ("aiCategorizationService", VObject);
          ("slackService", VObject); ("webhookService", VObject);
          ("io", VObject); ("connections", VObject);
          ("isRunning", VBoolean (isRunning s)); ("logger", VObject)];
     prototype :=
       class_prototype
         ["constructor"; "start"; "initializeConnection"; "syncEmails";
          "processEmailMessage"; "setupIdleMode"; "stop"; "isRunning";
          "getConnectionStatus"] |}.

(** [new ElasticsearchService()], whose constructor assigns [isConnected]. *)
Definition elasticsearchService (connected : bool) : js_object :=
  {| own_properties :=
       list_to_map
         [("client", VObject); ("indexName", VObject); ("logger", VObject);
          ("isConnected", VBoolean connected)];
     prototype :=
       class_prototype
         ["constructor"; "initialize"; "indexEmail"; "updateEmailCategory";
          "searchEmails"; "isConnected"] |}.

(** The [services] object of the [/health] response:
    [{ elasticsearch: this.elasticsearchService.isConnected(),
       imap: this.imapSyncService.isRunning() }] *)
Definition health_services (connected : bool) (s : state)
  : outcome (js_value * js_value) :=
  match call_method (elasticsearchService connected) "isConnected" with
  | Returned elasticsearch =>
      match call_method (imapSyncService s) "isRunning" with
      | Returned imap => Returned (elasticsearch, imap)
      | Thrown e => Thrown e
      | Pending => Pending
      end
  | Thrown e => Thrown e
  | Pending => Pending
  end.

(** * Notions used in the statements *)

(** [advance s evs n] is [s] after the interactions [evs] and [n] oracle
    consultations, with nothing else changed. *)
Definition advance (s : state) (evs : list event) (n : nat) : state :=
  with_calls (λ c, n + c)%nat (with_trace (λ t, t ++ evs) s).

(** The interactions of a run, read off the traces before and after. *)
Definition new_events (s s' : state) : list event :=
  drop (length (trace s)) (trace s').

(** Projections of a trace. *)
Definition chat_requests : list event → list chat_request :=
  omap (λ ev, match ev with EvChatCompletion req => Some req | _ => None end).

Definition classifier_event (ev : event) : Prop :=
  match ev with
  | EvLog _ _ _ | EvChatCompletion _ => True
  | _ => False
  end.

(** What the provider answers when consulted for [emailData] as its
    [n]-th consultation. *)
Definition provider_answer (X : Externals) (emailData : email_data) (n : nat)
  : settled chat_response :=
  openai_create X n (categorization_request (buildCategorizationPrompt X emailData)).

(** [category] is what [categorizeEmail] makes of the provider's
    [answer]: the trimmed text of the first choice when that is one of
    the five categories, the default otherwise. *)
Definition follows_answer (answer : settled chat_response) (category : string) : Prop :=
  match answer with
  | Rejected _ => category = "Not Interested"
  | Fulfilled response =>
      match choices response with
      | Some content :: _ =>
          if bool_decide (trim content ∈ categories) then category = trim content
          else category = "Not Interested"
      | _ => category = "Not Interested"
      end
  end.

(** The provider calls and the delays of a trace, in order. *)
Inductive batch_step : Type :=
| CallProvider (req : chat_request)
| Delay (ms : Z).

Definition batch_steps : list event → list batch_step :=
  omap (λ ev, match ev with
              | EvChatCompletion req => Some (CallProvider req)
              | EvSleep ms => Some (Delay ms)
              | _ => None
              end).

(** What a batch over [emails] is to do: for each email in turn, one
    provider call (when a credential is configured) and a 100ms delay. *)
Definition batch_protocol (X : Externals) (emails : list email_data) : list batch_step :=
  emails ≫= λ email,
    if falsy (env_OPENAI_API_KEY X) then [Delay 100]
    else [CallProvider (categorization_request (buildCategorizationPrompt X email));
          Delay 100].

(** Projections of a trace used for the sinks. *)
Definition sink_calls : list event → list (sink * email_data) :=
  omap (λ ev, match ev with EvSinkCall k emailData => Some (k, emailData) | _ => None end).

Definition posts : list event → list (string * http_body * axios_config) :=
  omap (λ ev, match ev with
              | EvAxiosPost url body config => Some (url, body, config)
              | _ => None
              end).

Definition live_updates : list event → list (string * string * live_update) :=
  omap (λ ev, match ev with
              | EvEmit room name payload => Some (room, name, payload)
              | _ => None
              end).

Definition transport_event (ev : event) : Prop :=
  match ev with
  | EvLog _ _ _ | EvAxiosPost _ _ _ => True
  | _ => False
  end.

(** The interactions the pipeline of one message may have: all but the
    delay and those with the mail server and the timers. *)
Definition pipeline_event (ev : event) : Prop :=
  match ev with
  | EvLog _ _ _ | EvChatCompletion _ | EvSinkCall _ _ | EvAxiosPost _ _ _
  | EvParse _ | EvIndex _ | EvUpdateCategory _ _ _ | EvEmit _ _ _ => True
  | _ => False
  end.

(** [m] takes every state to one related to it by [R], however it ends. *)
Definition steps {A} (R : relation state) (m : M A) : Prop :=
  ∀ s, R s (m s).2.

(** The trace has grown by interactions of kind [P]. *)
Definition grown_by (P : event → Prop) : relation state :=
  λ s s', ∃ evs, trace s' = trace s ++ evs ∧ Forall P evs.

(** [m] only adds interactions of kind [P] to the trace. *)
Definition emits {A} (P : event → Prop) (m : M A) : Prop :=
  steps (grown_by P) m.

(** The trace has grown and the promise of the running
    [initializeConnection] is untouched. *)
Definition keeps_promise : relation state :=
  λ s s', trace s `prefix_of` trace s' ∧ conn_promise s' = conn_promise s.

(** The trace has grown, and the promise of the running
    [initializeConnection] has kept its value if it was settled. *)
Definition settled_stays : relation state :=
  λ s s', trace s `prefix_of` trace s' ∧
          ∀ p, conn_promise s = Some p → conn_promise s' = Some p.

(** ** Searches *)

(** What the server makes of a search key (RFC 3501, SINCE: "messages
    whose internal date, disregarding time and timezone, is within or
    later than the specified date"). *)
Definition matches (key : search_key) (internalDate : Z) : bool :=
  match key with
  | SINCE day => bool_decide (day ≤ internalDate / DAY_MS)
  end.

(** [t] lies in the window of length [window] that ends at [now]. *)
Definition within_trailing (now window t : Z) : Prop :=
  now - window ≤ t ≤ now.

Definition searches : list event → list (nat * search_key) :=
  omap (λ ev, match ev with EvSearch conn key => Some (conn, key) | _ => None end).

Definition intervals : list event → list (Z * string * nat) :=
  omap (λ ev, match ev with
              | EvSetInterval ms email conn => Some (ms, email, conn)
              | _ => None
              end).

(** The interactions after the search of a sync: the fetch and the
    pipelines of the messages. *)
Definition fetch_or_pipeline_event (ev : event) : Prop :=
  match ev with
  | EvFetch _ _ => True
  | _ => pipeline_event ev
  end.

(** ** Shutdown *)

Definition is_log (ev : event) : Prop :=
  match ev with EvLog _ _ _ => True | _ => False end.

(** The interactions of [stop]: its logs and the [end()] calls. *)
Definition stop_event (ev : event) : Prop :=
  match ev with EvLog _ _ _ | EvImapEnd _ => True | _ => False end.

(** The connections [end()] was called on. *)
Definition imap_ends : list event → list nat :=
  omap (λ ev, match ev with EvImapEnd conn => Some conn | _ => None end).

Definition log_messages : list event → list string :=
  omap (λ ev, match ev with EvLog _ msg _ => Some msg | _ => None end).

(** The manager of [email] has acknowledged the close of its session:
    its ['end'] handler has run. *)
Definition acknowledged (email : string) (t : list event) : Prop :=
  "IMAP connection ended for " +:+ email ∈ log_messages t.

(** A later event other than ['ready']. *)
Definition not_ready (ev : later_event) : Prop :=
  match ev with ConnectionReady _ _ => False | _ => True end.

(** The registry of sessions is as it was. *)
Definition keeps_registry : relation state :=
  λ s s', connections s' = connections s.

(** ** Starting the accounts *)

(** Between [s] and [s'] the initial backfill of [email] has completed:
    a call of [syncEmails] for it has returned. *)
Definition backfilled (X : Externals) (slackService : SlackService)
    (webhookService : WebhookService) (email : string) (s s' : state) : Prop :=
  ∃ imap sa sb,
    trace s `prefix_of` trace sa ∧
    trace sb `prefix_of` trace s' ∧
    syncEmails X slackService webhookService email imap sa = (Returned tt, sb).

(** The invariant of the events of a connection: if the promise is
    fulfilled, the backfill has completed since [s0]. *)
Definition fulfilled_means_backfilled (X : Externals) (slackService : SlackService)
    (webhookService : WebhookService) (email : string) (s0 s : state) : Prop :=
  trace s0 `prefix_of` trace s ∧
  (conn_promise s = Some (Fulfilled tt) →
   backfilled X slackService webhookService email s0 s).

(** The state in which the ['ready'] handler of a connection opened
    from [s] starts the initial backfill, when ['ready'] is the first
    event of the session. *)
Definition ready_state (email password : string) (s : state) : state :=
  with_connections (insert email (next_conn s))
    (advance (with_next_conn S (with_conn_promise None s))
       [EvImapConnect (next_conn s) email password;
        EvLog LogInfo ("Connected to IMAP for " +:+ email) None] 1).

(** The connections opened. *)
Definition connects : list event → list (nat * string * string) :=
  omap (λ ev, match ev with
              | EvImapConnect conn user password => Some (conn, user, password)
              | _ => None
              end).

Definition not_connect (ev : event) : Prop :=
  match ev with EvImapConnect _ _ _ => False | _ => True end.

(** The body of the loop of [start]. *)
Definition connect_account (X : Externals) (slackService : SlackService)
    (webhookService : WebhookService) (account : string * string) : M unit :=
  initializeConnection X slackService webhookService (trim account.1) (trim account.2).

(** ** The pipeline of one message *)

(** The buffer and the attributes [processEmailMessage] has collected
    when the message ends. *)
Definition buffer_of (msg : imap_message) : string :=
  foldl String.app "" (m_chunks msg).

Definition attributes_of (msg : imap_message) : imap_attributes :=
  default {| a_uid := None; a_flags := None; a_size := None |} (m_attributes msg).

(** A parsed mail with every field missing. *)
Definition blank : parsed_mail :=
  {| p_from := None; p_to := None; p_subject := None; p_date := None;
     p_text := None; p_html := None; p_attachments := None;
     p_messageId := None; p_inReplyTo := None; p_references := None |}.

(** The Message built from a parsed mail, given the three readings of
    the clock. *)
Definition message_of (email : string) (attributes : imap_attributes)
    (parsed : parsed_mail) (now createdAt updatedAt : Z) : email_data :=
  {| e_id := email +:+ "_" +:+ template_uid (a_uid attributes);
     e_uid := a_uid attributes;
     e_email := email;
     e_from := or_default (p_from parsed) "";
     e_to := or_default (p_to parsed) "";
     e_subject := or_default (p_subject parsed) "";
     e_date := default now (p_date parsed);
     e_text := or_default (p_text parsed) "";
     e_html := or_default (p_html parsed) "";
     e_attachments := default [] (p_attachments parsed);
     e_folder := "INBOX";
     e_flags := default [] (a_flags attributes);
     e_size := default 0%N (a_size attributes);
     e_messageId := or_default (p_messageId parsed) "";
     e_inReplyTo := or_default (p_inReplyTo parsed) "";
     e_references := default (RefOne "") (p_references parsed);
     e_createdAt := createdAt;
     e_updatedAt := updatedAt;
     e_category := None |}.

(** The readings of the clock while the Message is built: one for
    [date] when the parser found none, one for [createdAt], one for
    [updatedAt]. *)
Definition clock_readings (parsed : parsed_mail) : nat :=
  match p_date parsed with Some _ => 2 | None => 3 end.

(** The Message [processEmailMessage] builds of [parsed] when the
    handler of the message's ['end'] event starts in state [s]: the
    parser is consulted first, then the clock. *)
Definition built_message (X : Externals) (email : string) (msg : imap_message)
    (parsed : parsed_mail) (s : state) : email_data :=
  match p_date parsed with
  | Some date =>
      message_of email (attributes_of msg) parsed date
        (date_now X (1 + calls s)) (date_now X (2 + calls s))
  | None =>
      message_of email (attributes_of msg) parsed
        (date_now X (1 + calls s)) (date_now X (2 + calls s))
        (date_now X (3 + calls s))
  end.

(** The state in which that Message is handed to the classifier, once
    the store has accepted it. *)
Definition classifier_state (X : Externals) (email : string) (msg : imap_message)
    (parsed : parsed_mail) (s : state) : state :=
  let emailData := built_message X email msg parsed s in
  advance s
    [EvParse (buffer_of msg); EvIndex emailData;
     EvLog LogDebug ("Indexed email: " +:+ e_id emailData) None]
    (2 + clock_readings parsed).

Definition skipped_log (email : string) (err : js_error) : event :=
  EvLog LogError ("Error processing email for " +:+ email +:+ ":") (Some err).

Definition processed_log (emailData : email_data) (category : string) : event :=
  EvLog LogInfo ("Processed email: " +:+ e_subject emailData
                 +:+ " (" +:+ category +:+ ")") None.

Definition published (emailData : email_data) (category : string) : event :=
  EvEmit "email-updates" "new-email"
    {| lu_id := e_id emailData; lu_from := e_from emailData;
       lu_subject := e_subject emailData; lu_category := category;
       lu_date := e_date emailData |}.

Definition store_event (ev : event) : Prop :=
  match ev with
  | EvLog _ _ _ | EvIndex _ | EvUpdateCategory _ _ _ => True
  | _ => False
  end.

(** The interactions of the notification block for a Message of
    [category]. *)
Definition notified (emailData : email_data) (category : string)
    (evs : list event) : Prop :=
  if bool_decide (category = "Interested") then
    ∃ chat webhook,
      evs = EvSinkCall ChatSink emailData :: chat
            ++ EvSinkCall WebhookSink emailData :: webhook ∧
      Forall transport_event chat ∧ Forall transport_event webhook
  else evs = [].

(** The interactions of [processEmailMessage], after the call of the
    parser and up to the call of the callback, by what the parser
    answered. *)
Inductive pipeline (email : string) (attributes : imap_attributes)
  : settled parsed_mail → list event → Prop :=
| parse_failed err :
    pipeline email attributes (Rejected err) [skipped_log email err]
| index_failed parsed now createdAt updatedAt err :
    let emailData := message_of email attributes parsed now createdAt updatedAt in
    pipeline email attributes (Fulfilled parsed)
      [EvIndex emailData;
       EvLog LogError "Error indexing email:" (Some err);
       skipped_log email err]
| update_failed parsed now createdAt updatedAt category classified at_ err :
    let emailData := message_of email attributes parsed now createdAt updatedAt in
    category ∈ categories →
    Forall classifier_event classified →
    pipeline email attributes (Fulfilled parsed)
      (EvIndex emailData
       :: EvLog LogDebug ("Indexed email: " +:+ e_id emailData) None
       :: classified
       ++ [EvUpdateCategory (e_id emailData) category at_;
           EvLog LogError "Error updating email category:" (Some err);
           skipped_log email err])
| completed parsed now createdAt updatedAt category classified at_ notifications :
    let emailData := message_of email attributes parsed now createdAt updatedAt in
    category ∈ categories →
    Forall classifier_event classified →
    notified (set_category emailData category) category notifications →
    pipeline email attributes (Fulfilled parsed)
      (EvIndex emailData
       :: EvLog LogDebug ("Indexed email: " +:+ e_id emailData) None
       :: classified
       ++ EvUpdateCategory (e_id emailData) category at_
       :: EvLog LogDebug ("Updated email category: " +:+ e_id emailData
                          +:+ " -> " +:+ category) None
       :: notifications
       ++ [published emailData category;
           processed_log emailData category]).


(** The Messages handed to the store. *)
Definition stored : list event → list email_data :=
  omap (λ ev, match ev with EvIndex emailData => Some emailData | _ => None end).

(** A callback that always returns. *)
Definition total_callback (callback : M unit) : Prop :=
  ∀ s, ∃ s', callback s = (Returned tt, s').

(** * Concrete worlds and inputs *)

(** 2024-01-15T12:00:00Z *)
Definition noon : Z := 1705320000000.

Definition sample_world (key : option string) (accounts passwords : option string)
    (slack_url webhook_url : option string)
    (reply : nat → settled chat_response) (http : settled Z)
    (parse : settled parsed_mail) (session : list conn_event)
    (found : settled (list N)) (fetched : list fetch_event) : Externals :=
  {| env_OPENAI_API_KEY := key;
     env_EMAIL_ACCOUNTS := accounts;
     env_EMAIL_PASSWORDS := passwords;
     env_SLACK_WEBHOOK_URL := slack_url;
     env_WEBHOOK_URL := webhook_url;
     date_now := λ _, noon;
     date_toString := λ _, "Mon Jan 15 2024 12:00:00 GMT+0000";
     date_toLocaleString := λ _, "1/15/2024, 12:00:00 PM";
     openai_create := λ n _, reply n;
     axios_post := λ _ _ _ _, http;
     simpleParser := λ _ _, parse;
     es_index := λ _ _, Fulfilled tt;
     es_update := λ _ _ _, Fulfilled tt;
     imap_session := λ _ _ _, session;
     imap_openBox := λ _ _, Fulfilled tt;
     imap_search := λ _ _ _, found;
     imap_fetch := λ _ _ _, fetched;
     imap_end := λ _ _, None |}.

Definition says (content : string) : settled chat_response :=
  Fulfilled {| choices := [Some content] |}.

Definition no_mail : settled parsed_mail := Fulfilled blank.

(** A world whose provider pads its answer with a line break. *)
Definition padding_world : Externals :=
  sample_world (Some "sk-test") None None None None
    (λ _, says ("Spam" +:+ nl)) (Fulfilled 200) no_mail [] (Fulfilled []) [].

(** A world whose provider is down. *)
Definition outage_world : Externals :=
  sample_world (Some "sk-test") None None None None
    (λ _, Rejected (LibError "ECONNRESET")) (Fulfilled 200) no_mail [] (Fulfilled []) [].

Definition meeting_request : email_data :=
  {| e_id := "a@x.com_7"; e_uid := Some 7%N; e_email := "a@x.com";
     e_from := "lead@y.com"; e_to := "a@x.com"; e_subject := "Meeting Request";
     e_date := noon; e_text := "Could we schedule a meeting next week?";
     e_html := ""; e_attachments := []; e_folder := "INBOX"; e_flags := [];
     e_size := 512%N; e_messageId := "<1@y.com>"; e_inReplyTo := "";
     e_references := RefOne ""; e_createdAt := noon; e_updatedAt := noon;
     e_category := None |}.

(** A chat sink and a webhook sink that are configured, and a peer that
    answers 200. *)
Definition configured_slack : SlackService :=
  {| slack_webhookUrl := Some "https://hooks.slack.example/T0/B0" |}.
Definition configured_webhook : WebhookService :=
  {| webhookUrl := Some "https://webhook.example/hook" |}.
Definition unconfigured_slack : SlackService := {| slack_webhookUrl := None |}.
Definition unconfigured_webhook : WebhookService := {| webhookUrl := None |}.

Definition interested_world : Externals :=
  sample_world (Some "sk-test") None None None None
    (λ _, says "Interested") (Fulfilled 200) no_mail [] (Fulfilled []) [].

(** A message that is one header line, with the uid 7, and a world in
    which the parser finds its subject and the classifier finds the
    message [Interested]. *)
Definition lead_mail : imap_message :=
  {| m_chunks := ["Subject: hi"];
     m_attributes := Some {| a_uid := Some 7%N; a_flags := None; a_size := None |} |}.

Definition subject_only : parsed_mail :=
  {| p_from := None; p_to := None; p_subject := Some "hi"; p_date := None;
     p_text := None; p_html := None; p_attachments := None;
     p_messageId := None; p_inReplyTo := None; p_references := None |}.

Definition lead_world : Externals :=
  sample_world (Some "sk-test") None None None None
    (λ _, says "Interested") (Fulfilled 200) (Fulfilled subject_only)
    [] (Fulfilled []) [].

(** A world whose provider answers the first call and fails the second. *)
Definition flaky_world : Externals :=
  sample_world (Some "sk-test") None None None None
    (λ n, if bool_decide (n = 0%nat) then says "Meeting Booked"
          else Rejected (LibError "rate_limit_exceeded"))
    (Fulfilled 200) no_mail [] (Fulfilled []) [].

Definition follow_up : email_data :=
  {| e_id := "a@x.com_8"; e_uid := Some 8%N; e_email := "a@x.com";
     e_from := "lead@y.com"; e_to := "a@x.com"; e_subject := "Re: Meeting Request";
     e_date := noon; e_text := "Tuesday works for me.";
     e_html := ""; e_attachments := []; e_folder := "INBOX"; e_flags := [];
     e_size := 256%N; e_messageId := "<2@y.com>"; e_inReplyTo := "<1@y.com>";
     e_references := RefMany ["<1@y.com>"]; e_createdAt := noon; e_updatedAt := noon;
     e_category := None |}.

(** A payload that is not a mail, and a world whose parser makes
    nothing of it: [simpleParser] fulfils, with every field missing.
    The account has two such messages. *)
Definition garbled : imap_message :=
  {| m_chunks := ["%PDF-1.4 (not a mail)"]; m_attributes := None |}.


(** An account with nothing to fetch, and the state in which its
    connection is registered. *)
Definition empty_inbox_world : Externals :=
  sample_world (Some "sk-test") (Some "a@x.com") (Some "secret") None None
    (λ _, says "Spam") (Fulfilled 200) no_mail [ConnReady] (Fulfilled []) [].

Definition registered : state :=
  with_connections (insert "a@x.com" 0%nat) initial_state.

(** An account whose connection has not become ready while
    [initializeConnection] waits, and the state in which that
    connection has been made: [start] is pending, nothing is
    registered. *)
Definition connecting_world : Externals :=
  sample_world (Some "sk-test") (Some "a@x.com") (Some "secret") None None
    (λ _, says "Spam") (Fulfilled 200) no_mail [] (Fulfilled []) [].

Definition connecting : state :=
  (start connecting_world unconfigured_slack unconfigured_webhook initial_state).2.

(** Two accounts; the mail server accepts the connection and then
    refuses the search. *)
Definition refused_search_world : Externals :=
  sample_world (Some "sk-test") (Some "a@x.com, b@x.com") (Some "p1,p2") None None
    (λ _, says "Spam") (Fulfilled 200) no_mail [ConnReady]
    (Rejected (LibError "search refused")) [].
(** ** The fetch of a sync *)

(** A fetch event other than ['error']. *)
Definition not_fetch_error (ev : fetch_event) : Prop :=
  match ev with FetchError _ => False | _ => True end.

(** The number of ['message'] events among fetch events. *)
Fixpoint fetched_messages (events : list fetch_event) : nat :=
  match events with
  | [] => 0
  | FetchMessage _ _ :: events' => S (fetched_messages events')
  | _ :: events' => fetched_messages events'
  end.

(** The search finds two messages; the fetch delivers one and ends. *)
Definition short_fetch_world : Externals :=
  sample_world (Some "sk-test") (Some "a@x.com") (Some "secret") None None
    (λ _, says "Spam") (Fulfilled 200) no_mail [ConnReady]
    (Fulfilled [1%N; 2%N]) [FetchMessage garbled 1%N; FetchEnd].

(** ** The sinks *)

(** The [data] object [buildWebhookPayload] makes of a Message. *)
Definition webhook_data_of (emailData : email_data) : webhook_data :=
  {| wd_id := e_id emailData; wd_uid := e_uid emailData;
     wd_email := e_email emailData; wd_from := e_from emailData;
     wd_to := e_to emailData; wd_subject := e_subject emailData;
     wd_date := e_date emailData; wd_text := e_text emailData;
     wd_html := e_html emailData; wd_folder := e_folder emailData;
     wd_category := e_category emailData;
     wd_messageId := e_messageId emailData;
     wd_inReplyTo := e_inReplyTo emailData;
     wd_references := e_references emailData;
     wd_attachments := e_attachments emailData;
     wd_size := e_size emailData; wd_flags := e_flags emailData |}.

(** A peer that answers every request with the same status. *)
Definition answers_with (X : Externals) (status : Z) : Prop :=
  ∀ n url body config, axios_post X n url body config = Fulfilled status.

(** A world whose HTTP peers answer 204 No Content. *)
Definition no_content_world : Externals :=
  sample_world (Some "sk-test") None None None None
    (λ _, says "Interested") (Fulfilled 204) no_mail [] (Fulfilled []) [].

(** ** Message ids *)

(** [c] occurs in [s]. *)
Fixpoint has_char (c : ascii) (s : string) : bool :=
  match s with
  | EmptyString => false
  | String c' s' => Ascii.eqb c' c || has_char c s'
  end.

(** A Message that differs from [meeting_request] past the first
    thousand characters of its text, and in the fields the prompt does
    not quote. *)
Definition long_text (tail : string) : string :=
  String.concat "" (replicate 100 "0123456789") +:+ tail.

Definition long_mail (id tail html : string) : email_data :=
  {| e_id := id; e_uid := Some 7%N; e_email := "a@x.com";
     e_from := "lead@y.com"; e_to := "a@x.com"; e_subject := "Meeting Request";
     e_date := noon; e_text := long_text tail;
     e_html := html; e_attachments := []; e_folder := "INBOX"; e_flags := [];
     e_size := 512%N; e_messageId := "<1@y.com>"; e_inReplyTo := "";
     e_references := RefOne ""; e_createdAt := noon; e_updatedAt := noon;
     e_category := None |}.





(** * vectorDatabaseService.js: the fallback embedding *)

(** ToInt32: the signed 32-bit integer a number is taken for by the
    bit operators. *)
Definition to_int32 (z : Z) : Z := (z + 2 ^ 31) mod 2 ^ 32 - 2 ^ 31.

(** [x << n] and [x & y] *)
Definition shift_left (x n : Z) : Z := to_int32 (Z.shiftl (to_int32 x) (n mod 32)).
Definition bit_and (x y : Z) : Z := Z.land (to_int32 x) (to_int32 y).

(** [str.charCodeAt(i)] *)
Definition charCode (c : ascii) : Z := Z.of_N (N_of_ascii c).

(** The loop of [simpleHash], from the value [hash] on. *)
Fixpoint simpleHash_loop (hash : Z) (str : string) : Z :=
  match str with
  | EmptyString => hash
  | String c str' =>
      let char := charCode c in
      let hash := (shift_left hash 5 - hash) + char in
      let hash := bit_and hash hash in      (* Convert to 32-bit integer *)
      simpleHash_loop hash str'
  end.

Definition simpleHash (str : string) : Z := Z.abs (simpleHash_loop 0 str).

(** [String.prototype.toLowerCase] on code units below 256: the letters
    A-Z and the Latin-1 capitals (all of C0-DE but the multiplication
    sign D7) move up by 32. *)
Definition toLowerCase_unit (c : ascii) : ascii :=
  let n := N_of_ascii c in
  if ((65 <=? n) && (n <=? 90) || (192 <=? n) && (n <=? 222) && negb (n =? 215))%N
  then ascii_of_N (n + 32) else c.

Fixpoint toLowerCase (s : string) : string :=
  match s with
  | EmptyString => EmptyString
  | String c s' => String (toLowerCase_unit c) (toLowerCase s')
  end.

(** [s.split(/\s+/)]: [s] is cut at every maximal run of white space;
    [cur] is the piece being read, reversed, and [in_space] tells that
    the last code unit read was white space. *)
Fixpoint split_whitespace_go (in_space : bool) (cur : string) (s : string) : list string :=
  match s with
  | EmptyString => [String.rev cur]
  | String c s' =>
      if is_js_whitespace c then
        if in_space then split_whitespace_go true cur s'
        else String.rev cur :: split_whitespace_go true EmptyString s'
      else split_whitespace_go false (String c cur) s'
  end.

Definition split_whitespace (s : string) : list string :=
  split_whitespace_go false EmptyString s.

(** The number [numerator / Math.sqrt(under_root)], kept as its two
    integers. *)
Record scaled : Type := mkScaled {
  numerator : Z;
  under_root : Z
}.

(** The slot of a word in the embedding: [hash % 1536]. *)
Definition word_index (word : string) : Z := Z.rem (simpleHash word) 1536.

(** The array [embedding] of [generateSimpleEmbedding] once the words
    have been counted.  ([alter] leaves the array alone for an index
    past its end; [word_index] never is.) *)
Definition word_counts (words : list string) : list Z :=
  foldl (λ embedding word,
           alter (λ count, count + 1) (Z.to_nat (word_index word)) embedding)
        (replicate 1536 0) words.

Definition generateSimpleEmbedding (text : string) : list scaled :=
  (* Simple hash-based embedding for fallback *)
  let words := split_whitespace (toLowerCase text) in
  let embedding := word_counts words in
  (* Normalize *)
  let sum := foldl (λ sum val, sum + val * val) 0 embedding in
  (λ val, {| numerator := val; under_root := sum |}) <$> embedding.

(** The value of the polynomial with the code units of [str] as
    coefficients, at 31, after the leading value [acc]. *)
Fixpoint polynomial_31 (acc : Z) (str : string) : Z :=
  match str with
  | EmptyString => acc
  | String c str' => polynomial_31 (31 * acc + charCode c) str'
  end.

(** The sum of a list of integers. *)
Definition total (l : list Z) : Z := foldr Z.add 0 l.

(** * Values exchanged with the HTTP peers and the search index

    Objects keep the order of their keys.  Numbers are integers; an
    array of the numbers of the fallback embedding is kept as such. *)

#[warnings="-register-all"]
Inductive json : Type :=
| JUndefined
| JNull
| JBool (b : bool)
| JNum (n : Z)
| JStr (s : string)
| JDate (t : Z)                             (* a [Date] object *)
| JScaled (xs : list scaled)                (* an array of numbers [x / Math.sqrt(y)] *)
| JArr (items : list json)
| JObj (fields : list (string * json)).

(** ToBoolean *)
Definition truthy (v : json) : bool :=
  match v with
  | JUndefined | JNull => false
  | JBool b => b
  | JNum n => negb (n =? 0)
  | JStr s => negb (bool_decide (s = ""))
  | JDate _ | JScaled _ | JArr _ | JObj _ => true
  end.

(** [a || b] *)
Definition js_or (a b : json) : json := if truthy a then a else b.

(** The value of an optional string, number, boolean or date. *)
Definition of_string (o : option string) : json := from_option JStr JUndefined o.
Definition of_number (o : option Z) : json := from_option JNum JUndefined o.
Definition of_date (o : option Z) : json := from_option JDate JUndefined o.
Definition of_strings (l : list string) : json := JArr (JStr <$> l).

(** [o.key], on the fields of an object. *)
Fixpoint field (key : string) (fields : list (string * json)) : json :=
  match fields with
  | [] => JUndefined
  | (k, v) :: fields' => if Strings.String.eqb k key then v else field key fields'
  end.

(** [o.key = v]: an existing key keeps its place. *)
Fixpoint set_field (key : string) (v : json) (fields : list (string * json))
  : list (string * json) :=
  match fields with
  | [] => [(key, v)]
  | (k, x) :: fields' =>
      if Strings.String.eqb k key then (k, v) :: fields'
      else (k, x) :: set_field key v fields'
  end.

(** [{ ...a, ...b }] *)
Definition spread (a b : list (string * json)) : list (string * json) :=
  foldl (λ o kv, set_field kv.1 kv.2 o) a b.

(** [v.key] for a value that is an object; [undefined] otherwise. *)
Definition member (key : string) (v : json) : json :=
  match v with
  | JObj fields => field key fields
  | _ => JUndefined
  end.

(** * elasticsearchService.js: the body of a search *)

(** The [filters] argument of [searchEmails], by its properties
    ([undefined] for a missing one). *)
Record search_filters : Type := mkSearchFilters {
  f_email : json;
  f_folder : json;
  f_category : json;
  f_dateFrom : json;
  f_dateTo : json;
  f_from : json;
  f_size : json;
  f_sortBy : json;
  f_sortOrder : json
}.

(** [bool.filter = bool.filter || []; bool.filter.push(clause)] *)
Definition push_filter (clause : json) (filter : option (list json)) : option (list json) :=
  Some (default [] filter ++ [clause]).

Definition multi_match_clause (query : json) : json :=
  JObj [("multi_match",
         JObj [("query", query);
               ("fields", of_strings ["subject^3"; "from^2"; "to^2"; "text"]);
               ("type", JStr "best_fields");
               ("fuzziness", JStr "AUTO")])].

Definition match_all_clause : json := JObj [("match_all", JObj [])].

Definition term_clause (name : string) (v : json) : json :=
  JObj [("term", JObj [(name, v)])].

(** [searchBody] as [searchEmails] hands it to the client. *)
Definition searchBody (query : json) (filters : search_filters) : json :=
  (* Add text search *)
  let must := if truthy query then [multi_match_clause query] else [match_all_clause] in
  (* Add filters *)
  let filter : option (list json) := None in
  let filter :=
    if truthy (f_email filters) then push_filter (term_clause "email" (f_email filters)) filter
    else filter in
  let filter :=
    if truthy (f_folder filters) then push_filter (term_clause "folder" (f_folder filters)) filter
    else filter in
  let filter :=
    if truthy (f_category filters)
    then push_filter (term_clause "category" (f_category filters)) filter
    else filter in
  let filter :=
    if truthy (f_dateFrom filters) || truthy (f_dateTo filters) then
      let dateRange := [] in
      let dateRange :=
        if truthy (f_dateFrom filters) then set_field "gte" (f_dateFrom filters) dateRange
        else dateRange in
      let dateRange :=
        if truthy (f_dateTo filters) then set_field "lte" (f_dateTo filters) dateRange
        else dateRange in
      push_filter (JObj [("range", JObj [("date", JObj dateRange)])]) filter
    else filter in
  JObj [("query",
         JObj [("bool",
                JObj (("must", JArr must)
                      :: from_option (λ clauses, [("filter", JArr clauses)]) [] filter))]);
        ("sort", JArr [JObj [("date", JObj [("order", JStr "desc")])]]);
        ("size", js_or (f_size filters) (JNum 50));
        ("from", js_or (f_from filters) (JNum 0))].

(** The criteria of a search that restrict the hits. *)
Definition criteria (filters : search_filters) : list json :=
  [f_email filters; f_folder filters; f_category filters;
   js_or (f_dateFrom filters) (f_dateTo filters)].

(** The clauses under [query.bool.name] of a search body; [None] when
    the key is missing. *)
Definition bool_clauses (name : string) (body : json) : option (list json) :=
  match member name (member "bool" (member "query" body)) with
  | JArr clauses => Some clauses
  | _ => None
  end.

(** The same filters with another sort order asked for. *)
Definition sorted_by (sortBy sortOrder : json) (filters : search_filters) : search_filters :=
  {| f_email := f_email filters; f_folder := f_folder filters;
     f_category := f_category filters; f_dateFrom := f_dateFrom filters;
     f_dateTo := f_dateTo filters; f_from := f_from filters; f_size := f_size filters;
     f_sortBy := sortBy; f_sortOrder := sortOrder |}.

(** * searchRoutes.js: the advanced search query *)

(** The validated body of an advanced search; a missing property is
    [None]. *)
Record advanced_filters : Type := mkAdvancedFilters {
  af_from : option string;
  af_to : option string;
  af_subject : option string;
  af_hasAttachments : option bool;
  af_flags : option (list string);
  af_sizeMin : option Z;
  af_sizeMax : option Z
}.

Record date_range : Type := mkDateRange {
  dr_from : option Z;
  dr_to : option Z
}.

Record pagination : Type := mkPagination {
  pg_page : option Z;
  pg_size : option Z
}.

Record sorting : Type := mkSorting {
  so_field : option string;
  so_order : option string
}.

Record search_params : Type := mkSearchParams {
  sp_query : option string;
  sp_filters : option advanced_filters;
  sp_dateRange : option date_range;
  sp_accounts : option (list string);
  sp_folders : option (list string);
  sp_categories : option (list string);
  sp_pagination : option pagination;
  sp_sorting : option sorting
}.

(** [n || d] for a number that may be missing. *)
Definition number_or (o : option Z) (d : Z) : Z :=
  match o with
  | Some n => if n =? 0 then d else n
  | None => d
  end.

(** [`*${s}*`] *)
Definition wildcard_clause (name s : string) : json :=
  JObj [("wildcard", JObj [(name, JStr ("*" +:+ s +:+ "*"))])].

Definition terms_clause (name : string) (values : list string) : json :=
  JObj [("terms", JObj [(name, of_strings values)])].

Definition exists_clause : json := JObj [("exists", JObj [("field", JStr "attachments")])].

(** [list && list.length > 0] *)
Definition non_empty (o : option (list string)) : bool :=
  match o with
  | Some (_ :: _) => true
  | _ => false
  end.

(** The clauses pushed for [searchParams.filters]. *)
Definition field_filters (filters : advanced_filters) : list json :=
  let filter := [] in
  let filter :=
    if falsy (af_from filters) then filter
    else filter ++ [wildcard_clause "from" (default "" (af_from filters))] in
  let filter :=
    if falsy (af_to filters) then filter
    else filter ++ [wildcard_clause "to" (default "" (af_to filters))] in
  let filter :=
    if falsy (af_subject filters) then filter
    else filter ++ [wildcard_clause "subject" (default "" (af_subject filters))] in
  let filter :=
    match af_hasAttachments filters with
    | Some true => filter ++ [exists_clause]
    | Some false => filter ++ [JObj [("bool", JObj [("must_not", exists_clause)])]]
    | None => filter
    end in
  let filter :=
    if non_empty (af_flags filters)
    then filter ++ [terms_clause "flags" (default [] (af_flags filters))]
    else filter in
  let filter :=
    if bool_decide (af_sizeMin filters ≠ None) || bool_decide (af_sizeMax filters ≠ None) then
      let sizeRange := [] in
      let sizeRange :=
        from_option (λ n, set_field "gte" (JNum n) sizeRange) sizeRange (af_sizeMin filters) in
      let sizeRange :=
        from_option (λ n, set_field "lte" (JNum n) sizeRange) sizeRange (af_sizeMax filters) in
      filter ++ [JObj [("range", JObj [("size", JObj sizeRange)])]]
    else filter in
  filter.

Definition buildAdvancedSearchQuery (searchParams : search_params) : json :=
  (* Text search *)
  let must :=
    if falsy (sp_query searchParams) then [match_all_clause]
    else [multi_match_clause (of_string (sp_query searchParams))] in
  (* Field filters *)
  let filter := from_option field_filters [] (sp_filters searchParams) in
  (* Date range *)
  let filter :=
    match sp_dateRange searchParams with
    | Some range =>
        let dateRange := [] in
        let dateRange :=
          from_option (λ t, set_field "gte" (JDate t) dateRange) dateRange (dr_from range) in
        let dateRange :=
          from_option (λ t, set_field "lte" (JDate t) dateRange) dateRange (dr_to range) in
        filter ++ [JObj [("range", JObj [("date", JObj dateRange)])]]
    | None => filter
    end in
  (* Account filters *)
  let filter :=
    if non_empty (sp_accounts searchParams)
    then filter ++ [terms_clause "email" (default [] (sp_accounts searchParams))]
    else filter in
  (* Folder filters *)
  let filter :=
    if non_empty (sp_folders searchParams)
    then filter ++ [terms_clause "folder" (default [] (sp_folders searchParams))]
    else filter in
  (* Category filters *)
  let filter :=
    if non_empty (sp_categories searchParams)
    then filter ++ [terms_clause "category" (default [] (sp_categories searchParams))]
    else filter in
  let sort_field := or_default (sp_sorting searchParams ≫= so_field) "date" in
  let sort_order := or_default (sp_sorting searchParams ≫= so_order) "desc" in
  let size := number_or (sp_pagination searchParams ≫= pg_size) 20 in
  let page := number_or (sp_pagination searchParams ≫= pg_page) 1 in
  JObj [("query", JObj [("bool", JObj [("must", JArr must); ("filter", JArr filter)])]);
        ("sort", JArr [JObj [(sort_field, JObj [("order", JStr sort_order)])]]);
        ("size", JNum size);
        ("from", JNum ((page - 1) * size))].



(** The window of hits a search body asks for: its offset and its size. *)
Definition window (body : json) : json * json := (member "from" body, member "size" body).

(** * The services behind the HTTP API

    The vector database, the search index, the request handlers and the
    application are computations in the monad [W].  Besides the state of
    the mail services ([mail], which also holds the counter of the
    oracles) a [world] holds the interactions of these services with
    their peers ([made]) and the two flags they keep. *)

Record http_response : Type := mkHttpResponse {
  r_status : Z;
  r_data : json
}.

(** What [fetch] resolves to: [ok], [status] and what [json()] gives. *)
Record fetch_response : Type := mkFetchResponse {
  fr_ok : bool;
  fr_status : Z;
  fr_json : settled json
}.

(** What [schema.validate(input)] gives: [error.details[0].message], or
    the value. *)
Inductive validation (A : Type) : Type :=
| Invalid (message : string)
| Valid (value : A).
Arguments Invalid {A} message.
Arguments Valid {A} value.

Inductive call : Type :=
| Logged (level : log_level) (msg : string) (detail : option js_error)
| ConsoleError (msg : string) (error : js_error)
| HttpGet (url : string)
| HttpPut (url : string) (body : json)
| HttpPost (url : string) (body : json) (config : option axios_config)
| FetchPost (url : string) (headers : list (string * string)) (body : json)
| ClientCall (api : string) (params : json)    (* [this.client.api(params)] *)
| ResStatus (code : Z)                       (* [res.status(code)] *)
| ResJson (body : json)                      (* [.json(body)] *)
| ServerListen (port : string)
| ServerClose
| ProcessExit (code : Z).

Record Backends : Type := mkBackends {
  (* process.env *)
  env_QDRANT_URL : option string;
  env_QDRANT_COLLECTION : option string;
  env_ELASTICSEARCH_INDEX : option string;
  env_PORT : option string;
  (* Date, Math, String *)
  date_toISOString : Z → string;
  random_suffix : nat → string;          (* [Math.random().toString(36).substr(2, 9)] *)
  to_String : json → string;             (* ToString of a value that is not a string *)
  own_entries : json → list (string * json);   (* the indexed properties of a string or an array *)
  ceil_quotient : json → Z → json;       (* [Math.ceil(a / b)] where [a] is no integer or [b] is 0 *)
  (* axios, fetch *)
  axios_request : nat → call → settled http_response;
  fetch_request : nat → string → list (string * string) → json → settled fetch_response;
  (* the Elasticsearch client: what a call resolves to, and what
     [error.meta?.statusCode] reads on an error of a library *)
  client_request : nat → call → settled json;
  lib_statusCode : string → option Z
}.

Record world : Type := mkWorld {
  mail : state;
  made : list call;
  qdrant_isInitialized : bool;       (* [QdrantService.isInitialized] *)
  es_isConnected : bool              (* [ElasticsearchService.isConnected] *)
}.

Definition initial_world : world :=
  {| mail := initial_state; made := []; qdrant_isInitialized := false;
     es_isConnected := false |}.

Definition with_mail (f : state → state) (w : world) : world :=
  {| mail := f (mail w); made := made w;
     qdrant_isInitialized := qdrant_isInitialized w; es_isConnected := es_isConnected w |}.

Definition with_made (f : list call → list call) (w : world) : world :=
  {| mail := mail w; made := f (made w);
     qdrant_isInitialized := qdrant_isInitialized w; es_isConnected := es_isConnected w |}.

Definition with_qdrant_isInitialized (b : bool) (w : world) : world :=
  {| mail := mail w; made := made w;
     qdrant_isInitialized := b; es_isConnected := es_isConnected w |}.

Definition with_es_isConnected (b : bool) (w : world) : world :=
  {| mail := mail w; made := made w;
     qdrant_isInitialized := qdrant_isInitialized w; es_isConnected := b |}.

Definition W (A : Type) : Type := world → outcome A * world.

Definition w_ret {A} (a : A) : W A := λ w, (Returned a, w).

Definition w_bind {A B} (m : W A) (k : A → W B) : W B := λ w,
  match m w with
  | (Returned a, w') => k a w'
  | (Thrown e, w') => (Thrown e, w')
  | (Pending, w') => (Pending, w')
  end.

#[global] Instance W_ret : MRet W := @w_ret.
#[global] Instance W_bind : MBind W := λ A B k m, w_bind m k.

Definition w_throw {A} (e : js_error) : W A := λ w, (Thrown e, w).

(** [try { body } catch (error) { handler }] *)
Definition w_try {A} (body : W A) (handler : js_error → W A) : W A := λ w,
  match body w with
  | (Thrown e, w') => handler e w'
  | r => r
  end.

(** A method of the mail services, run on the [mail] part. *)
Definition lift {A} (m : M A) : W A := λ w,
  ((m (mail w)).1, with_mail (λ _, (m (mail w)).2) w).

Definition w_get {A} (f : world → A) : W A := λ w, (Returned (f w), w).
Definition w_modify (f : world → world) : W unit := λ w, (Returned tt, f w).

Definition w_tell (c : call) : W unit := w_modify (with_made (λ t, t ++ [c])).

Definition w_log (level : log_level) (msg : string) : W unit :=
  w_tell (Logged level msg None).
Definition w_log_error (msg : string) (error : js_error) : W unit :=
  w_tell (Logged LogError msg (Some error)).

Definition w_consult {A} (oracle : nat → A) : W A := lift (consult oracle).

(** [await p] for a promise of a library. *)
Definition w_await {A} (p : W (settled A)) : W A :=
  r ← p;
  match r with
  | Fulfilled a => mret a
  | Rejected e => w_throw e
  end.

(** [for (const x of xs) { body }], with the variables the body updates
    threaded as [acc]. *)
Fixpoint w_fold {A B} (xs : list A) (acc : B) (body : B → A → W B) : W B :=
  match xs with
  | [] => mret acc
  | x :: xs' => acc' ← body acc x; w_fold xs' acc' body
  end.

(** [v.key]: a TypeError for [undefined] and [null]. *)
Definition w_member (key : string) (v : json) : W json :=
  match v with
  | JUndefined =>
      w_throw (JsTypeError ("Cannot read properties of undefined (reading '"
                            +:+ key +:+ "')"))
  | JNull =>
      w_throw (JsTypeError ("Cannot read properties of null (reading '"
                            +:+ key +:+ "')"))
  | _ => mret (member key v)
  end.

(** [v[0]] *)
Definition w_first (v : json) : W json :=
  match v with
  | JArr items => mret (default JUndefined (head items))
  | JStr (String c _) => mret (JStr (String c EmptyString))
  | _ => w_member "0" v
  end.

(** [v.map(f)]: a TypeError unless [v] is an array. *)
Fixpoint w_map_items (f : json → W json) (items : list json) : W (list json) :=
  match items with
  | [] => mret []
  | item :: items' =>
      y ← f item;
      ys ← w_map_items f items';
      mret (y :: ys)
  end.

Definition w_map (f : json → W json) (v : json) : W (list json) :=
  match v with
  | JArr items => w_map_items f items
  | JUndefined | JNull => _ ← w_member "map" v; mret []
  | _ => w_throw (JsTypeError "map is not a function")
  end.

(** [`${v}`] for a variable of the environment. *)
Definition template_env (o : option string) : string := default "undefined" o.

(** [await axios.get(url)] and the like. *)
Section Peers.

Variable X : Externals.
Variable B : Backends.

Definition axios_call (c : call) : W http_response :=
  w_tell c;;
  w_await (w_consult (λ n, axios_request B n c)).

(** [await this.client.search(...)] and the like. *)
Definition client_call (c : call) : W json :=
  w_tell c;;
  w_await (w_consult (λ n, client_request B n c)).

(** [error.meta?.statusCode]: an error the language or the program
    raises has no [meta]. *)
Definition meta_statusCode (error : js_error) : option Z :=
  match error with
  | LibError code => lib_statusCode B code
  | _ => None
  end.

(** * qdrantService.js *)

Record QdrantService : Type := mkQdrantService {
  baseUrl : string;
  collectionName : string
}.

Definition collection_url (this : QdrantService) : string :=
  baseUrl this +:+ "/collections/" +:+ collectionName this.

Definition qdrant_ping (this : QdrantService) : W bool :=
  w_try
    (response ← axios_call (HttpGet (baseUrl this +:+ "/"));
     mret (bool_decide (r_status response = 200)))
    (λ error,
       w_log_error "Qdrant ping failed:" error;;
       w_throw error).

Definition collection_config : json :=
  JObj [("vectors", JObj [("size", JNum 1536) (* OpenAI embedding dimension *);
                          ("distance", JStr "Cosine")]);
        ("optimizers_config", JObj [("default_segment_number", JNum 2)]);
        ("replication_factor", JNum 1)].

Definition qdrant_createCollection (this : QdrantService) : W bool :=
  exists_already ←
    w_try
      ((* Check if collection exists *)
       existsResponse ← axios_call (HttpGet (collection_url this));
       if bool_decide (r_status existsResponse = 200) then
         (w_log LogInfo ("Collection " +:+ collectionName this +:+ " already exists");;
          mret true)
       else mret false)
      (λ error, (* Collection doesn't exist, create it *) mret false);
  if (exists_already : bool) then mret true
  else
    w_try
      (axios_call (HttpPut (collection_url this) collection_config);;
       w_log LogInfo ("Created collection: " +:+ collectionName this);;
       mret true)
      (λ error,
         w_log_error "Error creating collection:" error;;
         w_throw error).

Definition qdrant_initialize (this : QdrantService) : W bool :=
  w_try
    ((* Test connection *)
     qdrant_ping this;;
     (* Create collection if it doesn't exist *)
     qdrant_createCollection this;;
     w_modify (with_qdrant_isInitialized true);;
     w_log LogInfo "Qdrant service initialized successfully";;
     mret true)
    (λ error,
       w_log_error "Failed to initialize Qdrant service:" error;;
       mret false).

Definition not_initialized : js_error := JsError "Qdrant service not initialized".

(** [new Date().toISOString()] *)
Definition now_ISOString : W string :=
  t ← lift (new_Date X);
  mret (date_toISOString B t).

Definition qdrant_storeVector (this : QdrantService) (id : string) (vector : json)
    (payload : list (string * json)) : W bool :=
  w_try
    (ready ← w_get qdrant_isInitialized;
     if negb ready then w_throw not_initialized
     else
       (createdAt ← now_ISOString;
        let point :=
          JObj [("id", JStr id); ("vector", vector);
                ("payload", JObj (spread payload [("createdAt", JStr createdAt)]))] in
        axios_call (HttpPut (collection_url this +:+ "/points")
                      (JObj [("points", JArr [point])]));;
        w_log LogDebug ("Stored vector: " +:+ id);;
        mret true))
    (λ error,
       w_log_error "Error storing vector:" error;;
       w_throw error).

Definition qdrant_searchSimilar (this : QdrantService) (queryVector : json) (topK : Z)
    (filter : json) : W (list json) :=
  w_try
    (ready ← w_get qdrant_isInitialized;
     if negb ready then w_throw not_initialized
     else
       (let searchPayload :=
          [("vector", queryVector); ("limit", JNum topK);
           ("with_payload", JBool true); ("with_vector", JBool false)] in
        let searchPayload :=
          if truthy filter then set_field "filter" filter searchPayload
          else searchPayload in
        response ← axios_call (HttpPost (collection_url this +:+ "/points/search")
                                 (JObj searchPayload) None);
        result ← w_member "result" (r_data response);
        w_map (λ point,
                 id ← w_member "id" point;
                 score ← w_member "score" point;
                 payload ← w_member "payload" point;
                 mret (JObj [("id", id); ("score", score); ("payload", payload)]))
              result))
    (λ error,
       w_log_error "Error searching similar vectors:" error;;
       w_throw error).

Definition qdrant_deleteVector (this : QdrantService) (id : string) : W bool :=
  w_try
    (ready ← w_get qdrant_isInitialized;
     if negb ready then w_throw not_initialized
     else
       (axios_call (HttpPost (collection_url this +:+ "/points/delete")
                      (JObj [("points", JArr [JStr id])]) None);;
        w_log LogDebug ("Deleted vector: " +:+ id);;
        mret true))
    (λ error,
       w_log_error "Error deleting vector:" error;;
       w_throw error).

Definition qdrant_getCollectionStats (this : QdrantService) : W json :=
  w_try
    (response ← axios_call (HttpGet (collection_url this +:+ "/points/count"));
     result ← w_member "result" (r_data response);
     count ← w_member "count" result;
     mret (JObj [("points_count", count);
                 ("collection_name", JStr (collectionName this))]))
    (λ error,
       w_log_error "Error getting collection stats:" error;;
       w_throw error).

Definition qdrant_isReady : W bool := w_get qdrant_isInitialized.

(** * vectorDatabaseService.js *)

(** The service owns the Qdrant service [qdrant]. *)
Variable qdrant : QdrantService.

Definition vectorDB_initialize : W bool :=
  w_try
    (qdrant_initialize qdrant)
    (λ error,
       w_log_error "Failed to initialize vector database:" error;;
       mret false).

Definition embeddings_url : string := "https://api.openai.com/v1/embeddings".

Definition generateEmbedding (text : string) : W json :=
  w_try
    ((* For this implementation, we'll use a simple text embedding *)
     let headers :=
       [("Authorization", "Bearer " +:+ template_env (env_OPENAI_API_KEY X));
        ("Content-Type", "application/json")] in
     let body := JObj [("model", JStr "text-embedding-ada-002"); ("input", JStr text)] in
     w_tell (FetchPost embeddings_url headers body);;
     response ← w_await (w_consult (λ n, fetch_request B n embeddings_url headers body));
     if negb (fr_ok response) then
       w_throw (JsError ("OpenAI API error: " +:+ pretty (fr_status response)))
     else
       (data ← w_await (mret (fr_json response));
        items ← w_member "data" data;
        item ← w_first items;
        w_member "embedding" item))
    (λ error,
       w_log_error "Error generating embedding:" error;;
       (* Fallback to a simple hash-based embedding *)
       mret (JScaled (generateSimpleEmbedding text))).

(** The argument [data] of [storeTrainingData]. *)
Record training_data : Type := mkTrainingData {
  td_id : option string;
  td_content : string;
  td_category : option string;
  td_metadata : list (string * json)
}.

(** [Date.now()] in a template. *)
Definition Date_now : W string :=
  t ← lift (new_Date X);
  mret (pretty t).

Definition training_payload (data : training_data) : list (string * json) :=
  spread [("type", JStr "training_data");
          ("content", JStr (td_content data));
          ("category", JStr (or_default (td_category data) "general"))]
         (td_metadata data).

Definition vectorDB_storeTrainingData (data : training_data) : W bool :=
  w_try
    (ready ← qdrant_isReady;
     if negb ready then
       (w_log LogWarn "Vector database not initialized";;
        mret false)
     else
       (vector ← generateEmbedding (td_content data);
        vectorId ←
          (if falsy (td_id data) then
             (now ← Date_now; mret ("training_" +:+ now))
           else mret (default "" (td_id data)));
        let payload := training_payload data in
        qdrant_storeVector qdrant vectorId vector payload;;
        w_log LogInfo ("Stored training data: " +:+ vectorId);;
        mret true))
    (λ error,
       w_log_error "Error storing training data:" error;;
       mret false).

Definition training_data_filter : json :=
  JObj [("must", JArr [JObj [("key", JStr "type");
                             ("match", JObj [("value", JStr "training_data")])]])].

Definition searchSimilarContent (query : string) (topK : Z) : W (list json) :=
  w_try
    (ready ← qdrant_isReady;
     if negb ready then
       (w_log LogWarn "Vector database not initialized";;
        mret [])
     else
       (queryVector ← generateEmbedding query;
        results ← qdrant_searchSimilar qdrant queryVector topK training_data_filter;
        w_map_items
          (λ result,
             id ← w_member "id" result;
             score ← w_member "score" result;
             payload ← w_member "payload" result;
             content ← w_member "content" payload;
             category ← w_member "category" payload;
             mret (JObj [("id", id); ("score", score); ("content", content);
                         ("category", category); ("metadata", payload)]))
          results))
    (λ error,
       w_log_error "Error searching similar content:" error;;
       mret []).

Definition findRelevantTrainingData (emailContent : string) (topK : Z) : W (list json) :=
  w_try
    (similarContent ← searchSimilarContent emailContent topK;
     w_map_items
       (λ item,
          content ← w_member "content" item;
          category ← w_member "category" item;
          score ← w_member "score" item;
          mret (JObj [("content", content); ("category", category);
                      ("relevanceScore", score)]))
       similarContent)
    (λ error,
       w_log_error "Error finding relevant training data:" error;;
       mret []).

Definition vectorDB_deleteTrainingData (id : string) : W bool :=
  w_try
    (ready ← qdrant_isReady;
     if negb ready then
       (w_log LogWarn "Vector database not initialized";;
        mret false)
     else
       (qdrant_deleteVector qdrant id;;
        w_log LogInfo ("Deleted training data: " +:+ id);;
        mret true))
    (λ error,
       w_log_error "Error deleting training data:" error;;
       mret false).

Definition getIndexStats : W json :=
  w_try
    (ready ← qdrant_isReady;
     if negb ready then mret JNull
     else qdrant_getCollectionStats qdrant)
    (λ error,
       w_log_error "Error getting index stats:" error;;
       mret JNull).

Definition vectorDB_isInitialized : W bool := qdrant_isReady.

(** * aiCategorizationService.js: replies and training data *)

Definition buildReplyPrompt (emailData : email_data) (trainingData : string) : string :=
  nl +:+ "Original Email:" +:+ nl
  +:+ "From: " +:+ e_from emailData +:+ nl
  +:+ "Subject: " +:+ e_subject emailData +:+ nl
  +:+ "Content: " +:+ e_text emailData +:+ nl
  +:+ nl
  +:+ "Training Data/Context:" +:+ nl
  +:+ trainingData +:+ nl
  +:+ nl
  +:+ "Please generate a professional and helpful reply to this email based on the training data provided. The reply should be:" +:+ nl
  +:+ "- Professional and courteous" +:+ nl
  +:+ "- Relevant to the original email content" +:+ nl
  +:+ "- Include any relevant information from the training data" +:+ nl
  +:+ "- Be concise but complete" +:+ nl
  +:+ "- Include any relevant links or next steps if applicable" +:+ nl
  +:+ nl
  +:+ "Suggested Reply:".

Definition reply_request (prompt : string) : chat_request :=
  {| cr_model := "gpt-3.5-turbo";
     cr_messages :=
       [(RoleSystem, "You are an AI assistant that generates professional email replies based on the original email and training data. Generate a helpful, professional, and contextually appropriate reply. Use the provided context and training data to make the reply relevant and personalized.");
        (RoleUser, prompt)];
     cr_max_tokens := 500;
     cr_temperature := 7 # 10 |}.

(** [items.map(item => item.content).join(sep)] *)
Definition join_contents (sep : string) (contents : list json) : string :=
  String.concat sep
    ((λ content,
        match content with
        | JUndefined | JNull => ""
        | JStr s => s
        | _ => to_String B content
        end) <$> contents).

Definition generateSuggestedReply (emailData : email_data) (trainingData : string)
  : W string :=
  w_try
    (if falsy (env_OPENAI_API_KEY X) then
       (w_log LogWarn "OpenAI API key not configured, cannot generate reply";;
        mret "AI reply generation not available")
     else
       ((* Use RAG to find relevant training data *)
        initialized ← vectorDB_isInitialized;
        relevantContext ←
          (if (initialized : bool) then
             (relevantData ←
                findRelevantTrainingData
                  (e_subject emailData +:+ " " +:+ e_text emailData) 3;
              if bool_decide (0 < length relevantData)%nat then
                (contents ← w_map_items (w_member "content") relevantData;
                 mret (join_contents (nl +:+ nl) contents))
              else mret "")
           else mret "");
        (* Combine provided training data with retrieved context *)
        let combinedTrainingData :=
          trainingData
          +:+ (if bool_decide (relevantContext = "") then ""
               else nl +:+ nl +:+ "Relevant Context:" +:+ nl +:+ relevantContext) in
        let prompt := buildReplyPrompt emailData combinedTrainingData in
        response ← lift (chat_completions_create X (reply_request prompt));
        suggestedReply ← lift (first_content_trimmed response);
        w_log LogInfo ("Generated suggested reply for email: " +:+ e_subject emailData);;
        mret suggestedReply))
    (λ error,
       w_log_error "Error generating suggested reply:" error;;
       mret "Error generating reply. Please try again.").

Definition ai_storeTrainingData (content : string) (category : string)
    (metadata : list (string * json)) : W bool :=
  w_try
    (initialized ← vectorDB_isInitialized;
     if negb initialized then
       (w_log LogWarn "Vector database not initialized, cannot store training data";;
        mret false)
     else
       (now ← Date_now;
        suffix ← w_consult (random_suffix B);
        storedAt ← now_ISOString;
        let trainingData :=
          {| td_id := Some ("training_" +:+ now +:+ "_" +:+ suffix);
             td_content := content;
             td_category := Some category;
             td_metadata := spread metadata [("storedAt", JStr storedAt)] |} in
        success ← vectorDB_storeTrainingData trainingData;
        (if (success : bool)
         then w_log LogInfo ("Stored training data: " +:+ default "" (td_id trainingData))
         else mret tt);;
        mret success))
    (λ error,
       w_log_error "Error storing training data:" error;;
       mret false).

(** The entries of [defaultTrainingData]: content, category, metadata. *)
Definition defaultTrainingData : list (string * string * list (string * json)) :=
  [("I am applying for a job position. If the lead is interested, share the meeting booking link: https://cal.com/example",
    "job_application",
    [("type", JStr "template"); ("priority", JStr "high")]);
   ("Thank you for your interest in our product. I'd be happy to schedule a demo. Please book a time that works for you: https://cal.com/demo",
    "product_demo",
    [("type", JStr "template"); ("priority", JStr "high")]);
   ("I'm available for a technical interview. You can book a slot here: https://cal.com/technical-interview",
    "interview",
    [("type", JStr "template"); ("priority", JStr "high")]);
   ("I would love to discuss this opportunity further. Please let me know when you're available for a call.",
    "follow_up",
    [("type", JStr "template"); ("priority", JStr "medium")]);
   ("Thank you for considering my application. I'm excited about the possibility of joining your team.",
    "gratitude",
    [("type", JStr "template"); ("priority", JStr "medium")])].

Definition initializeDefaultTrainingData : W nat :=
  w_try
    (storedCount ←
       w_fold defaultTrainingData 0%nat (λ storedCount entry,
         success ← ai_storeTrainingData entry.1.1 entry.1.2 entry.2;
         mret (if (success : bool) then S storedCount else storedCount));
     w_log LogInfo ("Initialized " +:+ pretty storedCount
                    +:+ " default training data entries");;
     mret storedCount)
    (λ error,
       w_log_error "Error initializing default training data:" error;;
       mret 0%nat).

(** [initialize] of the service. *)
Definition ai_initialize : W unit :=
  vectorDB_initialize;;
  mret tt.

End Peers.

(** ** Notions used in the statements about the services *)

(** The interactions of a run, read off the worlds before and after. *)
Definition new_calls (w w' : world) : list call :=
  drop (length (made w)) (made w').

(** The requests to the HTTP peers among the interactions. *)
Definition is_request (c : call) : bool :=
  match c with
  | HttpGet _ | HttpPut _ _ | HttpPost _ _ _ | FetchPost _ _ _ => true
  | _ => false
  end.

Definition requests (cs : list call) : list call := filter (λ c, is_request c = true) cs.

(** The oracle counter of a world. *)
Definition asked (w : world) : nat := calls (mail w).

(** A Qdrant service on the default address. *)
Definition local_qdrant : QdrantService :=
  {| baseUrl := "http://localhost:6333"; collectionName := "email-vectors" |}.

(** Backends that answer every HTTP request with status 200 and an
    empty object, and every call of the search index with success. *)
Definition sample_backends (http : nat → call → settled http_response) : Backends :=
  {| env_QDRANT_URL := None; env_QDRANT_COLLECTION := None;
     env_ELASTICSEARCH_INDEX := None; env_PORT := None;
     date_toISOString := λ _, "2024-01-15T12:00:00.000Z";
     random_suffix := λ _, "k3j9x0q1z";
     to_String := λ _, "[object Object]";
     own_entries := λ _, [];
     ceil_quotient := λ _ _, JNull;
     axios_request := http;
     fetch_request := λ _ _ _ _, Rejected (LibError "fetch failed");
     client_request := λ _ _, Fulfilled (JObj []);
     lib_statusCode := λ _, None |}.

Definition ok_response : settled http_response :=
  Fulfilled {| r_status := 200; r_data := JObj [] |}.

(** The collection is missing: the check for it is answered 404. *)
Definition empty_qdrant : Backends :=
  sample_backends (λ n c,
    match c with
    | HttpGet url =>
        if bool_decide (url = "http://localhost:6333/") then ok_response
        else Rejected (LibError "Request failed with status code 404")
    | _ => ok_response
    end).

(** [m] takes every world to one related to it by [R], however it ends. *)
Definition w_steps {A} (R : relation world) (m : W A) : Prop :=
  ∀ w, R w (m w).2.

(** The interactions have grown by calls of kind [P]. *)
Definition made_by (P : call → Prop) : relation world :=
  λ w w', ∃ cs, made w' = made w ++ cs ∧ Forall P cs.

(** [m] only makes calls of kind [P]. *)
Definition w_emits {A} (P : call → Prop) (m : W A) : Prop :=
  w_steps (made_by P) m.

(** [m] always returns a value: it does not throw, and it settles. *)
Definition w_total {A} (m : W A) : Prop :=
  ∀ w, ∃ a, (m w).1 = Returned a.

(** [m] always settles: it returns or throws. *)
Definition w_settles {A} (m : W A) : Prop :=
  ∀ w, (m w).1 ≠ Pending.

(** A method of the mail services that always settles. *)
Definition settles {A} (m : M A) : Prop :=
  ∀ s, (m s).1 ≠ Pending.

(** The warning of a method of the vector database that finds Qdrant
    not initialized. *)
Definition not_ready_warning : call :=
  Logged LogWarn "Vector database not initialized" None.

(** A piece of training data as the request handler passes it on. *)
Definition sample_training_data : training_data :=
  {| td_id := None; td_content := "Share the booking link: https://cal.com/example";
     td_category := None; td_metadata := [] |}.

(** ** Training data in the vector database *)

(** The points of the upserts among the interactions. *)
Definition points_of (c : call) : list json :=
  match c with
  | HttpPut _ body =>
      match member "points" body with
      | JArr points => points
      | _ => []
      end
  | _ => []
  end.

Definition stored_points (cs : list call) : list json := cs ≫= points_of.

(** The filters of the searches among the interactions. *)
Definition search_filter_of (c : call) : list json :=
  match c with
  | HttpPost _ body _ => [member "filter" body]
  | _ => []
  end.

Definition search_filters_sent (cs : list call) : list json := cs ≫= search_filter_of.

(** The value the last entry for [key] among [entries] gives it, [d]
    when there is none. *)
Fixpoint overriding (key : string) (entries : list (string * json)) (d : json) : json :=
  match entries with
  | [] => d
  | (k, v) :: entries' => overriding key entries' (if Strings.String.eqb k key then v else d)
  end.

(** The [type] under which a point is filed: [payload.type]. *)
Definition point_type (point : json) : json := member "type" (member "payload" point).

(** What Qdrant makes of a filter [{ must: [{ key, match: { value } }] }]
    on string values: a point passes when its payload has, under every
    [key], the string [value]. *)
Definition condition_holds (payload : json) (condition : json) : bool :=
  match member "key" condition, member "value" (member "match" condition) with
  | JStr key, JStr value =>
      match member key payload with
      | JStr s => bool_decide (s = value)
      | _ => false
      end
  | _, _ => false
  end.

Definition passes (filter : json) (point : json) : bool :=
  match member "must" filter with
  | JArr conditions => forallb (condition_holds (member "payload" point)) conditions
  | _ => true
  end.

(** Every point of the call [c] is filed under the type the metadata
    give it. *)
Definition stores_as (metadata : list (string * json)) (c : call) : Prop :=
  Forall (λ point, point_type point = overriding "type" metadata (JStr "training_data"))
    (points_of c).

(** Qdrant is up and accepts whatever it is sent. *)
Definition obliging_qdrant : Backends := sample_backends (λ _ _, ok_response).

Definition ready_world : world := with_qdrant_isInitialized true initial_world.

(** The flag of the Qdrant service is as it was. *)
Definition keeps_qdrant_flag : relation world :=
  λ w w', qdrant_isInitialized w' = qdrant_isInitialized w.

(** Qdrant answers every request. *)
Definition qdrant_obliges (B : Backends) : Prop :=
  ∀ n c, ∃ response, axios_request B n c = Fulfilled response.

(** Calls that store nothing: all but the upserts. *)
Definition not_put (c : call) : Prop :=
  match c with HttpPut _ _ => False | _ => True end.

(** The interactions of the mail services are as they were. *)
Definition keeps_trace : relation world :=
  λ w w', trace (mail w') = trace (mail w).

Definition is_object (v : json) : Prop :=
  match v with JObj _ => True | _ => False end.

(** Whatever [m] returns satisfies [Q]. *)
Definition w_returns {A} (Q : A → Prop) (m : W A) : Prop :=
  ∀ w a, (m w).1 = Returned a → Q a.

(** The reply that stands for a failure. *)
Definition apology : string := "Error generating reply. Please try again.".

(** [relevantData.map(item => item.content).join('\n\n')] when
    something was found, the empty string otherwise. *)
Definition relevant_context (B : Backends) (relevantData : list json) : string :=
  if bool_decide (0 < length relevantData)%nat then
    join_contents B (nl +:+ nl) (member "content" <$> relevantData)
  else "".

(** The training data the prompt is built from: what was given,
    followed by what was found when that is not empty. *)
Definition combined_training_data (trainingData relevantContext : string) : string :=
  trainingData
  +:+ (if bool_decide (relevantContext = "") then ""
       else nl +:+ nl +:+ "Relevant Context:" +:+ nl +:+ relevantContext).

(** The reply made of what the provider answered: its first content,
    trimmed; the apology when the request was rejected or the answer has
    no first choice with a content. *)
Definition reply_of (answer : settled chat_response) : string :=
  match answer with
  | Fulfilled response =>
      match choices response with
      | Some content :: _ => trim content
      | _ => apology
      end
  | Rejected _ => apology
  end.

(** * elasticsearchService.js

    The methods of [ElasticsearchService] as the request handlers call
    them: on values, with the answers of the client as they come. *)

(** [v.a.b.c] *)
Fixpoint w_path (keys : list string) (v : json) : W json :=
  match keys with
  | [] => mret v
  | key :: keys' => x ← w_member key v; w_path keys' x
  end.

Section Values.

Variable B : Backends.

(** [`${v}`] *)
Definition template (v : json) : string :=
  match v with
  | JStr s => s
  | JUndefined => "undefined"
  | JNull => "null"
  | JBool true => "true"
  | JBool false => "false"
  | JNum n => pretty n
  | _ => to_String B v
  end.

(** [{ ...v }] *)
Definition own_fields (v : json) : list (string * json) :=
  match v with
  | JObj fields => fields
  | JUndefined | JNull | JBool _ | JNum _ | JDate _ => []
  | _ => own_entries B v
  end.

End Values.

Definition arg (i : nat) (args : list json) : json := default JUndefined (args !! i).

Definition no_result (m : W unit) : W json := m;; mret JUndefined.

Fixpoint find_method {A} (name : string) (methods : list (string * A)) : option A :=
  match methods with
  | [] => None
  | (k, m) :: methods' =>
      if Strings.String.eqb k name then Some m else find_method name methods'
  end.

Definition has_name (name : string) (names : list string) : bool :=
  existsb (Strings.String.eqb name) names.

Module ElasticsearchService.

Section Search_index.

Variable X : Externals.
Variable B : Backends.

Definition indexName : string := or_default (env_ELASTICSEARCH_INDEX B) "emails".

Definition index_settings : json :=
  JObj [("settings",
         JObj [("number_of_shards", JNum 1);
               ("number_of_replicas", JNum 0);
               ("analysis",
                JObj [("analyzer",
                       JObj [("email_analyzer",
                              JObj [("type", JStr "custom");
                                    ("tokenizer", JStr "standard");
                                    ("filter", of_strings ["lowercase"; "stop"; "snowball"])])])])])].

Definition createIndex : W unit :=
  w_try
    (exists_ ← client_call B (ClientCall "indices.exists" (JObj [("index", JStr indexName)]));
     if negb (truthy exists_) then
       (client_call B (ClientCall "indices.create"
                         (JObj [("index", JStr indexName); ("body", index_settings)]));;
        w_log LogInfo ("Created Elasticsearch index: " +:+ indexName))
     else
       w_log LogInfo ("Elasticsearch index already exists: " +:+ indexName))
    (λ error,
       w_log_error "Error creating Elasticsearch index:" error;;
       w_throw error).

Definition keyword : json := JObj [("type", JStr "keyword")].

Definition analyzed_text_with_keyword : json :=
  JObj [("type", JStr "text"); ("analyzer", JStr "email_analyzer");
        ("fields", JObj [("keyword", keyword)])].

Definition mappings : json :=
  JObj [("properties",
         JObj [("id", keyword);
               ("uid", JObj [("type", JStr "long")]);
               ("email", keyword);
               ("from", analyzed_text_with_keyword);
               ("to", analyzed_text_with_keyword);
               ("subject", analyzed_text_with_keyword);
               ("text", JObj [("type", JStr "text"); ("analyzer", JStr "email_analyzer")]);
               ("html", JObj [("type", JStr "text")]);
               ("date", JObj [("type", JStr "date")]);
               ("folder", keyword);
               ("category", keyword);
               ("flags", keyword);
               ("size", JObj [("type", JStr "long")]);
               ("messageId", keyword);
               ("inReplyTo", keyword);
               ("references", keyword);
               ("attachments",
                JObj [("type", JStr "nested");
                      ("properties",
                       JObj [("filename", keyword);
                             ("contentType", keyword);
                             ("size", JObj [("type", JStr "long")])])]);
               ("createdAt", JObj [("type", JStr "date")]);
               ("updatedAt", JObj [("type", JStr "date")])])].

Definition setupMappings : W unit :=
  w_try
    (client_call B (ClientCall "indices.putMapping"
                      (JObj [("index", JStr indexName); ("body", mappings)]));;
     w_log LogInfo "Elasticsearch mappings configured")
    (λ error,
       w_log_error "Error setting up Elasticsearch mappings:" error;;
       w_throw error).

Definition initialize : W unit :=
  w_try
    ((* Test connection *)
     client_call B (ClientCall "ping" JUndefined);;
     w_log LogInfo "Connected to Elasticsearch";;
     w_modify (with_es_isConnected true);;
     (* Create index if it doesn't exist *)
     createIndex;;
     (* Setup mappings *)
     setupMappings)
    (λ error,
       w_log_error "Failed to initialize Elasticsearch:" error;;
       w_throw error).

Definition indexEmail (emailData : json) : W json :=
  w_try
    (id ← w_member "id" emailData;
     response ← client_call B (ClientCall "index"
                                 (JObj [("index", JStr indexName); ("id", id);
                                        ("body", emailData)]));
     id' ← w_member "id" emailData;
     w_log LogDebug ("Indexed email: " +:+ template B id');;
     mret response)
    (λ error,
       w_log_error "Error indexing email:" error;;
       w_throw error).

Definition updateEmailCategory (emailId category : json) : W unit :=
  w_try
    (updatedAt ← lift (new_Date X);
     client_call B (ClientCall "update"
                      (JObj [("index", JStr indexName); ("id", emailId);
                             ("body",
                              JObj [("doc", JObj [("category", category);
                                                  ("updatedAt", JDate updatedAt)])])]));;
     w_log LogDebug ("Updated email category: " +:+ template B emailId
                     +:+ " -> " +:+ template B category))
    (λ error,
       w_log_error "Error updating email category:" error;;
       w_throw error).

(** The properties [searchEmails] reads on its argument [filters]. *)
Definition filters_of (filters : json) : search_filters :=
  {| f_email := member "email" filters; f_folder := member "folder" filters;
     f_category := member "category" filters;
     f_dateFrom := member "dateFrom" filters; f_dateTo := member "dateTo" filters;
     f_from := member "from" filters; f_size := member "size" filters;
     f_sortBy := member "sortBy" filters; f_sortOrder := member "sortOrder" filters |}.

Definition searchEmails (query filters : json) : W json :=
  (* filters = {} *)
  let filters := match filters with JUndefined => JObj [] | _ => filters end in
  w_try
    (w_member "size" filters;;
     response ← client_call B (ClientCall "search"
                                 (JObj [("index", JStr indexName);
                                        ("body", searchBody query (filters_of filters))]));
     hits ← w_path ["body"; "hits"; "hits"] response;
     hits ← w_map (λ hit,
                     source ← w_member "_source" hit;
                     score ← w_member "_score" hit;
                     mret (JObj (set_field "_score" score (own_fields B source))))
                  hits;
     total ← w_path ["body"; "hits"; "total"; "value"] response;
     took ← w_path ["body"; "took"] response;
     mret (JObj [("hits", JArr hits); ("total", total); ("took", took)]))
    (λ error,
       w_log_error "Error searching emails:" error;;
       w_throw error).

Definition getEmailById (emailId : json) : W json :=
  w_try
    (response ← client_call B (ClientCall "get"
                                 (JObj [("index", JStr indexName); ("id", emailId)]));
     w_path ["body"; "_source"] response)
    (λ error,
       if bool_decide (meta_statusCode B error = Some 404) then mret JNull
       else
         (w_log_error "Error getting email by ID:" error;;
          w_throw error)).

Definition getEmailsByAccount (email : json) : W json :=
  w_try
    (response ← client_call B (ClientCall "search"
                  (JObj [("index", JStr indexName);
                         ("body",
                          JObj [("query", JObj [("term", JObj [("email", email)])]);
                                ("sort", JArr [JObj [("date", JObj [("order", JStr "desc")])]]);
                                ("size", JNum 1000)])]));
     hits ← w_path ["body"; "hits"; "hits"] response;
     sources ← w_map (w_member "_source") hits;
     mret (JArr sources))
    (λ error,
       w_log_error "Error getting emails by account:" error;;
       w_throw error).

(** The body of a search for the buckets of the terms of a field. *)
Definition terms_aggregation (name field_name : string) (size : Z) : (string * json) :=
  (name, JObj [("terms", JObj [("field", JStr field_name); ("size", JNum size)])]).

Definition getCategories : W json :=
  w_try
    (response ← client_call B (ClientCall "search"
                  (JObj [("index", JStr indexName);
                         ("body",
                          JObj [("aggs", JObj [terms_aggregation "categories" "category" 10]);
                                ("size", JNum 0)])]));
     buckets ← w_path ["body"; "aggregations"; "categories"; "buckets"] response;
     counts ← w_map (λ bucket,
                       key ← w_member "key" bucket;
                       doc_count ← w_member "doc_count" bucket;
                       mret (JObj [("category", key); ("count", doc_count)]))
                    buckets;
     mret (JArr counts))
    (λ error,
       w_log_error "Error getting categories:" error;;
       w_throw error).

Definition getFolders : W json :=
  w_try
    (response ← client_call B (ClientCall "search"
                  (JObj [("index", JStr indexName);
                         ("body",
                          JObj [("aggs", JObj [terms_aggregation "folders" "folder" 20]);
                                ("size", JNum 0)])]));
     buckets ← w_path ["body"; "aggregations"; "folders"; "buckets"] response;
     counts ← w_map (λ bucket,
                       key ← w_member "key" bucket;
                       doc_count ← w_member "doc_count" bucket;
                       mret (JObj [("folder", key); ("count", doc_count)]))
                    buckets;
     mret (JArr counts))
    (λ error,
       w_log_error "Error getting folders:" error;;
       w_throw error).

Definition deleteEmail (emailId : json) : W unit :=
  w_try
    (client_call B (ClientCall "delete"
                      (JObj [("index", JStr indexName); ("id", emailId)]));;
     w_log LogInfo ("Deleted email: " +:+ template B emailId))
    (λ error,
       w_log_error "Error deleting email:" error;;
       w_throw error).

Definition getStats : W json :=
  w_try
    (response ← client_call B (ClientCall "search"
                  (JObj [("index", JStr indexName);
                         ("body",
                          JObj [("aggs",
                                 JObj [("total_emails",
                                        JObj [("value_count", JObj [("field", JStr "id")])]);
                                       terms_aggregation "by_account" "email" 10;
                                       terms_aggregation "by_category" "category" 10;
                                       terms_aggregation "by_folder" "folder" 10]);
                                ("size", JNum 0)])]));
     totalEmails ← w_path ["body"; "aggregations"; "total_emails"; "value"] response;
     byAccount ← w_path ["body"; "aggregations"; "by_account"; "buckets"] response;
     byCategory ← w_path ["body"; "aggregations"; "by_category"; "buckets"] response;
     byFolder ← w_path ["body"; "aggregations"; "by_folder"; "buckets"] response;
     mret (JObj [("totalEmails", totalEmails); ("byAccount", byAccount);
                 ("byCategory", byCategory); ("byFolder", byFolder)]))
    (λ error,
       w_log_error "Error getting stats:" error;;
       w_throw error).

(** [isConnected() { return this.isConnected; }] *)
Definition isConnected : W json :=
  connected ← w_get es_isConnected;
  mret (JBool connected).

(** ** The service as an object

    The own properties are those the constructor assigns, none of them
    a function; the methods are those of the class.  A call
    [this.elasticsearchService.name(...args)] looks the name up among
    the own properties first. *)

Definition own_names : list string :=
  ["client"; "indexName"; "logger"; "isConnected"].

Definition prototype_methods : list (string * (list json → W json)) :=
  [("initialize", λ _, no_result initialize);
   ("createIndex", λ _, no_result createIndex);
   ("setupMappings", λ _, no_result setupMappings);
   ("indexEmail", λ args, indexEmail (arg 0 args));
   ("updateEmailCategory", λ args, no_result (updateEmailCategory (arg 0 args) (arg 1 args)));
   ("searchEmails", λ args, searchEmails (arg 0 args) (arg 1 args));
   ("getEmailById", λ args, getEmailById (arg 0 args));
   ("getEmailsByAccount", λ args, getEmailsByAccount (arg 0 args));
   ("getCategories", λ _, getCategories);
   ("getFolders", λ _, getFolders);
   ("deleteEmail", λ args, no_result (deleteEmail (arg 0 args)));
   ("getStats", λ _, getStats);
   ("isConnected", λ _, isConnected)].

(** [await this.elasticsearchService.name(...args)] *)
Definition call (name : string) (args : list json) : W json :=
  let not_a_function :=
    JsTypeError ("this.elasticsearchService." +:+ name +:+ " is not a function") in
  if has_name name own_names then w_throw not_a_function
  else
    match find_method name prototype_methods with
    | Some method => method args
    | None => w_throw not_a_function
    end.

End Search_index.

End ElasticsearchService.

(** * emailRoutes.js and searchRoutes.js: the request handlers

    A handler takes what it reads of the request: the route parameter,
    the body, or what [schema.validate] makes of the query or the body
    (the error's first message, or the value with the defaults of the
    schema filled in).  What it sends is recorded: [res.status(code)]
    and [.json(body)]. *)

(** The validated query of [GET /api/search]. *)
Record search_query : Type := mkSearchQuery {
  sq_q : option string;
  sq_email : option string;
  sq_folder : option string;
  sq_category : option string;
  sq_dateFrom : option Z;
  sq_dateTo : option Z;
  sq_page : Z;
  sq_size : Z;
  sq_sortBy : string;
  sq_sortOrder : string
}.


Definition of_bool (o : option bool) : json := from_option JBool JUndefined o.

(** The validated body of an advanced search, as a value. *)
Definition advanced_filters_value (filters : advanced_filters) : json :=
  JObj [("from", of_string (af_from filters)); ("to", of_string (af_to filters));
        ("subject", of_string (af_subject filters));
        ("hasAttachments", of_bool (af_hasAttachments filters));
        ("flags", from_option of_strings JUndefined (af_flags filters));
        ("sizeMin", of_number (af_sizeMin filters));
        ("sizeMax", of_number (af_sizeMax filters))].

(** [res.status(code).json(body)] and [res.json(body)] *)
Definition res_status_json (code : Z) (body : json) : W unit :=
  w_tell (ResStatus code);;
  w_tell (ResJson body).

Definition res_json (body : json) : W unit := w_tell (ResJson body).

Definition console_error (msg : string) (error : js_error) : W unit :=
  w_tell (ConsoleError msg error).

Definition validation_error (message : string) : json :=
  JObj [("error", JStr "Validation error"); ("details", JStr message)].

Definition internal_server_error (message : string) : json :=
  JObj [("error", JStr "Internal server error"); ("message", JStr message)].

(** [Math.ceil(a / b)] *)
Definition math_ceil_div (B : Backends) (a : json) (b : Z) : json :=
  match a with
  | JNum n => if bool_decide (b = 0) then ceil_quotient B a b else JNum (- ((- n) `div` b))
  | _ => ceil_quotient B a b
  end.

Definition pagination_value (B : Backends) (page size : Z) (total : json) : json :=
  JObj [("page", JNum page); ("size", JNum size); ("total", total);
        ("pages", math_ceil_div B total size)].

(** ** emailRoutes.js *)

Module EmailRoutes.

Section Routes.

Variable X : Externals.
Variable B : Backends.

Definition getEmailById (id : json) : W unit :=
  w_try
    (if negb (truthy id) then
       res_status_json 400 (JObj [("error", JStr "Email ID is required")])
     else
       (email ← ElasticsearchService.call X B "getEmailById" [id];
        if negb (truthy email) then
          res_status_json 404 (JObj [("error", JStr "Email not found")])
        else
          res_json (JObj [("success", JBool true); ("data", email)])))
    (λ error,
       console_error "Error getting email by ID:" error;;
       res_status_json 500 (internal_server_error "Failed to retrieve email")).

(** [Joi.object({ category: Joi.string().valid(...the five
    categories).required() }).validate({ category })]: the value is
    accepted when it is one of the five strings; [details] is the
    message of the error otherwise. *)
Definition validate_category (details : string) (category : json) : validation string :=
  match category with
  | JStr s => if bool_decide (s ∈ categories) then Valid s else Invalid details
  | _ => Invalid details
  end.

Definition updateEmailCategory (id body : json) (details : string) : W unit :=
  w_try
    (category ←
       match body with
       | JUndefined =>
           w_throw (JsTypeError "Cannot destructure property 'category' of 'req.body' as it is undefined.")
       | JNull =>
           w_throw (JsTypeError "Cannot destructure property 'category' of 'req.body' as it is null.")
       | _ => mret (member "category" body)
       end;
     if negb (truthy id) then
       res_status_json 400 (JObj [("error", JStr "Email ID is required")])
     else
       match validate_category details category with
       | Invalid message => res_status_json 400 (validation_error message)
       | Valid value =>
           ElasticsearchService.call X B "updateEmailCategory" [id; JStr value];;
           res_json (JObj [("success", JBool true);
                           ("message", JStr "Email category updated successfully");
                           ("data", JObj [("category", JStr value)])])
       end)
    (λ error,
       console_error "Error updating email category:" error;;
       res_status_json 500 (internal_server_error "Failed to update email category")).

End Routes.

End EmailRoutes.

(** ** searchRoutes.js *)

Module SearchRoutes.

Section Routes.

Variable X : Externals.
Variable B : Backends.

Definition searchEmails (validated : validation search_query) : W unit :=
  w_try
    (match validated with
     | Invalid message => res_status_json 400 (validation_error message)
     | Valid value =>
         let filters :=
           JObj [("email", of_string (sq_email value));
                 ("folder", of_string (sq_folder value));
                 ("category", of_string (sq_category value));
                 ("dateFrom", of_date (sq_dateFrom value));
                 ("dateTo", of_date (sq_dateTo value));
                 ("from", JNum ((sq_page value - 1) * sq_size value));
                 ("size", JNum (sq_size value));
                 ("sortBy", JStr (sq_sortBy value));
                 ("sortOrder", JStr (sq_sortOrder value))] in
         result ← ElasticsearchService.call X B "searchEmails"
                    [of_string (sq_q value); filters];
         hits ← w_member "hits" result;
         total ← w_member "total" result;
         took ← w_member "took" result;
         res_json
           (JObj [("success", JBool true);
                  ("data",
                   JObj [("emails", hits);
                         ("pagination",
                          pagination_value B (sq_page value) (sq_size value) total);
                         ("search",
                          JObj [("query", of_string (sq_q value));
                                ("filters", filters);
                                ("took", took)])])])
     end)
    (λ error,
       console_error "Error searching emails:" error;;
       res_status_json 500 (internal_server_error "Failed to search emails")).

Definition advancedSearch (validated : validation search_params) : W unit :=
  w_try
    (match validated with
     | Invalid message => res_status_json 400 (validation_error message)
     | Valid value =>
         (* Build advanced search query *)
         let searchQuery := buildAdvancedSearchQuery value in
         result ← ElasticsearchService.call X B "advancedSearch" [searchQuery];
         hits ← w_member "hits" result;
         let page := number_or (sp_pagination value ≫= pg_page) 1 in
         let size := number_or (sp_pagination value ≫= pg_size) 20 in
         total ← w_member "total" result;
         took ← w_member "took" result;
         res_json
           (JObj [("success", JBool true);
                  ("data",
                   JObj [("emails", hits);
                         ("pagination", pagination_value B page size total);
                         ("search",
                          JObj [("query", of_string (sp_query value));
                                ("filters",
                                 from_option advanced_filters_value JUndefined
                                   (sp_filters value));
                                ("took", took)])])])
     end)
    (λ error,
       console_error "Error in advanced search:" error;;
       res_status_json 500 (internal_server_error "Failed to perform advanced search")).


End Routes.

End SearchRoutes.

(** ** Notions used in the statements *)

(** The responses a handler sent, each with its status: 200 unless
    [res.status] was called before. *)
Fixpoint responses_from (status : Z) (cs : list call) : list (Z * json) :=
  match cs with
  | [] => []
  | ResStatus code :: cs' => responses_from code cs'
  | ResJson body :: cs' => (status, body) :: responses_from status cs'
  | _ :: cs' => responses_from status cs'
  end.

Definition responses (cs : list call) : list (Z * json) := responses_from 200 cs.

(** The calls of the Elasticsearch client. *)
Definition client_calls (cs : list call) : list (string * json) :=
  omap (λ c, match c with ClientCall api params => Some (api, params) | _ => None end) cs.

(** The response to a missing document. *)
Definition not_found : json := JObj [("error", JStr "Email not found")].

(** What [getEmailById] answers, by what the client's [get] ended in. *)
Definition answer_to_get (B : Backends) (answer : settled json) : Z * json :=
  let failed := (500, internal_server_error "Failed to retrieve email") in
  match answer with
  | Rejected error =>
      if bool_decide (meta_statusCode B error = Some 404) then (404, not_found)
      else failed
  | Fulfilled response =>
      match member "body" response with
      | JUndefined | JNull => failed
      | body =>
          let email := member "_source" body in
          if truthy email then (200, JObj [("success", JBool true); ("data", email)])
          else (404, not_found)
      end
  end.

Definition is_error_report (c : call) : bool :=
  match c with
  | Logged LogError _ _ | ConsoleError _ _ => true
  | _ => false
  end.

(** A search index without the document asked for. *)
Definition without_document : Backends :=
  {| env_QDRANT_URL := None; env_QDRANT_COLLECTION := None;
     env_ELASTICSEARCH_INDEX := None; env_PORT := None;
     date_toISOString := λ _, "2024-01-15T12:00:00.000Z";
     random_suffix := λ _, "k3j9x0q1z";
     to_String := λ _, "[object Object]";
     own_entries := λ _, [];
     ceil_quotient := λ _ _, JNull;
     axios_request := λ _ _, Rejected (LibError "ECONNREFUSED");
     fetch_request := λ _ _ _ _, Rejected (LibError "fetch failed");
     client_request := λ _ _, Rejected (LibError "ResponseError: Response Error");
     lib_statusCode := λ _, Some 404 |}.

(** Calls that neither ask the search index nor answer the request. *)
Definition quiet (c : call) : Prop :=
  match c with
  | ClientCall _ _ | ResStatus _ | ResJson _ => False
  | _ => True
  end.





(** The category [PATCH /api/emails/:id/category] accepts, if any. *)
Definition accepted_category (id body : json) : option string :=
  match body with
  | JUndefined | JNull => None
  | _ =>
      if truthy id then
        match member "category" body with
        | JStr s => if bool_decide (s ∈ categories) then Some s else None
        | _ => None
        end
      else None
  end.

(** The request of an update of the category to the client. *)
Definition update_request (B : Backends) (id : json) (category : string) (updatedAt : Z)
  : string * json :=
  ("update",
   JObj [("index", JStr (ElasticsearchService.indexName B)); ("id", id);
         ("body", JObj [("doc", JObj [("category", JStr category);
                                      ("updatedAt", JDate updatedAt)])])]).

(** The methods of the client a run has called, in order. *)
Definition apis (cs : list call) : list string := (client_calls cs).*1.

(** * index.js: the application *)

Module ReachinboxApp.

Section App.

Variable X : Externals.
Variable B : Backends.
Variable qdrant : QdrantService.
Variable slackService : SlackService.
Variable webhookService : WebhookService.

(** [this.port = process.env.PORT || 3000] *)
Definition port : string := or_default (env_PORT B) "3000".

(** [start]; the callback of [listen] only logs. *)
Definition start : W unit :=
  w_try
    ((* Initialize Elasticsearch *)
     ElasticsearchService.initialize B;;
     w_log LogInfo "Elasticsearch initialized";;
     (* Initialize AI service with vector database *)
     ai_initialize B qdrant;;
     initializeDefaultTrainingData X B qdrant;;
     w_log LogInfo "AI categorization service initialized";;
     (* Start IMAP sync service *)
     lift (start X slackService webhookService);;
     w_log LogInfo "IMAP sync service started";;
     (* Start server *)
     w_tell (ServerListen port))
    (λ error,
       w_log_error "Failed to start application:" error;;
       w_tell (ProcessExit 1)).

End App.

End ReachinboxApp.

(** ** Notions used in the statements *)

(** What [start] of the application does before it starts the mail
    synchronisation. *)
Definition services_initialized (X : Externals) (B : Backends) (qdrant : QdrantService)
  : W unit :=
  ElasticsearchService.initialize B;;
  w_log LogInfo "Elasticsearch initialized";;
  ai_initialize B qdrant;;
  initializeDefaultTrainingData X B qdrant;;
  w_log LogInfo "AI categorization service initialized".

Definition listens (cs : list call) : Prop := ∃ port, ServerListen port ∈ cs.
Definition exits (cs : list call) : Prop := ∃ code, ProcessExit code ∈ cs.

(** Calls of the services: neither [listen] nor [process.exit]. *)
Definition of_a_service (c : call) : Prop :=
  match c with
  | ServerListen _ | ServerClose | ProcessExit _ => False
  | _ => True
  end.

(** * aiCategorizationRoutes.js: replies and training data *)

(** The validated body of [POST /api/ai/training-data]. *)
Record training_body : Type := mkTrainingBody {
  tb_content : string;
  tb_category : option string;
  tb_metadata : option (list (string * json))
}.

Module AICategorizationRoutes.

Section Routes.

Variable X : Externals.
Variable B : Backends.
Variable qdrant : QdrantService.

(** The validated body holds [email] and [trainingData]. *)
Definition generateSuggestedReply (validated : validation (email_data * string)) : W unit :=
  w_try
    (match validated with
     | Invalid message => res_status_json 400 (validation_error message)
     | Valid value =>
         let email := value.1 in
         let trainingData := value.2 in
         suggestedReply ← generateSuggestedReply X B qdrant email trainingData;
         res_json
           (JObj [("success", JBool true);
                  ("data",
                   JObj [("id", JStr (e_id email));
                         ("suggestedReply", JStr suggestedReply);
                         ("originalEmail",
                          JObj [("from", JStr (e_from email));
                                ("subject", JStr (e_subject email));
                                ("text", JStr (e_text email))])])])
     end)
    (λ error,
       console_error "Error generating suggested reply:" error;;
       res_status_json 500 (internal_server_error "Failed to generate suggested reply")).

Definition storeTrainingData (validated : validation training_body) : W unit :=
  w_try
    (match validated with
     | Invalid message => res_status_json 400 (validation_error message)
     | Valid value =>
         success ← ai_storeTrainingData X B qdrant
                     (tb_content value)
                     (or_default (tb_category value) "general")
                     (default [] (tb_metadata value));
         if (success : bool) then
           res_json (JObj [("success", JBool true);
                           ("message", JStr "Training data stored successfully")])
         else
           res_status_json 500 (JObj [("error", JStr "Failed to store training data")])
     end)
    (λ error,
       console_error "Error storing training data:" error;;
       res_status_json 500 (internal_server_error "Failed to store training data")).

End Routes.

End AICategorizationRoutes.

(** What [POST /api/ai/reply/suggest] answers a valid request with. *)
Definition suggestion (email : email_data) (suggestedReply : string) : json :=
  JObj [("success", JBool true);
        ("data",
         JObj [("id", JStr (e_id email));
               ("suggestedReply", JStr suggestedReply);
               ("originalEmail",
                JObj [("from", JStr (e_from email));
                      ("subject", JStr (e_subject email));
                      ("text", JStr (e_text email))])])].

(** * Reasoning about runs *)

Lemma advance_0 s : advance s [] 0 = s.
Proof. destruct s; unfold advance, with_calls, with_trace; cbn. by rewrite app_nil_r. Qed.

Lemma advance_advance s evs1 n1 evs2 n2 :
  advance (advance s evs1 n1) evs2 n2 = advance s (evs1 ++ evs2) (n2 + n1).
Proof.
  unfold advance, with_calls, with_trace; cbn.
  by rewrite app_assoc, Nat.add_assoc.
Qed.

Lemma tell_advance ev s : with_trace (λ t, t ++ [ev]) s = advance s [ev] 0.
Proof. reflexivity. Qed.

Lemma consult_advance s : with_calls S s = advance s [] 1.
Proof. destruct s; unfold advance, with_calls, with_trace; cbn. by rewrite app_nil_r. Qed.

Lemma trace_advance s evs n : trace (advance s evs n) = trace s ++ evs.
Proof. reflexivity. Qed.

Lemma calls_advance s evs n : calls (advance s evs n) = (n + calls s)%nat.
Proof. reflexivity. Qed.

Create Rewrite HintDb advance.
#[local] Hint Rewrite tell_advance consult_advance advance_advance : advance.

Lemma new_events_advance s evs n : new_events s (advance s evs n) = evs.
Proof. unfold new_events. rewrite trace_advance. apply drop_app_length. Qed.

Lemma bind_run {A B} (m : M A) (k : A → M B) s :
  (m ≫= k) s =
  match m s with
  | (Returned a, s') => k a s'
  | (Thrown e, s') => (Thrown e, s')
  | (Pending, s') => (Pending, s')
  end.
Proof. reflexivity. Qed.

Lemma bind_returned {A B} (m : M A) (k : A → M B) s a s' :
  m s = (Returned a, s') → (m ≫= k) s = k a s'.
Proof. intros H. by rewrite bind_run, H. Qed.

Lemma bind_thrown {A B} (m : M A) (k : A → M B) s e s' :
  m s = (Thrown e, s') → (m ≫= k) s = (Thrown e, s').
Proof. intros H. by rewrite bind_run, H. Qed.

Lemma omap_none_Forall {A B} (f : A → option B) (P : A → Prop) (l : list A) :
  (∀ x, P x → f x = None) → Forall P l → omap f l = [].
Proof.
  intros Hf. induction 1 as [|x l Hx _ IH]; [done|].
  cbn. by rewrite (Hf x Hx), IH.
Qed.

Lemma omap_cons_run {A B} (f : A → option B) (x : A) (l : list A) :
  omap f (x :: l) = from_option (λ y, [y]) [] (f x) ++ omap f l.
Proof. cbn. by destruct (f x). Qed.

(** Unfolding the monad, with the state kept in [advance] form. *)
#[local] Hint Rewrite calls_advance trace_advance : advance.

Ltac step :=
  repeat progress
    (unfold mbind, M_bind, bind, mret, M_ret, ret, log, log_error, sleep, new_Date,
       tell, modify, get, consult, await, throw, try_catch;
     cbn [fst snd];
     autorewrite with advance;
     cbn [Nat.add app]).

(** * The classification gateway *)

Lemma default_category : "Not Interested" ∈ categories.
Proof. unfold categories. set_solver. Qed.

Lemma categorizeEmail_run (X : Externals) (emailData : email_data) (s : state) :
  ∃ category evs n,
    categorizeEmail X emailData s = (Returned category, advance s evs n) ∧
    category ∈ categories ∧
    Forall classifier_event evs ∧
    (if falsy (env_OPENAI_API_KEY X) then
       category = "Not Interested" ∧ n = 0%nat ∧ chat_requests evs = []
     else
       n = 1%nat ∧
       chat_requests evs
         = [categorization_request (buildCategorizationPrompt X emailData)] ∧
       follows_answer (provider_answer X emailData (calls s)) category).
Proof.
  pose proof default_category as Hd.
  unfold categorizeEmail, chat_completions_create, first_content_trimmed,
    follows_answer, provider_answer.
  destruct (falsy (env_OPENAI_API_KEY X)); step.
  - eexists _, _, _. split; [reflexivity|]. repeat split; auto.
    repeat constructor.
  - destruct (openai_create X _ _) as [response|err]; step;
      [destruct (choices response) as [|[content|] ?]; step|];
      try case_bool_decide; step;
      (eexists _, _, _; split; [reflexivity|]); repeat split; auto;
      repeat constructor.
Qed.

(** C1, as stated, fails: a reply that is not exactly one of the five
    category strings (here [Spam] followed by a line break) is not
    replaced by the default; [categorizeEmail] trims it and returns
    [Spam]. *)
Lemma categorizeEmail_accepts_padded_reply :
  provider_answer padding_world meeting_request 0 = says ("Spam" +:+ nl) ∧
  (("Spam" +:+ nl) ∉ categories) ∧
  (categorizeEmail padding_world meeting_request initial_state).1 = Returned "Spam" ∧
  "Spam" ≠ "Not Interested".
Proof.
  split; [reflexivity|]. split; [|split; [by vm_compute|done]].
  apply (bool_decide_eq_false_1 _). by vm_compute.
Qed.

(** C1, amended: [categorizeEmail] always returns, and returns one of the
    five categories; it returns the default [Not Interested] when the
    credential is absent, when the provider call is rejected, and when
    the reply carries no text or a text that, once trimmed, is not one
    of the five category strings; a reply that, once trimmed, is one of
    the five is returned trimmed. *)
Theorem categorizeEmail_category (X : Externals) (emailData : email_data) (s : state) :
  ∃ category s',
    categorizeEmail X emailData s = (Returned category, s') ∧
    category ∈ categories ∧
    (falsy (env_OPENAI_API_KEY X) = true → category = "Not Interested") ∧
    (∀ err, provider_answer X emailData (calls s) = Rejected err →
       category = "Not Interested") ∧
    (∀ response, provider_answer X emailData (calls s) = Fulfilled response →
       (∀ content, head (choices response) = Some (Some content) →
          trim content ∉ categories) →
       category = "Not Interested") ∧
    (∀ response content,
       falsy (env_OPENAI_API_KEY X) = false →
       provider_answer X emailData (calls s) = Fulfilled response →
       head (choices response) = Some (Some content) →
       trim content ∈ categories →
       category = trim content).
Proof.
  destruct (categorizeEmail_run X emailData s) as (category & evs & n & Hrun & Hin & _ & H).
  exists category, (advance s evs n). split; [exact Hrun|]. split; [exact Hin|].
  destruct (falsy (env_OPENAI_API_KEY X)).
  { destruct H as (-> & _). repeat split; auto. discriminate. }
  destruct H as (_ & _ & H). split; [discriminate|]. unfold follows_answer in H.
  destruct (provider_answer X emailData (calls s)) as [response|err].
  - split; [discriminate|]. split.
    + intros ? [= <-] Hbad.
      destruct (choices response) as [|[content|] ?]; try done.
      case_bool_decide; [|done]. by destruct (Hbad content).
    + intros ? content _ [= <-] Hhead Hok.
      destruct (choices response) as [|[c|] ?]; simplify_eq/=.
      by rewrite bool_decide_eq_true_2 in H.
  - repeat split; auto; discriminate.
Qed.

(** The theorem at a provider outage: the default is returned. *)
Lemma categorizeEmail_category_witness :
  (categorizeEmail outage_world meeting_request initial_state).1
  = Returned "Not Interested".
Proof.
  destruct (categorizeEmail_category outage_world meeting_request initial_state)
    as (category & s' & Hrun & _ & _ & Herr & _).
  rewrite Hrun. cbn. f_equal. by eapply Herr.
Defined.

(** * The two sinks *)

(** Side conditions of [omap_none_Forall]. *)
Ltac quiet := first [assumption | intros []; cbn; intros []; reflexivity].

Lemma sendNotification_run (X : Externals) (this : SlackService)
    (emailData : email_data) (s : state) :
  ∃ ok evs n,
    sendNotification X this emailData s
      = (Returned ok, advance s (EvSinkCall ChatSink emailData :: evs) n) ∧
    Forall transport_event evs ∧
    (falsy (slack_webhookUrl this) = true → ok = false ∧ posts evs = []) ∧
    (falsy (slack_webhookUrl this) = false →
       posts evs = [(default "" (slack_webhookUrl this),
                     SlackBody (buildSlackMessage X emailData),
                     {| cfg_headers := [("Content-Type", "application/json")];
                        cfg_timeout := None |})] ∧
       match axios_post X (calls s) (default "" (slack_webhookUrl this))
               (SlackBody (buildSlackMessage X emailData))
               {| cfg_headers := [("Content-Type", "application/json")];
                  cfg_timeout := None |} with
       | Fulfilled status => ok = bool_decide (status = 200)
       | Rejected _ => ok = false
       end).
Proof.
  unfold sendNotification, axios_post_call.
  destruct (falsy (slack_webhookUrl this)); step.
  - eexists _, _, _. split; [reflexivity|]. split; [repeat constructor|].
    split; [done|discriminate].
  - destruct (axios_post X _ _ _ _) as [status|err]; step;
      try case_bool_decide; step;
      (eexists _, _, _; split; [reflexivity|]);
      (split; [repeat constructor|]); (split; [discriminate|done]).
Qed.

Lemma triggerWebhook_run (X : Externals) (this : WebhookService)
    (emailData : email_data) (s : state) :
  ∃ ok evs n,
    triggerWebhook X this emailData s
      = (Returned ok, advance s (EvSinkCall WebhookSink emailData :: evs) n) ∧
    Forall transport_event evs ∧
    (falsy (webhookUrl this) = true → ok = false ∧ posts evs = []) ∧
    (falsy (webhookUrl this) = false →
       ∃ payload,
         posts evs = [(default "" (webhookUrl this), WebhookBody payload,
                       {| cfg_headers := webhook_headers;
                          cfg_timeout := Some 10000 |})] ∧
         match axios_post X (2 + calls s) (default "" (webhookUrl this))
                 (WebhookBody payload)
                 {| cfg_headers := webhook_headers; cfg_timeout := Some 10000 |} with
         | Fulfilled status => ok = bool_decide (200 ≤ status < 300)
         | Rejected _ => ok = false
         end).
Proof.
  unfold triggerWebhook, buildWebhookPayload, axios_post_call.
  destruct (falsy (webhookUrl this)); step.
  - eexists _, _, _. split; [reflexivity|]. split; [repeat constructor|].
    split; [done|discriminate].
  - destruct (axios_post X _ _ _ _) as [status|err] eqn:Hpost; step.
    + destruct (bool_decide (200 ≤ status) && bool_decide (status < 300)) eqn:Hok; step;
        (eexists _, _, _; split; [reflexivity|]);
        (split; [repeat constructor|]); (split; [discriminate|]);
        intros _; eexists; (split; [reflexivity|]); rewrite Hpost;
        symmetry.
      * apply andb_true_iff in Hok as [?%bool_decide_eq_true ?%bool_decide_eq_true].
        by apply bool_decide_eq_true.
      * apply bool_decide_eq_false. intros [??].
        apply andb_false_iff in Hok as [?%bool_decide_eq_false|?%bool_decide_eq_false]; lia.
    + eexists _, _, _. split; [reflexivity|].
      split; [repeat constructor|]. split; [discriminate|].
      intros _. eexists. split; [reflexivity|]. by rewrite Hpost.
Qed.

Lemma map_payload_data_run (X : Externals) (emails : list email_data) (s : state) :
  ∃ data, map_payload_data X emails s
          = (Returned data, advance s [] (2 * length emails)).
Proof.
  revert s. induction emails as [|email rest IH]; intros s.
  - exists []. cbn. by rewrite advance_0.
  - unfold map_payload_data; fold (map_payload_data X).
    unfold buildWebhookPayload. step.
    destruct (IH (advance s [] 2)) as (data & ->). step.
    eexists. f_equal. f_equal. cbn [length]. lia.
Qed.

Lemma triggerBatchWebhook_run (X : Externals) (this : WebhookService)
    (emails : list email_data) (s : state) :
  ∃ ok evs n,
    triggerBatchWebhook X this emails s = (Returned ok, advance s evs n) ∧
    Forall transport_event evs ∧
    (falsy (webhookUrl this) = true → ok = false ∧ posts evs = []) ∧
    (falsy (webhookUrl this) = false →
       ∃ payload,
         posts evs = [(default "" (webhookUrl this), BatchWebhookBody payload,
                       {| cfg_headers := webhook_headers;
                          cfg_timeout := Some 15000 |})] ∧
         bp_count payload = length emails).
Proof.
  unfold triggerBatchWebhook, axios_post_call.
  destruct (falsy (webhookUrl this)); step.
  - eexists _, _, _. split; [reflexivity|]. split; [repeat constructor|].
    split; [done|discriminate].
  - destruct (map_payload_data_run X emails (advance s [] 1)) as (data & ->). step.
    destruct (axios_post X _ _ _ _) as [status|err]; step;
      try destruct (bool_decide (200 ≤ status) && bool_decide (status < 300)); step;
      (eexists _, _, _; split; [reflexivity|]);
      (split; [repeat constructor|]); (split; [discriminate|]);
      intros _; eexists; (split; reflexivity).
Qed.

(** C5: each sink call returns a boolean and never throws, whatever the
    configuration and whatever the HTTP peer does; and in the
    notification block of the pipeline the webhook sink is called after
    the chat sink whatever the chat sink returned, each sink's result
    being what it is on its own. *)
Theorem sinks_fail_independently (X : Externals) (slackService : SlackService)
    (webhookService : WebhookService) (emailData : email_data) (s : state) :
  ∃ chat_ok s1 webhook_ok s2,
    sendNotification X slackService emailData s = (Returned chat_ok, s1) ∧
    triggerWebhook X webhookService emailData s1 = (Returned webhook_ok, s2) ∧
    (sendNotification X slackService emailData;;
     triggerWebhook X webhookService emailData;;
     mret tt) s = (Returned tt, s2) ∧
    sink_calls (new_events s s2) = [(ChatSink, emailData); (WebhookSink, emailData)] ∧
    (∀ s0, ∃ ok s', triggerWebhook X webhookService emailData s0 = (Returned ok, s')).
Proof.
  destruct (sendNotification_run X slackService emailData s)
    as (ok1 & evs1 & n1 & Hrun1 & Hev1 & _).
  destruct (triggerWebhook_run X webhookService emailData (advance s (EvSinkCall ChatSink emailData :: evs1) n1))
    as (ok2 & evs2 & n2 & Hrun2 & Hev2 & _).
  rewrite advance_advance in Hrun2.
  eexists _, _, _, _. split; [exact Hrun1|]. split; [exact Hrun2|].
  split; [|split].
  - unfold mbind, M_bind, bind. rewrite Hrun1, Hrun2. reflexivity.
  - rewrite new_events_advance. unfold sink_calls.
    rewrite omap_app, !omap_cons_run.
    rewrite (omap_none_Forall _ transport_event evs1),
      (omap_none_Forall _ transport_event evs2) by quiet.
    reflexivity.
  - intros s0. destruct (triggerWebhook_run X webhookService emailData s0)
      as (ok & evs & n & Hrun & _). eauto.
Qed.

(** C6, as stated, fails: the chat-notification send carries no timeout
    at all, so it is not 5 seconds. *)
Lemma chat_send_has_no_timeout :
  (cfg_timeout ∘ snd)
    <$> posts (new_events initial_state
                 (sendNotification interested_world configured_slack
                    meeting_request initial_state).2)
  = [None] ∧
  (None : option Z) ≠ Some 5000.
Proof. split; [by vm_compute|done]. Qed.

(** C6, amended: the single webhook call is made with a 10-second
    timeout and the batch webhook call with a 15-second timeout; the
    chat-notification send is made without a timeout (the HTTP client's
    default applies).  A configured sink makes exactly one such call, an
    unconfigured one none. *)
Theorem sink_timeouts (X : Externals) (slackService : SlackService)
    (webhookService : WebhookService) (emailData : email_data)
    (emails : list email_data) (s : state) :
  let chat := posts (new_events s (sendNotification X slackService emailData s).2) in
  let single := posts (new_events s (triggerWebhook X webhookService emailData s).2) in
  let batch := posts (new_events s (triggerBatchWebhook X webhookService emails s).2) in
  Forall (λ post, cfg_timeout post.2 = None) chat ∧
  Forall (λ post, cfg_timeout post.2 = Some 10000) single ∧
  Forall (λ post, cfg_timeout post.2 = Some 15000) batch ∧
  length chat = (if falsy (slack_webhookUrl slackService) then 0 else 1)%nat ∧
  length single = (if falsy (webhookUrl webhookService) then 0 else 1)%nat ∧
  length batch = (if falsy (webhookUrl webhookService) then 0 else 1)%nat.
Proof.
  destruct (sendNotification_run X slackService emailData s)
    as (ok1 & evs1 & n1 & -> & Hev1 & Hoff1 & Hon1).
  destruct (triggerWebhook_run X webhookService emailData s)
    as (ok2 & evs2 & n2 & -> & Hev2 & Hoff2 & Hon2).
  destruct (triggerBatchWebhook_run X webhookService emails s)
    as (ok3 & evs3 & n3 & -> & Hev3 & Hoff3 & Hon3).
  cbn [snd]. rewrite !new_events_advance. unfold posts in *.
  rewrite !omap_cons_run. cbn [from_option app].
  destruct (falsy (slack_webhookUrl slackService)).
  - destruct Hoff1 as [_ ->]; [done|].
    destruct (falsy (webhookUrl webhookService)).
    + destruct Hoff2 as [_ ->]; [done|]. destruct Hoff3 as [_ ->]; [done|].
      by repeat split.
    + destruct Hon2 as (? & -> & _); [done|]. destruct Hon3 as (? & -> & _); [done|].
      repeat split; by repeat constructor.
  - destruct Hon1 as (-> & _); [done|].
    destruct (falsy (webhookUrl webhookService)).
    + destruct Hoff2 as [_ ->]; [done|]. destruct Hoff3 as [_ ->]; [done|].
      repeat split; by repeat constructor.
    + destruct Hon2 as (? & -> & _); [done|]. destruct Hon3 as (? & -> & _); [done|].
      repeat split; by repeat constructor.
Qed.

(** * Batch categorization *)

Lemma batch_steps_classifier (evs : list event) :
  Forall classifier_event evs → batch_steps evs = CallProvider <$> chat_requests evs.
Proof.
  induction 1 as [|ev evs Hev _ IH]; [done|].
  unfold batch_steps, chat_requests in *. rewrite !omap_cons_run, IH.
  by destruct ev.
Qed.

Lemma batch_loop_run (X : Externals) (emails : list email_data)
    (acc : list batch_result) (s : state) :
  ∃ rs evs,
    batch_loop X emails acc s
      = (Returned (acc ++ rs),
         advance s evs (if falsy (env_OPENAI_API_KEY X) then 0 else length emails)) ∧
    br_id <$> rs = e_id <$> emails ∧
    Forall (λ r, br_category r ∈ categories) rs ∧
    batch_steps evs = batch_protocol X emails ∧
    (falsy (env_OPENAI_API_KEY X) = true →
       Forall (λ r, br_category r = "Not Interested") rs) ∧
    (falsy (env_OPENAI_API_KEY X) = false →
       ∀ i email, emails !! i = Some email →
         ∃ category,
           rs !! i = Some {| br_id := e_id email; br_category := category |} ∧
           follows_answer (provider_answer X email (i + calls s)) category).
Proof.
  revert acc s. induction emails as [|email rest IH]; intros acc s.
  - exists [], []. cbn. rewrite app_nil_r.
    split; [by destruct (falsy _); rewrite advance_0|]. by repeat split.
  - unfold batch_loop; fold (batch_loop X).
    destruct (categorizeEmail_run X email s)
      as (category & evs1 & n1 & Hrun & Hin & Hev1 & Hkey).
    unfold mbind, M_bind, bind. rewrite Hrun. step.
    destruct (IH (acc ++ [{| br_id := e_id email; br_category := category |}])
                (advance s (evs1 ++ [EvSleep 100]) n1))
      as (rs & evs & -> & Hids & Hcats & Hsteps & Hoff & Hon).
    exists ({| br_id := e_id email; br_category := category |} :: rs),
           ((evs1 ++ [EvSleep 100]) ++ evs).
    rewrite advance_advance, <- (app_assoc acc). cbn [app].
    unfold batch_steps in *. rewrite !omap_app. fold batch_steps in *.
    rewrite Hsteps, (batch_steps_classifier evs1 Hev1).
    unfold batch_protocol; cbn [mbind list_bind]; fold (batch_protocol X rest).
    cbn [fmap list_fmap length lookup].
    destruct (falsy (env_OPENAI_API_KEY X)).
    + destruct Hkey as (-> & -> & ->). rewrite Hids.
      split; [done|]. split; [done|]. split; [by constructor|]. split; [done|].
      split; [|done]. intros _. constructor; auto.
    + destruct Hkey as (-> & -> & Hans). rewrite Hids.
      split; [by rewrite Nat.add_1_r|]. split; [done|]. split; [by constructor|].
      split; [done|]. split; [done|].
      intros _ [|i] email' Hi.
      * injection Hi as <-. eauto.
      * destruct (Hon eq_refl i email' Hi) as (c & Hc & Hf).
        exists c. split; [exact Hc|].
        rewrite calls_advance in Hf. by rewrite Nat.add_succ_comm.
Qed.

Lemma follows_answer_cases (answer : settled chat_response) (category : string) :
  follows_answer answer category →
  (∀ err, answer = Rejected err → category = "Not Interested") ∧
  (∀ response content,
     answer = Fulfilled response →
     head (choices response) = Some (Some content) →
     trim content ∈ categories →
     category = trim content) ∧
  (∀ response,
     answer = Fulfilled response →
     (∀ content, head (choices response) = Some (Some content) →
        trim content ∉ categories) →
     category = "Not Interested").
Proof.
  unfold follows_answer. destruct answer as [response|err].
  - intros H. split; [discriminate|]. split.
    + intros ? content [= <-] Hhead Hok.
      destruct (choices response) as [|[c|] ?]; simplify_eq/=.
      by rewrite bool_decide_eq_true_2 in H.
    + intros ? [= <-] Hbad.
      destruct (choices response) as [|[content|] ?]; try done.
      case_bool_decide; [|done]. by destruct (Hbad content).
  - intros ->. repeat split; auto; discriminate.
Qed.

(** C7: for every list of emails, [batchCategorizeEmails] returns one
    entry per email, in input order; the emails are taken one after the
    other, each provider call followed by a 100ms delay; an entry whose
    classification failed (provider call rejected, no usable reply, no
    credential) carries [Not Interested], an entry whose reply names a
    category carries it; a failure never aborts the batch. *)
Theorem batchCategorizeEmails_results (X : Externals) (emails : list email_data)
    (s : state) :
  ∃ results s',
    batchCategorizeEmails X emails s = (Returned results, s') ∧
    length results = length emails ∧
    br_id <$> results = e_id <$> emails ∧
    Forall (λ r, br_category r ∈ categories) results ∧
    batch_steps (new_events s s') = batch_protocol X emails ∧
    (∀ i email, emails !! i = Some email →
       ∃ category,
         results !! i = Some {| br_id := e_id email; br_category := category |} ∧
         (falsy (env_OPENAI_API_KEY X) = true → category = "Not Interested") ∧
         (falsy (env_OPENAI_API_KEY X) = false →
            (∀ err, provider_answer X email (i + calls s) = Rejected err →
               category = "Not Interested") ∧
            (∀ response content,
               provider_answer X email (i + calls s) = Fulfilled response →
               head (choices response) = Some (Some content) →
               trim content ∈ categories →
               category = trim content) ∧
            (∀ response,
               provider_answer X email (i + calls s) = Fulfilled response →
               (∀ content, head (choices response) = Some (Some content) →
                  trim content ∉ categories) →
               category = "Not Interested"))).
Proof.
  destruct (batch_loop_run X emails [] s)
    as (rs & evs & Hrun & Hids & Hcats & Hsteps & Hoff & Hon).
  unfold batchCategorizeEmails. step. rewrite Hrun. step.
  eexists _, _. split; [reflexivity|].
  split. { by rewrite <- (length_fmap br_id), Hids, length_fmap. }
  split; [done|]. split; [done|].
  split.
  { rewrite new_events_advance. unfold batch_steps in *.
    rewrite omap_app, Hsteps. cbn. by rewrite app_nil_r. }
  intros i email Hi.
  destruct (falsy (env_OPENAI_API_KEY X)) eqn:Hkey.
  - assert (is_Some (rs !! i)) as [r Hr].
    { apply lookup_lt_is_Some. rewrite <- (length_fmap br_id), Hids, length_fmap.
      by eapply lookup_lt_Some. }
    exists (br_category r). split; [|split; [|discriminate]].
    + rewrite Hr. f_equal. destruct r as [rid rcat]. cbn. f_equal.
      assert ((br_id <$> rs) !! i = (e_id <$> emails) !! i) as Hl by by rewrite Hids.
      rewrite !list_lookup_fmap, Hr, Hi in Hl. by injection Hl.
    + intros _. specialize (Hoff eq_refl).
      by eapply (Forall_lookup_1 _ _ _ _ Hoff).
  - destruct (Hon eq_refl i email Hi) as (category & Hc & Hf).
    exists category. split; [exact Hc|]. split; [discriminate|].
    intros _. by apply follows_answer_cases.
Qed.

(** The theorem on a batch of two whose second provider call fails: the
    first entry carries the provider's category, the second the default. *)
Lemma batchCategorizeEmails_results_witness :
  ∃ results,
    (batchCategorizeEmails flaky_world [meeting_request; follow_up] initial_state).1
    = Returned results ∧
    results !! 0%nat = Some {| br_id := "a@x.com_7"; br_category := "Meeting Booked" |} ∧
    results !! 1%nat = Some {| br_id := "a@x.com_8"; br_category := "Not Interested" |}.
Proof.
  destruct (batchCategorizeEmails_results flaky_world [meeting_request; follow_up]
              initial_state) as (results & s' & Hrun & _ & _ & _ & _ & Hentries).
  exists results. rewrite Hrun. split; [reflexivity|]. split.
  - destruct (Hentries 0%nat meeting_request eq_refl) as (c & -> & _ & Hon).
    destruct (Hon eq_refl) as (_ & Hvalid & _).
    rewrite (Hvalid {| choices := [Some "Meeting Booked"] |} "Meeting Booked");
      [reflexivity..|].
    apply (bool_decide_eq_true_1 _). by vm_compute.
  - destruct (Hentries 1%nat follow_up eq_refl) as (c & -> & _ & Hon).
    destruct (Hon eq_refl) as (Herr & _).
    by rewrite (Herr (LibError "rate_limit_exceeded")).
Defined.

(** * The pipeline of one message *)

Ltac run_categorizeEmail :=
  match goal with
  | |- context [categorizeEmail ?X ?e ?s] =>
      let H := fresh "Hrun" in
      destruct (categorizeEmail_run X e s)
        as (?category & ?classified & ?n & H & ?Hin & ?Hcl & _);
      rewrite H; clear H
  end.

Ltac run_sendNotification :=
  match goal with
  | |- context [sendNotification ?X ?this ?e ?s] =>
      let H := fresh "Hrun" in
      destruct (sendNotification_run X this e s)
        as (?ok & ?chat & ?n & H & ?Hchat & _);
      rewrite H; clear H
  end.

Ltac run_triggerWebhook :=
  match goal with
  | |- context [triggerWebhook ?X ?this ?e ?s] =>
      let H := fresh "Hrun" in
      destruct (triggerWebhook_run X this e s)
        as (?ok & ?webhook & ?n & H & ?Hwebhook & _);
      rewrite H; clear H
  end.

(** Putting a list of interactions in right-nested form. *)
Ltac tidy := rewrite <- ?app_assoc; cbn [app e_id set_category].

(** The callback is reached: name the state it is called in. *)
Ltac call_back Hcb :=
  match goal with
  | |- context [?callback (advance ?s (EvParse ?buffer :: ?evs) ?n)] =>
      exists evs, n;
      destruct (Hcb (advance s (EvParse buffer :: evs) n)) as [? ->]
  end.

Lemma pipeline_eq email attributes answer evs evs' :
  pipeline email attributes answer evs → evs = evs' →
  pipeline email attributes answer evs'.
Proof. by intros ? <-. Qed.

Lemma processEmailMessage_run (X : Externals) (slackService : SlackService)
    (webhookService : WebhookService) (msg : imap_message) (email : string)
    (seqno : N) (callback : M unit) (s : state) :
  total_callback callback →
  ∃ evs n,
    processEmailMessage X slackService webhookService msg email seqno callback s
      = callback (advance s (EvParse (buffer_of msg) :: evs) n) ∧
    pipeline email (attributes_of msg) (simpleParser X (calls s) (buffer_of msg)) evs.
Proof.
  intros Hcb.
  unfold processEmailMessage, indexEmail, updateEmailCategory, io_to_emit.
  fold (buffer_of msg). fold (attributes_of msg).
  step.
  destruct (simpleParser X (calls s) (buffer_of msg)) as [parsed|err]; step.
  2: { eexists _, _. split; [reflexivity|]. constructor. }
  destruct (p_date parsed) as [date|] eqn:Hdate; cbn [from_option]; step.
  all: match goal with
       | |- context [EvIndex ?e] =>
           let d := eval cbn [e_date] in (e_date e) in
           let c := eval cbn [e_createdAt] in (e_createdAt e) in
           let u := eval cbn [e_updatedAt] in (e_updatedAt e) in
           assert (e = message_of email (attributes_of msg) parsed d c u) as Hmsg
             by (unfold message_of; rewrite Hdate; reflexivity);
           rewrite !Hmsg; clear Hmsg;
           generalize d c u; intros now createdAt updatedAt
       end.
  all: destruct (es_index X _ _) as [[]|err]; step;
    [|eexists _, _; split; [reflexivity|]; apply index_failed].
  all: run_categorizeEmail; step.
  all: destruct (es_update X _ _ _) as [[]|err]; step;
    [|eexists _, _; split; [reflexivity|]; tidy; by apply update_failed].
  all: case_bool_decide as Hint; step;
    [ run_sendNotification; step; run_triggerWebhook; step;
      call_back Hcb; (split; [reflexivity|]);
      eapply pipeline_eq;
      [ eapply (completed _ _ parsed now createdAt updatedAt category classified _
                 (EvSinkCall ChatSink
                    (set_category
                       (message_of email (attributes_of msg) parsed now createdAt updatedAt)
                       category)
                  :: chat
                  ++ EvSinkCall WebhookSink
                       (set_category
                          (message_of email (attributes_of msg) parsed now createdAt updatedAt)
                          category)
                  :: webhook));
        [done|done|];
        unfold notified; rewrite bool_decide_eq_true_2 by done; eauto |]
    | call_back Hcb; (split; [reflexivity|]);
      eapply pipeline_eq;
      [ eapply (completed _ _ parsed now createdAt updatedAt category classified _ []);
        [done|done|];
        unfold notified; by rewrite bool_decide_eq_false_2 by done |] ].
  all: unfold published, processed_log.
  all: cbn [e_id e_from e_subject e_date set_category].
  all: repeat progress (rewrite <- ?app_assoc; cbn [app]); reflexivity.
Qed.

Lemma sync_callback_run (email : string) (results_length : nat) (s : state) :
  ∃ s',
    sync_callback email results_length s = (Returned tt, s') ∧
    processedCount s' = S (processedCount s) ∧
    sync_promise s'
      = (if bool_decide (S (processedCount s) = results_length) then
           Some (default (Fulfilled tt) (sync_promise s))
         else sync_promise s) ∧
    conn_promise s' = conn_promise s ∧
    connections s' = connections s ∧
    next_conn s' = next_conn s ∧
    calls s' = calls s.
Proof.
  unfold sync_callback, settle_sync. step.
  case_bool_decide as Hn; cbn [processedCount with_processedCount] in Hn;
    [rewrite bool_decide_eq_true_2 by done|rewrite bool_decide_eq_false_2 by done];
    (eexists; split; [reflexivity|]).
  - destruct (sync_promise s) eqn:E; cbn; by rewrite ?E.
  - done.
Qed.

Lemma sync_callback_total (email : string) (results_length : nat) :
  total_callback (sync_callback email results_length).
Proof.
  intros s. destruct (sync_callback_run email results_length s) as (s' & -> & _). eauto.
Qed.

Lemma idle_callback_total (email : string) (results_length : nat) :
  total_callback (idle_callback email results_length).
Proof.
  intros s. unfold idle_callback. step. case_bool_decide; eauto.
Qed.

(** Computing a projection of a list of interactions. *)
Ltac project :=
  repeat (rewrite omap_app || rewrite omap_cons_run);
  cbn [from_option app omap];
  repeat match goal with
    | H : Forall classifier_event ?l |- context [omap ?f ?l] =>
        rewrite (omap_none_Forall f classifier_event l) by quiet
    | H : Forall transport_event ?l |- context [omap ?f ?l] =>
        rewrite (omap_none_Forall f transport_event l) by quiet
    end;
  cbn [app].

Lemma last_cons_app_cons {A} (x y : A) (l1 l2 : list A) :
  last (x :: l1 ++ y :: l2) = last (y :: l2).
Proof. exact (last_app_cons (x :: l1) l2 y). Qed.

Ltac find_last :=
  repeat (rewrite last_cons_cons || rewrite last_cons_app_cons || rewrite last_app_cons);
  reflexivity.

(** The callback is reached: name the state it is called in. *)
Ltac reach_callback Hcb :=
  match goal with
  | |- context [?callback (advance ?s ?evs ?n)] =>
      exists (advance s evs n);
      destruct (Hcb (advance s evs n)) as [? ->]
  end.

(** C4: what [processEmailMessage] does with a message is decided by the
    answers of the parser, of the store and of the classifier, and it
    ends with one call of the callback.  When the parser rejects the
    payload, the message is skipped: the error is logged and nothing
    else is done.  Otherwise the Message built of what the parser found
    is handed to the store, and no other.  When the store rejects it,
    the message is skipped: no sink is called and nothing is published.
    Otherwise the classifier is asked about that Message and returns a
    category of the label set.  When the store rejects the update of
    the category, the message is skipped as well, stored and classified
    as it is: no sink is called and nothing is published.  Otherwise the
    Message is processed: if its category is [Interested], the chat sink
    and the webhook sink are both called, in that order, with the
    categorized Message; if its category is anything else, neither is
    called; and in both cases exactly one event carrying the id, sender,
    subject, category and date of the Message is published to
    [email-updates]. *)
Theorem fan_out_by_category (X : Externals) (slackService : SlackService)
    (webhookService : WebhookService) (msg : imap_message) (email : string)
    (seqno : N) (callback : M unit) (s : state) :
  total_callback callback →
  ∃ s1,
    processEmailMessage X slackService webhookService msg email seqno callback s
      = callback s1 ∧
    let evs := new_events s s1 in
    match simpleParser X (calls s) (buffer_of msg) with
    | Rejected err =>
        evs = [EvParse (buffer_of msg); skipped_log email err]
    | Fulfilled parsed =>
        let emailData := built_message X email msg parsed s in
        stored evs = [emailData] ∧
        match es_index X (1 + clock_readings parsed + calls s) emailData with
        | Rejected err =>
            last evs = Some (skipped_log email err) ∧
            sink_calls evs = [] ∧
            live_updates evs = []
        | Fulfilled _ =>
            let classified :=
              categorizeEmail X emailData (classifier_state X email msg parsed s) in
            match classified.1 with
            | Returned category =>
                category ∈ categories ∧
                match es_update X (1 + calls classified.2) (e_id emailData) category with
                | Rejected err =>
                    last evs = Some (skipped_log email err) ∧
                    sink_calls evs = [] ∧
                    live_updates evs = []
                | Fulfilled _ =>
                    last evs = Some (processed_log emailData category) ∧
                    sink_calls evs
                    = (if bool_decide (category = "Interested") then
                         [(ChatSink, set_category emailData category);
                          (WebhookSink, set_category emailData category)]
                       else []) ∧
                    live_updates evs
                    = [("email-updates", "new-email",
                        {| lu_id := e_id emailData; lu_from := e_from emailData;
                           lu_subject := e_subject emailData; lu_category := category;
                           lu_date := e_date emailData |})]
                end
            | _ => False
            end
        end
    end.
Proof.
  intros Hcb.
  unfold processEmailMessage, indexEmail, updateEmailCategory, io_to_emit,
    classifier_state, built_message, clock_readings.
  fold (buffer_of msg). fold (attributes_of msg).
  step.
  destruct (simpleParser X (calls s) (buffer_of msg)) as [parsed|err]; step.
  2: { eexists. split; [reflexivity|]. by rewrite new_events_advance. }
  destruct (p_date parsed) as [date|] eqn:Hdate; cbn [from_option]; step.
  all: match goal with
       | |- context [EvIndex ?e] =>
           let d := eval cbn [e_date] in (e_date e) in
           let c := eval cbn [e_createdAt] in (e_createdAt e) in
           let u := eval cbn [e_updatedAt] in (e_updatedAt e) in
           assert (e = message_of email (attributes_of msg) parsed d c u) as Hmsg
             by (unfold message_of; rewrite Hdate; reflexivity);
           rewrite !Hmsg; clear Hmsg
       end.
  all: destruct (es_index X _ _) as [[]|err]; step.
  all: try (eexists; split; [reflexivity|]; rewrite new_events_advance; cbv zeta;
            by repeat split).
  all: run_categorizeEmail; step.
  all: rewrite <- ?Nat.add_assoc; cbn [Nat.add e_id set_category].
  all: destruct (es_update X _ _ _) as [[]|err]; step.
  all: try (eexists; split; [reflexivity|]; rewrite new_events_advance; cbv zeta;
            unfold stored, sink_calls, live_updates;
            split; [by project|]; split; [done|];
            split; [find_last|split; by project]).
  all: case_bool_decide as Hint; step.
  all: try (run_sendNotification; step; run_triggerWebhook; step).
  all: reach_callback Hcb; (split; [reflexivity|]); rewrite new_events_advance; cbv zeta.
  all: unfold stored, sink_calls, live_updates.
  all: split; [by project|]; split; [done|].
  all: split; [find_last|split; by project].
Qed.

(** The theorem on one message of a configured account, which the
    classifier finds [Interested]: both sinks are called and one event
    is published. *)
Lemma fan_out_by_category_witness :
  ∃ s1 emailData,
    processEmailMessage lead_world configured_slack configured_webhook
      lead_mail "a@x.com" 1%N (sync_callback "a@x.com" 1) initial_state
    = sync_callback "a@x.com" 1 s1 ∧
    stored (new_events initial_state s1) = [emailData] ∧
    e_id emailData = "a@x.com_7" ∧
    sink_calls (new_events initial_state s1)
    = [(ChatSink, set_category emailData "Interested");
       (WebhookSink, set_category emailData "Interested")] ∧
    live_updates (new_events initial_state s1)
    = [("email-updates", "new-email",
        {| lu_id := "a@x.com_7"; lu_from := ""; lu_subject := "hi";
           lu_category := "Interested"; lu_date := noon |})].
Proof.
  destruct (fan_out_by_category lead_world configured_slack configured_webhook
              lead_mail "a@x.com" 1%N (sync_callback "a@x.com" 1) initial_state
              (sync_callback_total "a@x.com" 1))
    as (s1 & Hrun & Hstored & _ & _ & Hsinks & Hlive).
  exists s1, (built_message lead_world "a@x.com" lead_mail subject_only initial_state).
  split; [exact Hrun|]. split; [exact Hstored|]. split; [reflexivity|].
  split; [exact Hsinks|exact Hlive].
Defined.

(** * Failure isolation within a sync *)





(** * What a method may add to the trace *)

Section Steps.

Context (R : relation state) `{!Reflexive R, !Transitive R}.

Lemma steps_ret {A} (a : A) : steps R (mret a : M A).
Proof. intros s. reflexivity. Qed.

Lemma steps_throw {A} (e : js_error) : steps R (throw e : M A).
Proof. intros s. reflexivity. Qed.

Lemma steps_bind {A B} (m : M A) (k : A → M B) :
  steps R m → (∀ a, steps R (k a)) → steps R (m ≫= k).
Proof.
  intros Hm Hk s. unfold mbind, M_bind, bind.
  pose proof (Hm s) as H1.
  destruct (m s) as [[a|e|] s1]; cbn [snd] in *; [|done..].
  etrans; [exact H1|]. apply Hk.
Qed.

Lemma steps_try_catch {A} (body : M A) (handler : js_error → M A) :
  steps R body → (∀ e, steps R (handler e)) → steps R (try_catch body handler).
Proof.
  intros Hm Hk s. unfold try_catch.
  pose proof (Hm s) as H1.
  destruct (body s) as [[a|e|] s1]; cbn [snd] in *; [done| |done].
  etrans; [exact H1|]. apply Hk.
Qed.

Lemma steps_detach (handler : M unit) : steps R handler → steps R (detach handler).
Proof. intros H s. exact (H s). Qed.

Lemma steps_modify (f : state → state) : (∀ s, R s (f s)) → steps R (modify f).
Proof. intros H s. apply H. Qed.

Lemma steps_get {A} (f : state → A) : steps R (get f).
Proof. intros s. reflexivity. Qed.

Lemma steps_await_promise (cell : state → option (settled unit)) :
  steps R (await_promise cell).
Proof. intros s. unfold await_promise. by destruct (cell s) as [[]|]. Qed.

End Steps.

#[local] Instance grown_by_refl (P : event → Prop) : Reflexive (grown_by P).
Proof. intros s. exists []. by rewrite app_nil_r. Qed.

#[local] Instance grown_by_trans (P : event → Prop) : Transitive (grown_by P).
Proof.
  intros s1 s2 s3 (evs1 & H1 & HP1) (evs2 & H2 & HP2).
  exists (evs1 ++ evs2). rewrite H2, H1, app_assoc. split; [done|].
  by apply Forall_app.
Qed.

Lemma grown_by_same (P : event → Prop) (s s' : state) :
  trace s' = trace s → grown_by P s s'.
Proof. intros H. exists []. by rewrite app_nil_r. Qed.

Section Emits.

Context (P : event → Prop).

Lemma emits_ret {A} (a : A) : emits P (mret a : M A).
Proof. apply steps_ret, _. Qed.

Lemma emits_throw {A} (e : js_error) : emits P (throw e : M A).
Proof. apply steps_throw, _. Qed.

Lemma emits_bind {A B} (m : M A) (k : A → M B) :
  emits P m → (∀ a, emits P (k a)) → emits P (m ≫= k).
Proof. apply steps_bind, _. Qed.

Lemma emits_try_catch {A} (body : M A) (handler : js_error → M A) :
  emits P body → (∀ e, emits P (handler e)) → emits P (try_catch body handler).
Proof. apply steps_try_catch, _. Qed.

Lemma emits_detach (handler : M unit) : emits P handler → emits P (detach handler).
Proof. apply steps_detach. Qed.

Lemma emits_tell (ev : event) : P ev → emits P (tell ev).
Proof. intros H s. exists [ev]. split; [done|]. by constructor. Qed.

Lemma emits_modify (f : state → state) :
  (∀ s, trace (f s) = trace s) → emits P (modify f).
Proof. intros H. apply steps_modify. intros s. by apply grown_by_same. Qed.

Lemma emits_get {A} (f : state → A) : emits P (get f).
Proof. apply steps_get, _. Qed.

Lemma emits_consult {A} (oracle : nat → A) : emits P (consult oracle).
Proof. intros s. by apply grown_by_same. Qed.

Lemma emits_await_promise (cell : state → option (settled unit)) :
  emits P (await_promise cell).
Proof. apply steps_await_promise, _. Qed.

Lemma emits_settle_sync (r : settled unit) : emits P (settle_sync r).
Proof. apply emits_modify. intros s. by destruct (sync_promise s). Qed.

Lemma emits_settle_conn (r : settled unit) : emits P (settle_conn r).
Proof. apply emits_modify. intros s. by destruct (conn_promise s). Qed.

End Emits.

Lemma emits_weaken {A} (P Q : event → Prop) (m : M A) :
  (∀ ev, P ev → Q ev) → emits P m → emits Q m.
Proof.
  intros HPQ Hm s. destruct (Hm s) as (evs & H & HP).
  exists evs. split; [done|]. by eapply Forall_impl.
Qed.

(** Going through a method, one construct at a time. *)
Ltac emits_go :=
  repeat
    (cbv zeta;
     lazymatch goal with
     | |- emits _ (mret _) => apply emits_ret
     | |- emits _ (throw _) => apply emits_throw
     | |- emits _ (_ ≫= _) => apply emits_bind; [|intros ?]
     | |- emits _ (try_catch _ _) => apply emits_try_catch; [|intros ?]
     | |- emits _ (detach _) => apply emits_detach
     | |- emits _ (tell _) => apply emits_tell; exact I
     | |- emits _ (modify _) => apply emits_modify; intros ?; reflexivity
     | |- emits _ (get _) => apply emits_get
     | |- emits _ (consult _) => apply emits_consult
     | |- emits _ (await_promise _) => apply emits_await_promise
     | |- emits _ (settle_sync _) => apply emits_settle_sync
     | |- emits _ (settle_conn _) => apply emits_settle_conn
     | |- emits _ (log _ _) => unfold log
     | |- emits _ (log_error _ _) => unfold log_error
     | |- emits _ (sleep _) => unfold sleep
     | |- emits _ new_Date => unfold new_Date
     | |- emits _ (new_Date _) => unfold new_Date
     | |- emits _ (await _) => unfold await
     | |- emits _ (io_to_emit _ _ _) => unfold io_to_emit
     | |- emits _ (match ?x with _ => _ end) => destruct x
     | |- emits _ (from_option _ _ ?o) => destruct o; cbn [from_option]
     | H : emits ?P ?m |- emits ?P ?m => exact H
     | H : ∀ a, emits ?P (?f a) |- emits ?P (?f _) => apply H
     | H : ∀ a b, emits ?P (?f a b) |- emits ?P (?f _ _) => apply H
     | H : ∀ a b c, emits ?P (?f a b c) |- emits ?P (?f _ _ _) => apply H
     end).

Lemma categorizeEmail_emits (X : Externals) (emailData : email_data) :
  emits pipeline_event (categorizeEmail X emailData).
Proof.
  unfold categorizeEmail, chat_completions_create, first_content_trimmed. emits_go.
Qed.

Lemma sendNotification_emits (X : Externals) (this : SlackService)
    (emailData : email_data) :
  emits pipeline_event (sendNotification X this emailData).
Proof. unfold sendNotification, axios_post_call. emits_go. Qed.

Lemma triggerWebhook_emits (X : Externals) (this : WebhookService)
    (emailData : email_data) :
  emits pipeline_event (triggerWebhook X this emailData).
Proof. unfold triggerWebhook, buildWebhookPayload, axios_post_call. emits_go. Qed.

Lemma processEmailMessage_emits (X : Externals) (slackService : SlackService)
    (webhookService : WebhookService) (msg : imap_message) (email : string)
    (seqno : N) (callback : M unit) :
  emits pipeline_event callback →
  emits pipeline_event
    (processEmailMessage X slackService webhookService msg email seqno callback).
Proof.
  intros Hcb.
  pose proof (categorizeEmail_emits X) as Hc.
  pose proof (sendNotification_emits X slackService) as Hs.
  pose proof (triggerWebhook_emits X webhookService) as Hw.
  unfold processEmailMessage, indexEmail, updateEmailCategory. emits_go.
Qed.

(** * The searches *)

Lemma sync_callback_emits (email : string) (results_length : nat) :
  emits pipeline_event (sync_callback email results_length).
Proof. unfold sync_callback. emits_go. Qed.

Lemma idle_callback_emits (email : string) (results_length : nat) :
  emits pipeline_event (idle_callback email results_length).
Proof. unfold idle_callback. emits_go. Qed.

Lemma sync_fetch_events_emits (X : Externals) (slackService : SlackService)
    (webhookService : WebhookService) (email : string) (results_length : nat)
    (events : list fetch_event) (error_armed end_armed : bool) :
  emits pipeline_event
    (sync_fetch_events X slackService webhookService email results_length events
       error_armed end_armed).
Proof.
  revert error_armed end_armed.
  induction events as [|[msg seqno|err|] events IH]; intros error_armed end_armed;
    cbn [sync_fetch_events]; emits_go.
  apply processEmailMessage_emits, sync_callback_emits.
Qed.

Lemma idle_fetch_events_emits (X : Externals) (slackService : SlackService)
    (webhookService : WebhookService) (email : string) (results_length : nat)
    (events : list fetch_event) :
  emits pipeline_event
    (idle_fetch_events X slackService webhookService email results_length events).
Proof.
  induction events as [|[msg seqno|err|] events IH];
    cbn [idle_fetch_events]; emits_go.
  apply processEmailMessage_emits, idle_callback_emits.
Qed.

Lemma syncEmails_search (X : Externals) (slackService : SlackService)
    (webhookService : WebhookService) (email : string) (imap : nat) (s : state) :
  imap_openBox X (calls s) imap = Fulfilled tt →
  ∃ rest,
    new_events s (syncEmails X slackService webhookService email imap s).2
    = EvOpenBox imap "INBOX" true
      :: EvSearch imap
           (SINCE (format_DD_MMM_YYYY (subtract_days (date_now X (1 + calls s)) 30)))
      :: rest ∧
    Forall fetch_or_pipeline_event rest.
Proof.
  intros Hopen. unfold new_events.
  unfold syncEmails, settle_sync, await_promise. step.
  cbn [calls with_sync_promise]. rewrite Hopen. step.
  cbn [calls with_sync_promise].
  destruct (imap_search X _ _ _) as [results|err]; step.
  - case_bool_decide; step.
    + eexists. cbn. rewrite drop_app_length. split; [reflexivity|].
      by repeat constructor.
    + match goal with
      | |- context [sync_fetch_events ?X ?a ?b ?c ?d ?e ?f ?g ?st] =>
          destruct (sync_fetch_events_emits X a b c d e f g st) as (evs & Hevs & HP);
          destruct (sync_fetch_events X a b c d e f g st) as [o s']
      end.
      cbn [snd] in Hevs.
      exists (EvLog LogInfo
                ("Found " +:+ pretty (length results) +:+ " emails for "
                 +:+ email +:+ ", processing...") None
              :: EvFetch imap results :: evs).
      split.
      * destruct o as [[]| |]; cbn [fst snd];
          try (destruct (sync_promise s') as [[]|]; cbn [snd]);
          rewrite Hevs; cbn; rewrite <- app_assoc; by rewrite drop_app_length.
      * repeat constructor.
        eapply Forall_impl; [exact HP|]. by intros [].
  - eexists. cbn. rewrite drop_app_length. split; [reflexivity|].
    by repeat constructor.
Qed.

Lemma idle_fetch_events_returns (X : Externals) (slackService : SlackService)
    (webhookService : WebhookService) (email : string) (results_length : nat)
    (events : list fetch_event) (s : state) :
  (idle_fetch_events X slackService webhookService email results_length events s).1
  = Returned tt.
Proof.
  revert s. induction events as [|[msg seqno|err|] events IH]; intros s;
    cbn [idle_fetch_events]; [done| |apply IH..].
  unfold mbind, M_bind, bind, detach. apply IH.
Qed.

Lemma checkForNewEmails_search (X : Externals) (slackService : SlackService)
    (webhookService : WebhookService) (email : string) (imap : nat) (s : state) :
  is_Some (connections s !! email) →
  ∃ s',
    checkForNewEmails X slackService webhookService email imap s = (Returned tt, s') ∧
    head (new_events s s') = Some (EvOpenBox imap "INBOX" true) ∧
    (imap_openBox X (calls s) imap = Fulfilled tt →
       searches (new_events s s')
       = [(imap, SINCE (format_DD_MMM_YYYY
                          (subtract_minutes (date_now X (1 + calls s)) 1)))]).
Proof.
  intros Hreg. unfold checkForNewEmails, new_events, searches. step.
  rewrite bool_decide_eq_true_2 by done. cbn [negb]. step.
  destruct (imap_openBox X (calls s) imap) as [[]|err]; step.
  2: { eexists. split; [reflexivity|]. cbn. rewrite !drop_app_length. by split. }
  destruct (imap_search X _ _ _) as [results|err]; step.
  2: { eexists. split; [reflexivity|]. cbn. rewrite !drop_app_length. by split. }
  case_bool_decide; step.
  2: { eexists. split; [reflexivity|]. cbn. rewrite !drop_app_length. by split. }
  match goal with
  | |- context [idle_fetch_events ?X ?a ?b ?c ?d ?e ?st] =>
      destruct (idle_fetch_events_emits X a b c d e st) as (evs & Hevs & HP);
      pose proof (idle_fetch_events_returns X a b c d e st) as Hret;
      destruct (idle_fetch_events X a b c d e st) as [o s']
  end.
  cbn [fst snd] in Hevs, Hret. subst o. exists s'. split; [reflexivity|].
  rewrite Hevs. cbn [trace with_processedCount advance with_calls with_trace].
  rewrite <- !app_assoc, drop_app_length. cbn [app head].
  split; [done|]. intros _. rewrite !omap_cons_run. cbn [from_option app].
  rewrite (omap_none_Forall _ pipeline_event) by quiet. done.
Qed.

Lemma since_matches (day t : Z) : matches (SINCE day) t = true ↔ day * DAY_MS ≤ t.
Proof.
  unfold matches, DAY_MS. rewrite bool_decide_eq_true. split.
  - intros H. pose proof (Z.mul_div_le t 86400000). nia.
  - intros H. apply Z.div_le_lower_bound; lia.
Qed.

Lemma day_start_bounds (t : Z) :
  t - DAY_MS < format_DD_MMM_YYYY t * DAY_MS ≤ t.
Proof.
  unfold format_DD_MMM_YYYY, DAY_MS.
  pose proof (Z.mul_div_le t 86400000).
  pose proof (Z.mul_succ_div_gt t 86400000). lia.
Qed.

(** C2, as stated, fails: both searches are keyed by a calendar day, not
    by an instant.  At noon the initial backfill also selects a message
    from 30 days and one hour ago, outside the trailing 30 days; and the
    incremental check selects a message from four hours ago, outside the
    trailing minute. *)
Lemma searches_are_by_calendar_day :
  searches (new_events initial_state
              (syncEmails empty_inbox_world unconfigured_slack unconfigured_webhook
                 "a@x.com" 0 initial_state).2)
  = [(0%nat, SINCE 19707)] ∧
  matches (SINCE 19707) (noon - 30 * DAY_MS - 3600000) = true ∧
  ¬ within_trailing noon (30 * DAY_MS) (noon - 30 * DAY_MS - 3600000) ∧
  searches (new_events registered
              (checkForNewEmails empty_inbox_world unconfigured_slack
                 unconfigured_webhook "a@x.com" 0 registered).2)
  = [(0%nat, SINCE 19737)] ∧
  matches (SINCE 19737) (noon - 4 * 3600000) = true ∧
  ¬ within_trailing noon 60000 (noon - 4 * 3600000).
Proof.
  split; [by vm_compute|]. split; [by vm_compute|].
  split; [unfold within_trailing, noon, DAY_MS; lia|].
  split; [by vm_compute|]. split; [by vm_compute|].
  unfold within_trailing, noon; lia.
Qed.

(** C2, amended: the initial backfill issues exactly one search, for the
    messages whose date is on or after the calendar day that lies 30
    days before the clock reading of the sync; that day starts at most
    30 days and less than 31 days before it.  The incremental check is
    registered with a period of 60000ms, and each tick of a registered
    account opens the same folder [INBOX] and, once it is open, issues
    one search on the same connection. *)
Theorem search_windows (X : Externals) (slackService : SlackService)
    (webhookService : WebhookService) (email : string) (imap : nat) (s : state) :
  (imap_openBox X (calls s) imap = Fulfilled tt →
     let now := date_now X (1 + calls s) in
     let day := format_DD_MMM_YYYY (subtract_days now 30) in
     searches (new_events s (syncEmails X slackService webhookService email imap s).2)
     = [(imap, SINCE day)] ∧
     (∀ t, matches (SINCE day) t = true ↔ day * DAY_MS ≤ t) ∧
     now - 31 * DAY_MS < day * DAY_MS ≤ now - 30 * DAY_MS) ∧
  intervals (new_events s (setupIdleMode email imap s).2) = [(60000, email, imap)] ∧
  (is_Some (connections s !! email) →
     let s' := (checkForNewEmails X slackService webhookService email imap s).2 in
     head (new_events s s') = Some (EvOpenBox imap "INBOX" true) ∧
     (imap_openBox X (calls s) imap = Fulfilled tt →
        ∃ key, searches (new_events s s') = [(imap, key)])).
Proof.
  split; [|split].
  - intros Hopen now day.
    destruct (syncEmails_search X slackService webhookService email imap s Hopen)
      as (rest & -> & Hrest).
    split; [|split].
    + unfold searches. rewrite !omap_cons_run. cbn [from_option app].
      rewrite (omap_none_Forall _ fetch_or_pipeline_event); [done| |done].
      by intros [] H.
    + intros t. apply since_matches.
    + pose proof (day_start_bounds (subtract_days now 30)) as H.
      fold day in H. unfold subtract_days in H. lia.
  - unfold setupIdleMode. step. by rewrite new_events_advance.
  - intros Hreg s'.
    destruct (checkForNewEmails_search X slackService webhookService email imap s Hreg)
      as (s1 & Hrun & Hhead & Hsearch).
    subst s'. rewrite Hrun. cbn [snd]. split; [done|]. eauto.
Qed.

(** The theorem on an account with an empty inbox, at noon. *)
Lemma search_windows_witness :
  searches (new_events initial_state
              (syncEmails empty_inbox_world unconfigured_slack unconfigured_webhook
                 "a@x.com" 0 initial_state).2)
  = [(0%nat, SINCE 19707)] ∧
  head (new_events registered
          (checkForNewEmails empty_inbox_world unconfigured_slack
             unconfigured_webhook "a@x.com" 0 registered).2)
  = Some (EvOpenBox 0 "INBOX" true).
Proof.
  destruct (search_windows empty_inbox_world unconfigured_slack unconfigured_webhook
              "a@x.com" 0 initial_state) as (Hsync & _ & _).
  destruct (search_windows empty_inbox_world unconfigured_slack unconfigured_webhook
              "a@x.com" 0 registered) as (_ & _ & Htick).
  split.
  - destruct (Hsync eq_refl) as (Hs & _). exact Hs.
  - destruct Htick as (Hh & _); [|exact Hh]. by eexists.
Defined.

(** * The running flag *)

(** C10: on every instance, whatever its state, the own property
    [isRunning] assigned by the constructor is what a read of
    [isRunning] finds, the method of the same name on the prototype is
    shadowed, and calling [isRunning()] throws a TypeError instead of
    returning the flag; so does the [/health] handler. *)
Theorem isRunning_call_throws (s : state) :
  prototype (imapSyncService s) !! "isRunning" = Some (VMethod "isRunning") ∧
  get_property (imapSyncService s) "isRunning" = VBoolean (isRunning s) ∧
  call_method (imapSyncService s) "isRunning"
    = Thrown (JsTypeError "isRunning is not a function") ∧
  (∀ X slackService webhookService,
     call_method (imapSyncService (start X slackService webhookService s).2) "isRunning"
       = Thrown (JsTypeError "isRunning is not a function") ∧
     call_method (imapSyncService (stop X s).2) "isRunning"
       = Thrown (JsTypeError "isRunning is not a function")) ∧
  (∀ connected, ∃ msg, health_services connected s = Thrown (JsTypeError msg)).
Proof.
  split; [reflexivity|]. split; [reflexivity|]. split; [reflexivity|].
  split; [intros; split; reflexivity|].
  intros connected. by eexists.
Qed.

(** * Shutdown *)

(** The body of the loop of [stop]. *)
Lemma stop_body_run (X : Externals) (email : string) (connection : nat) (s : state) :
  ∃ logged,
    try_catch
      (connection_end X connection;;
       log LogInfo ("Closed connection for " +:+ email))
      (λ error,
         log_error ("Error closing connection for " +:+ email +:+ ":") error) s
    = (Returned tt, advance s [EvImapEnd connection; logged] 1) ∧
    is_log logged.
Proof.
  unfold connection_end. step.
  destruct (imap_end X (calls s) connection) as [err|]; cbn [from_option]; step;
    by eexists.
Qed.

Lemma stop_loop_run (X : Externals) (entries : list (string * nat)) (s : state) :
  ∃ evs n,
    for_of entries (λ entry,
      try_catch
        (connection_end X entry.2;;
         log LogInfo ("Closed connection for " +:+ entry.1))
        (λ error,
           log_error ("Error closing connection for " +:+ entry.1 +:+ ":") error)) s
    = (Returned tt, advance s evs n) ∧
    Forall stop_event evs ∧
    imap_ends evs = entries.*2.
Proof.
  revert s. induction entries as [|[email connection] entries IH]; intros s.
  - exists [], 0%nat. cbn. by rewrite advance_0.
  - cbn [for_of fst snd].
    destruct (stop_body_run X email connection s) as (logged & Hbody & Hlog).
    rewrite bind_run, Hbody.
    destruct (IH (advance s [EvImapEnd connection; logged] 1))
      as (evs & n & -> & Hevs & Hends).
    rewrite advance_advance. eexists _, _. split; [reflexivity|]. split.
    + cbn [app]. repeat constructor; [by destruct logged|done].
    + unfold imap_ends in *. cbn [app]. rewrite !omap_cons_run, Hends.
      by destruct logged.
Qed.

Lemma stop_run (X : Externals) (s : state) :
  ∃ s' evs,
    stop X s = (Returned tt, s') ∧
    connections s' = ∅ ∧
    isRunning s' = false ∧
    trace s' = trace s ++ evs ∧
    Forall stop_event evs ∧
    imap_ends evs = (map_to_list (connections s)).*2.
Proof.
  unfold stop. step.
  match goal with
  | |- context [for_of ?es ?body ?st] =>
      destruct (stop_loop_run X es st) as (evs & n & Hrun & Hevs & Hends);
      replace (for_of es body st) with (Returned tt, advance st evs n)
        by (symmetry; exact Hrun)
  end.
  step.
  exists (advance
            (with_connections (λ _, ∅)
               (advance (with_isRunning false
                           (advance s [EvLog LogInfo "Stopping IMAP sync service..." None] 0))
                  evs n))
            [EvLog LogInfo "IMAP sync service stopped" None] 0),
    (EvLog LogInfo "Stopping IMAP sync service..." None
     :: evs ++ [EvLog LogInfo "IMAP sync service stopped" None]).
  split; [reflexivity|]. split; [reflexivity|]. split; [reflexivity|].
  split; [cbn; by rewrite <- !app_assoc|]. split.
  - repeat constructor. apply Forall_app. split; [done|by repeat constructor].
  - unfold imap_ends in *. rewrite !omap_cons_run, omap_app, Hends. cbn.
    by rewrite app_nil_r.
Qed.

Lemma deliver_after_stop (X : Externals) (slackService : SlackService)
    (webhookService : WebhookService) (ev : later_event) (s : state) :
  connections s = ∅ →
  not_ready ev →
  ∃ s' evs,
    deliver X slackService webhookService ev s = (Returned tt, s') ∧
    connections s' = ∅ ∧
    trace s' = trace s ++ evs ∧
    Forall is_log evs.
Proof.
  intros Hnone Hev. destruct ev as [email imap|email|email imap|email err];
    cbn [deliver]; [| |done|].
  - exists s, []. unfold detach, checkForNewEmails. step.
    rewrite Hnone, lookup_empty.
    rewrite bool_decide_eq_false_2 by (by intros [??]). cbn.
    by rewrite app_nil_r.
  - unfold on_end. step. eexists _, _. split; [reflexivity|].
    cbn. rewrite Hnone. split; [apply delete_empty|].
    split; [reflexivity|]. by repeat constructor.
  - unfold on_error, settle_conn. step.
    cbn [conn_promise advance with_calls with_trace].
    exists (modify (λ s0, if conn_promise s0 is None
                          then with_conn_promise (Some (Rejected err)) s0 else s0)
              (advance s [EvLog LogError ("IMAP connection error for " +:+ email +:+ ":")
                            (Some err)] 0)).2,
      [EvLog LogError ("IMAP connection error for " +:+ email +:+ ":") (Some err)].
    unfold modify. cbn [snd conn_promise advance with_calls with_trace].
    destruct (conn_promise s); by repeat constructor.
Qed.

Lemma deliveries_after_stop (X : Externals) (slackService : SlackService)
    (webhookService : WebhookService) (later : list later_event) (s : state) :
  connections s = ∅ →
  Forall not_ready later →
  ∃ s' evs,
    for_of later (deliver X slackService webhookService) s = (Returned tt, s') ∧
    connections s' = ∅ ∧
    trace s' = trace s ++ evs ∧
    Forall is_log evs.
Proof.
  intros Hnone Hlater. revert s Hnone.
  induction Hlater as [|ev later Hev _ IH]; intros s Hnone.
  - exists s, []. by rewrite app_nil_r.
  - cbn [for_of].
    destruct (deliver_after_stop X slackService webhookService ev s Hnone Hev)
      as (s1 & evs1 & Hrun & Hnone1 & Htrace1 & Hlog1).
    rewrite bind_run, Hrun.
    destruct (IH s1 Hnone1) as (s' & evs & -> & Hnone' & Htrace & Hlog).
    exists s', (evs1 ++ evs). split; [done|]. split; [done|].
    split; [by rewrite Htrace, Htrace1, app_assoc|]. by apply Forall_app.
Qed.

(** ** A session that becomes ready *)

#[local] Instance keeps_registry_refl : Reflexive keeps_registry.
Proof. by intros s. Qed.

#[local] Instance keeps_registry_trans : Transitive keeps_registry.
Proof. intros s1 s2 s3 H1 H2. unfold keeps_registry in *. congruence. Qed.

Lemma registry_settle_sync (r : settled unit) : steps keeps_registry (settle_sync r).
Proof. intros s. unfold settle_sync, modify. cbn [snd]. by destruct (sync_promise s). Qed.

Lemma registry_settle_conn (r : settled unit) : steps keeps_registry (settle_conn r).
Proof. intros s. unfold settle_conn, modify. cbn [snd]. by destruct (conn_promise s). Qed.

Ltac registry_go :=
  repeat
    (cbv zeta;
     lazymatch goal with
     | |- steps _ (mret _) => apply steps_ret, _
     | |- steps _ (throw _) => apply steps_throw, _
     | |- steps _ (_ ≫= _) => apply steps_bind; [apply _| |intros ?]
     | |- steps _ (try_catch _ _) => apply steps_try_catch; [apply _| |intros ?]
     | |- steps _ (detach _) => apply steps_detach
     | |- steps _ (tell _) => by intros ?
     | |- steps _ (modify _) => by intros ?
     | |- steps _ (get _) => apply steps_get, _
     | |- steps _ (consult _) => by intros ?
     | |- steps _ (await_promise _) => apply steps_await_promise, _
     | |- steps _ (settle_sync _) => apply registry_settle_sync
     | |- steps _ (settle_conn _) => apply registry_settle_conn
     | |- steps _ (log _ _) => unfold log
     | |- steps _ (log_error _ _) => unfold log_error
     | |- steps _ (sleep _) => unfold sleep
     | |- steps _ new_Date => unfold new_Date
     | |- steps _ (new_Date _) => unfold new_Date
     | |- steps _ (await _) => unfold await
     | |- steps _ (io_to_emit _ _ _) => unfold io_to_emit
     | |- steps _ (match ?x with _ => _ end) => destruct x
     | |- steps _ (from_option _ _ ?o) => destruct o; cbn [from_option]
     | H : steps ?R ?m |- steps ?R ?m => exact H
     | H : ∀ a, steps ?R (?f a) |- steps ?R (?f _) => apply H
     | H : ∀ a b, steps ?R (?f a b) |- steps ?R (?f _ _) => apply H
     | H : ∀ a b c, steps ?R (?f a b c) |- steps ?R (?f _ _ _) => apply H
     end).

Lemma processEmailMessage_registry (X : Externals) (slackService : SlackService)
    (webhookService : WebhookService) (msg : imap_message) (email : string)
    (seqno : N) (callback : M unit) :
  steps keeps_registry callback →
  steps keeps_registry
    (processEmailMessage X slackService webhookService msg email seqno callback).
Proof.
  intros Hcb.
  unfold processEmailMessage, indexEmail, updateEmailCategory, categorizeEmail,
    chat_completions_create, first_content_trimmed, sendNotification,
    triggerWebhook, buildWebhookPayload, axios_post_call.
  registry_go.
Qed.

Lemma sync_fetch_events_registry (X : Externals) (slackService : SlackService)
    (webhookService : WebhookService) (email : string) (results_length : nat)
    (events : list fetch_event) (error_armed end_armed : bool) :
  steps keeps_registry
    (sync_fetch_events X slackService webhookService email results_length events
       error_armed end_armed).
Proof.
  revert error_armed end_armed.
  induction events as [|[msg seqno|err|] events IH]; intros error_armed end_armed;
    cbn [sync_fetch_events]; registry_go.
  apply processEmailMessage_registry. unfold sync_callback. registry_go.
Qed.

Lemma syncEmails_registry (X : Externals) (slackService : SlackService)
    (webhookService : WebhookService) (email : string) (imap : nat) :
  steps keeps_registry (syncEmails X slackService webhookService email imap).
Proof.
  pose proof (sync_fetch_events_registry X slackService webhookService email) as H.
  unfold syncEmails. registry_go. apply H.
Qed.

(** The ['ready'] handler puts the session into the registry, and
    nothing it does afterwards takes it out. *)
Lemma on_ready_registers (X : Externals) (slackService : SlackService)
    (webhookService : WebhookService) (email : string) (imap : nat) (s : state) :
  connections (on_ready X slackService webhookService email imap s).2
  = <[email := imap]> (connections s).
Proof.
  pose proof (syncEmails_registry X slackService webhookService email imap) as Hsync.
  assert (steps keeps_registry
            (try_catch
               (syncEmails X slackService webhookService email imap;;
                setupIdleMode email imap;;
                settle_conn (Fulfilled tt))
               (λ error,
                  log_error ("Error during initial sync for " +:+ email +:+ ":") error;;
                  settle_conn (Rejected error)))) as Hrest
    by (unfold setupIdleMode; registry_go).
  unfold on_ready.
  rewrite (bind_returned _ _ s tt
             (advance s [EvLog LogInfo ("Connected to IMAP for " +:+ email) None] 0))
    by reflexivity.
  rewrite (bind_returned _ _ _ tt
             (with_connections (insert email imap)
                (advance s [EvLog LogInfo ("Connected to IMAP for " +:+ email) None] 0)))
    by reflexivity.
  by rewrite Hrest.
Qed.

(** C9, as stated, fails, in three ways.  [stop] does not wait for any
    acknowledgement: with one session registered, it has called [end()]
    on it and returned while the session's ['end'] handler has not run;
    the acknowledgement is there only once the event loop has delivered
    that event.  [stop] does not end every account's session: called
    while [start] waits for a connection to become ready, it finds the
    registry empty and calls [end()] on nothing.  And that session is
    used after the stop: once its ['ready'] event is delivered it is
    registered, backfilled with a search and polled, and its next tick
    searches again. *)
Lemma stop_returns_before_acknowledgement :
  (let stopped := stop empty_inbox_world registered in
   stopped.1 = Returned tt ∧
   imap_ends (new_events registered stopped.2) = [0%nat] ∧
   ¬ acknowledged "a@x.com" (trace stopped.2) ∧
   acknowledged "a@x.com"
     (trace (deliver empty_inbox_world unconfigured_slack unconfigured_webhook
               (ConnectionEnded "a@x.com") stopped.2).2)) ∧
  (let run := start connecting_world unconfigured_slack unconfigured_webhook in
   let deliver := deliver connecting_world unconfigured_slack unconfigured_webhook in
   let stopped := stop connecting_world connecting in
   let ready := (deliver (ConnectionReady "a@x.com" 0%nat) stopped.2).2 in
   let ticked := (deliver (Tick "a@x.com" 0%nat) ready).2 in
   (run initial_state).1 = Pending ∧
   connects (trace connecting) = [(0%nat, "a@x.com", "secret")] ∧
   connections connecting = ∅ ∧
   stopped.1 = Returned tt ∧
   imap_ends (new_events connecting stopped.2) = [] ∧
   connections ready !! "a@x.com" = Some 0%nat ∧
   length (searches (new_events stopped.2 ready)) = 1%nat ∧
   intervals (new_events stopped.2 ready) = [(60000, "a@x.com", 0%nat)] ∧
   length (searches (new_events ready ticked)) = 1%nat).
Proof.
  split.
  - split; [by vm_compute|]. split; [by vm_compute|]. unfold acknowledged. split.
    + apply (bool_decide_eq_false_1 _). by vm_compute.
    + apply (bool_decide_eq_true_1 _). by vm_compute.
  - cbv zeta. repeat split; by vm_compute.
Qed.

(** C9, amended: [stop] never throws and waits for nothing.  It calls
    [end()] on the sessions that are in the registry, and on no other,
    empties the registry, clears the running flag and returns; it
    interacts with nothing but the logger and those [end()] calls.
    Afterwards, as long as no session becomes ready, the registry stays
    empty and whatever ticks, ['end'] and ['error'] events the event
    loop delivers, no tick opens a folder, searches, fetches or
    processes a message: only log lines are added.  A session whose
    ['ready'] event is delivered after [stop] is registered again, and
    its next tick opens the inbox. *)
Theorem stop_ends_sessions (X : Externals) (slackService : SlackService)
    (webhookService : WebhookService) (later : list later_event) (s : state) :
  ∃ s',
    stop X s = (Returned tt, s') ∧
    connections s' = ∅ ∧
    isRunning s' = false ∧
    Forall stop_event (new_events s s') ∧
    (∀ connection,
       connection ∈ imap_ends (new_events s s') ↔
       ∃ email, connections s !! email = Some connection) ∧
    (Forall not_ready later →
     ∃ s'',
       for_of later (deliver X slackService webhookService) s' = (Returned tt, s'') ∧
       connections s'' = ∅ ∧
       Forall is_log (new_events s' s'')) ∧
    (∀ email imap,
       let ready :=
         (deliver X slackService webhookService (ConnectionReady email imap) s').2 in
       let ticked := (deliver X slackService webhookService (Tick email imap) ready).2 in
       connections ready = {[ email := imap ]} ∧
       head (new_events ready ticked) = Some (EvOpenBox imap "INBOX" true)).
Proof.
  destruct (stop_run X s) as (s' & evs & Hstop & Hnone & Hflag & Htrace & Hevs & Hends).
  exists s'. split; [done|]. split; [done|]. split; [done|].
  split; [|split; [|split]].
  - unfold new_events. by rewrite Htrace, drop_app_length.
  - intros connection. unfold new_events. rewrite Htrace, drop_app_length, Hends.
    rewrite list_elem_of_fmap. split.
    + intros ([email connection'] & -> & Hin). exists email.
      by apply elem_of_map_to_list.
    + intros (email & Hreg). exists (email, connection). split; [done|].
      by apply elem_of_map_to_list.
  - intros Hlater.
    destruct (deliveries_after_stop X slackService webhookService later s' Hnone Hlater)
      as (s'' & evs' & Hrun & Hnone' & Htrace' & Hlog).
    exists s''. unfold new_events. rewrite Htrace', drop_app_length. by repeat split.
  - intros email imap ready ticked.
    assert (connections ready = {[ email := imap ]}) as Hready.
    { subst ready. cbn [deliver]. unfold detach. cbn [snd].
      by rewrite on_ready_registers, Hnone, insert_empty. }
    split; [exact Hready|].
    destruct (checkForNewEmails_search X slackService webhookService email imap ready)
      as (s2 & Hrun & Hhead & _).
    { rewrite Hready, lookup_singleton_eq. by eexists. }
    subst ticked. cbn [deliver]. unfold detach. cbn [snd]. by rewrite Hrun.
Qed.

(** * Starting the accounts *)

#[local] Instance settled_stays_refl : Reflexive settled_stays.
Proof. intros s. by split. Qed.

#[local] Instance settled_stays_trans : Transitive settled_stays.
Proof.
  intros s1 s2 s3 [Ht1 Hp1] [Ht2 Hp2]. split; [by etrans|]. eauto.
Qed.

#[local] Instance keeps_promise_refl : Reflexive keeps_promise.
Proof. intros s. by split. Qed.

#[local] Instance keeps_promise_trans : Transitive keeps_promise.
Proof.
  intros s1 s2 s3 [Ht1 Hp1] [Ht2 Hp2]. split; [by etrans|]. by rewrite Hp2.
Qed.

Lemma keeps_promise_stays (s s' : state) : keeps_promise s s' → settled_stays s s'.
Proof. intros [Ht Hp]. split; [done|]. intros p. by rewrite Hp. Qed.

Lemma steps_weaken {A} (R R' : relation state) (m : M A) :
  (∀ s s', R s s' → R' s s') → steps R m → steps R' m.
Proof. intros HR Hm s. apply HR, Hm. Qed.

Lemma keeps_tell (ev : event) : steps keeps_promise (tell ev).
Proof. intros s. split; [by apply prefix_app_r|done]. Qed.

Lemma keeps_consult {A} (oracle : nat → A) : steps keeps_promise (consult oracle).
Proof. intros s. by split. Qed.

Lemma keeps_settle_sync (r : settled unit) : steps keeps_promise (settle_sync r).
Proof.
  intros s. unfold settle_sync, modify. cbn [snd].
  destruct (sync_promise s); by split.
Qed.

Lemma stays_tell (ev : event) : steps settled_stays (tell ev).
Proof. intros s. split; [by apply prefix_app_r|done]. Qed.

Lemma stays_consult {A} (oracle : nat → A) : steps settled_stays (consult oracle).
Proof. intros s. by split. Qed.

Lemma stays_settle_sync (r : settled unit) : steps settled_stays (settle_sync r).
Proof.
  intros s. unfold settle_sync, modify. cbn [snd].
  destruct (sync_promise s); by split.
Qed.

Lemma stays_settle_conn (r : settled unit) : steps settled_stays (settle_conn r).
Proof.
  intros s. unfold settle_conn, modify. cbn [snd].
  destruct (conn_promise s) as [p|] eqn:Hp; split; try done.
  intros p. by rewrite Hp.
Qed.

Ltac stays_go :=
  repeat
    (cbv zeta;
     lazymatch goal with
     | |- steps _ (mret _) => apply steps_ret, _
     | |- steps _ (throw _) => apply steps_throw, _
     | |- steps _ (_ ≫= _) => apply steps_bind; [apply _| |intros ?]
     | |- steps _ (try_catch _ _) => apply steps_try_catch; [apply _| |intros ?]
     | |- steps _ (detach _) => apply steps_detach
     | |- steps _ (tell _) => first [apply keeps_tell | apply stays_tell]
     | |- steps _ (modify _) => apply steps_modify; intros ?; by split
     | |- steps _ (get _) => apply steps_get, _
     | |- steps _ (consult _) => first [apply keeps_consult | apply stays_consult]
     | |- steps _ (await_promise _) => apply steps_await_promise, _
     | |- steps _ (settle_sync _) => first [apply keeps_settle_sync | apply stays_settle_sync]
     | |- steps _ (settle_conn _) => apply stays_settle_conn
     | |- steps _ (log _ _) => unfold log
     | |- steps _ (log_error _ _) => unfold log_error
     | |- steps _ (sleep _) => unfold sleep
     | |- steps _ new_Date => unfold new_Date
     | |- steps _ (new_Date _) => unfold new_Date
     | |- steps _ (await _) => unfold await
     | |- steps _ (io_to_emit _ _ _) => unfold io_to_emit
     | |- steps _ (match ?x with _ => _ end) => destruct x
     | |- steps _ (from_option _ _ ?o) => destruct o; cbn [from_option]
     | H : steps ?R ?m |- steps ?R ?m => exact H
     | H : ∀ a, steps ?R (?f a) |- steps ?R (?f _) => apply H
     | H : ∀ a b, steps ?R (?f a b) |- steps ?R (?f _ _) => apply H
     | H : ∀ a b c, steps ?R (?f a b c) |- steps ?R (?f _ _ _) => apply H
     end).

Lemma processEmailMessage_keeps (X : Externals) (slackService : SlackService)
    (webhookService : WebhookService) (msg : imap_message) (email : string)
    (seqno : N) (callback : M unit) :
  steps keeps_promise callback →
  steps keeps_promise
    (processEmailMessage X slackService webhookService msg email seqno callback).
Proof.
  intros Hcb.
  unfold processEmailMessage, indexEmail, updateEmailCategory, categorizeEmail,
    chat_completions_create, first_content_trimmed, sendNotification,
    triggerWebhook, buildWebhookPayload, axios_post_call.
  stays_go.
Qed.

Lemma sync_fetch_events_keeps (X : Externals) (slackService : SlackService)
    (webhookService : WebhookService) (email : string) (results_length : nat)
    (events : list fetch_event) (error_armed end_armed : bool) :
  steps keeps_promise
    (sync_fetch_events X slackService webhookService email results_length events
       error_armed end_armed).
Proof.
  revert error_armed end_armed.
  induction events as [|[msg seqno|err|] events IH]; intros error_armed end_armed;
    cbn [sync_fetch_events]; stays_go.
  apply processEmailMessage_keeps. unfold sync_callback. stays_go.
Qed.

Lemma syncEmails_keeps (X : Externals) (slackService : SlackService)
    (webhookService : WebhookService) (email : string) (imap : nat) :
  steps keeps_promise (syncEmails X slackService webhookService email imap).
Proof.
  pose proof (sync_fetch_events_keeps X slackService webhookService email) as H.
  unfold syncEmails. stays_go. apply H.
Qed.

Lemma on_ready_stays (X : Externals) (slackService : SlackService)
    (webhookService : WebhookService) (email : string) (imap : nat) :
  steps settled_stays (on_ready X slackService webhookService email imap).
Proof.
  pose proof (steps_weaken _ _ _ keeps_promise_stays
                (syncEmails_keeps X slackService webhookService email imap)) as H.
  unfold on_ready, setupIdleMode. stays_go.
Qed.

Lemma conn_events_stays (X : Externals) (slackService : SlackService)
    (webhookService : WebhookService) (email : string) (imap : nat)
    (events : list conn_event) (ready_armed error_armed end_armed : bool) :
  steps settled_stays
    (conn_events X slackService webhookService email imap events
       ready_armed error_armed end_armed).
Proof.
  pose proof (on_ready_stays X slackService webhookService email imap) as H.
  revert ready_armed error_armed end_armed.
  induction events as [|[|err|] events IH]; intros ready_armed error_armed end_armed;
    cbn [conn_events]; unfold on_error, on_end; stays_go.
Qed.

Lemma backfilled_mono (X : Externals) (slackService : SlackService)
    (webhookService : WebhookService) (email : string) (s0 s1 s2 s3 : state) :
  backfilled X slackService webhookService email s1 s2 →
  trace s0 `prefix_of` trace s1 → trace s2 `prefix_of` trace s3 →
  backfilled X slackService webhookService email s0 s3.
Proof.
  intros (imap & sa & sb & Ha & Hb & Hrun) H01 H23.
  exists imap, sa, sb. split; [by etrans|]. split; [by etrans|done].
Qed.

Lemma on_ready_backfilled (X : Externals) (slackService : SlackService)
    (webhookService : WebhookService) (email : string) (imap : nat) (s0 s : state) :
  fulfilled_means_backfilled X slackService webhookService email s0 s →
  fulfilled_means_backfilled X slackService webhookService email s0
    (on_ready X slackService webhookService email imap s).2.
Proof.
  intros [Hpre Hinv].
  unfold on_ready, setupIdleMode, settle_conn. step.
  set (sr := with_connections <[email:=imap]>
               (advance s [EvLog LogInfo ("Connected to IMAP for " +:+ email) None] 0)).
  pose proof (syncEmails_keeps X slackService webhookService email imap sr)
    as [Hsync Hkeep].
  assert (trace s0 `prefix_of` trace sr) as Hsr.
  { etrans; [exact Hpre|]. by apply prefix_app_r. }
  change (conn_promise sr) with (conn_promise s) in Hkeep.
  destruct (syncEmails X slackService webhookService email imap sr)
    as [[[]|e|] sb] eqn:Hrun; step; cbn [snd] in *.
  - cbn [conn_promise advance with_calls with_trace].
    destruct (conn_promise sb) as [p|] eqn:Hp.
    + split; [etrans; [exact Hsr|]; etrans; [exact Hsync|]; by apply prefix_app_r|].
      intros _. exists imap, sr, sb. split; [done|]. split; [|done].
      by apply prefix_app_r.
    + split; [etrans; [exact Hsr|]; etrans; [exact Hsync|]; by apply prefix_app_r|].
      intros _. exists imap, sr, sb. split; [done|]. split; [|done].
      by apply prefix_app_r.
  - cbn [conn_promise advance with_calls with_trace].
    assert (trace s `prefix_of` trace sb ++ [EvLog LogError
              ("Error during initial sync for " +:+ email +:+ ":") (Some e)]) as Hs.
    { trans (trace sr); [by apply prefix_app_r|].
      trans (trace sb); [done|]. by apply prefix_app_r. }
    destruct (conn_promise sb) as [p|] eqn:Hp.
    + split; [trans (trace s); [done|exact Hs]|].
      change (conn_promise (advance sb ?evs ?n)) with (conn_promise sb).
      rewrite Hp, Hkeep. intros Hf.
      eapply backfilled_mono; [apply Hinv; congruence|done|exact Hs].
    + split; [trans (trace s); [done|exact Hs]|]. done.
  - assert (trace s `prefix_of` trace sb) as Hs.
    { trans (trace sr); [by apply prefix_app_r|done]. }
    split; [by trans (trace s)|]. rewrite Hkeep. intros Hf.
    eapply backfilled_mono; [by apply Hinv|done|done].
Qed.

Lemma conn_events_returns (X : Externals) (slackService : SlackService)
    (webhookService : WebhookService) (email : string) (imap : nat)
    (events : list conn_event) (ready_armed error_armed end_armed : bool) (s : state) :
  (conn_events X slackService webhookService email imap events
     ready_armed error_armed end_armed s).1 = Returned tt.
Proof.
  revert ready_armed error_armed end_armed s.
  induction events as [|[|err|] events IH]; intros ready_armed error_armed end_armed s;
    cbn [conn_events]; [done|..]; rewrite bind_run.
  - destruct ready_armed; unfold detach; apply IH.
  - destruct error_armed; unfold on_error, settle_conn; step; apply IH.
  - destruct end_armed; unfold on_end; step; apply IH.
Qed.

Lemma conn_events_backfilled (X : Externals) (slackService : SlackService)
    (webhookService : WebhookService) (email : string) (imap : nat)
    (events : list conn_event) (ready_armed error_armed end_armed : bool)
    (s0 s : state) :
  fulfilled_means_backfilled X slackService webhookService email s0 s →
  fulfilled_means_backfilled X slackService webhookService email s0
    (conn_events X slackService webhookService email imap events
       ready_armed error_armed end_armed s).2.
Proof.
  revert ready_armed error_armed end_armed s.
  induction events as [|[|err|] events IH]; intros ready_armed error_armed end_armed s Hinv;
    cbn [conn_events]; [done|..]; rewrite bind_run.
  - destruct ready_armed; unfold detach.
    + apply IH. by apply on_ready_backfilled.
    + by apply IH.
  - destruct error_armed; [|by apply IH].
    unfold on_error, settle_conn. step. apply IH.
    destruct Hinv as [Hpre Hinv]. cbn [conn_promise advance with_calls with_trace].
    destruct (conn_promise s) as [p|] eqn:Hp.
    + split; [trans (trace s); [done|by apply prefix_app_r]|].
      change (conn_promise (advance s ?evs ?n)) with (conn_promise s).
      rewrite Hp. intros Hf. eapply backfilled_mono; [by apply Hinv|done|].
      by apply prefix_app_r.
    + split; [trans (trace s); [done|by apply prefix_app_r]|]. done.
  - destruct end_armed; [|by apply IH].
    unfold on_end. step. apply IH.
    destruct Hinv as [Hpre Hinv].
    split; [trans (trace s); [done|by apply prefix_app_r]|].
    intros Hf. eapply backfilled_mono; [by apply Hinv|done|by apply prefix_app_r].
Qed.

Lemma initializeConnection_backfilled (X : Externals) (slackService : SlackService)
    (webhookService : WebhookService) (email password : string) (s s' : state) :
  initializeConnection X slackService webhookService email password s
    = (Returned tt, s') →
  backfilled X slackService webhookService email s s'.
Proof.
  unfold initializeConnection, await_promise. step.
  match goal with
  | |- context [conn_events ?X ?a ?b ?c ?d ?e ?f ?g ?h ?st] =>
      pose proof (conn_events_returns X a b c d e f g h st) as Hret;
      pose proof (conn_events_backfilled X a b c d e f g h s st) as Hinv;
      destruct (conn_events X a b c d e f g h st) as [o s1]
  end.
  cbn [fst snd] in *. subst o.
  destruct Hinv as [Hpre Hinv].
  { split; [by apply prefix_app_r|done]. }
  destruct (conn_promise s1) as [[[]|err]|] eqn:Hp; [|done..].
  intros [= <-]. by apply Hinv.
Qed.

Lemma initializeConnection_grows (X : Externals) (slackService : SlackService)
    (webhookService : WebhookService) (email password : string) (s : state) :
  trace s `prefix_of`
    trace (initializeConnection X slackService webhookService email password s).2.
Proof.
  unfold initializeConnection, await_promise. step.
  match goal with
  | |- context [conn_events ?X ?a ?b ?c ?d ?e ?f ?g ?h ?st] =>
      pose proof (conn_events_stays X a b c d e f g h st) as [Hgrow _];
      destruct (conn_events X a b c d e f g h st) as [[[]|err|] s1]
  end; cbn [fst snd] in *.
  - trans (trace s1); [etrans; [|exact Hgrow]; by apply prefix_app_r|].
    by destruct (conn_promise s1) as [[[]|?]|].
  - etrans; [|exact Hgrow]. by apply prefix_app_r.
  - etrans; [|exact Hgrow]. by apply prefix_app_r.
Qed.

Lemma start_run (X : Externals) (slackService : SlackService)
    (webhookService : WebhookService) (s : state) :
  let emailAccounts := env_list (env_EMAIL_ACCOUNTS X) in
  let emailPasswords := env_list (env_EMAIL_PASSWORDS X) in
  let begun := advance s [EvLog LogInfo "Starting IMAP sync service..." None] 0 in
  let failed error s1 :=
    advance s1 [EvLog LogError "Failed to start IMAP sync service:" (Some error)] 0 in
  start X slackService webhookService s
  = if bool_decide (length emailAccounts = 0%nat) then
      let error := JsError "No email accounts configured" in
      (Thrown error, failed error begun)
    else if bool_decide (length emailAccounts ≠ length emailPasswords) then
      let error := JsError "Email accounts and passwords count mismatch" in
      (Thrown error, failed error begun)
    else
      match for_of (zip emailAccounts emailPasswords)
              (connect_account X slackService webhookService) begun with
      | (Returned _, s1) =>
          (Returned tt,
           advance (with_isRunning true s1)
             [EvLog LogInfo "IMAP sync service started successfully" None] 0)
      | (Thrown error, s1) => (Thrown error, failed error s1)
      | (Pending, s1) => (Pending, s1)
      end.
Proof.
  intros emailAccounts emailPasswords begun failed.
  unfold start. fold emailAccounts emailPasswords. step. fold begun.
  case_bool_decide; step; [done|].
  case_bool_decide; step; [done|].
  change (λ account : string * string,
            initializeConnection X slackService webhookService
              (trim account.1) (trim account.2))
    with (connect_account X slackService webhookService).
  by destruct (for_of _ _ begun) as [[[]|error|] s1].
Qed.

Lemma start_loop_backfilled (X : Externals) (slackService : SlackService)
    (webhookService : WebhookService) (accounts : list (string * string))
    (s s' : state) :
  for_of accounts (connect_account X slackService webhookService) s
    = (Returned tt, s') →
  trace s `prefix_of` trace s' ∧
  Forall (λ account,
            backfilled X slackService webhookService (trim account.1) s s') accounts.
Proof.
  revert s. induction accounts as [|account accounts IH]; intros s.
  - intros [= <-]. by split.
  - cbn [for_of]. rewrite bind_run.
    pose proof (initializeConnection_grows X slackService webhookService
                  (trim account.1) (trim account.2) s) as Hgrow.
    pose proof (initializeConnection_backfilled X slackService webhookService
                  (trim account.1) (trim account.2) s) as Hback.
    fold (connect_account X slackService webhookService account) in Hgrow, Hback.
    destruct (connect_account X slackService webhookService account s)
      as [[[]|error|] s1]; [|done..].
    intros Hrest. destruct (IH s1 Hrest) as [Hpre Hall]. cbn [snd] in Hgrow.
    split; [by etrans|]. constructor.
    + eapply backfilled_mono; [by apply Hback|done|done].
    + eapply Forall_impl; [exact Hall|]. intros a Ha.
      eapply backfilled_mono; [exact Ha|done|done].
Qed.

Lemma for_of_thrown {A} (body : A → M unit) (pre : list A) (x : A) (post : list A)
    (s s1 s2 : state) (e : js_error) :
  for_of pre body s = (Returned tt, s1) →
  body x s1 = (Thrown e, s2) →
  for_of (pre ++ x :: post) body s = (Thrown e, s2).
Proof.
  revert s. induction pre as [|y pre IH]; intros s.
  - intros [= <-] Hx. cbn [app for_of]. by rewrite bind_run, Hx.
  - cbn [app for_of]. rewrite !bind_run.
    destruct (body y s) as [[[]|?|] s0]; [|done..]. apply IH.
Qed.

Lemma connects_of_logs (evs : list event) : Forall is_log evs → connects evs = [].
Proof. apply omap_none_Forall. by intros [] H. Qed.

Lemma initializeConnection_backfill_fails (X : Externals) (slackService : SlackService)
    (webhookService : WebhookService) (email password : string)
    (rest : list conn_event) (e : js_error) (sb s : state) :
  imap_session X (calls s) email password = ConnReady :: rest →
  syncEmails X slackService webhookService email (next_conn s)
    (ready_state email password s) = (Thrown e, sb) →
  (initializeConnection X slackService webhookService email password s).1 = Thrown e.
Proof.
  intros Hsession Hsync.
  unfold initializeConnection, await_promise. step.
  cbn [calls next_conn with_trace with_next_conn with_conn_promise].
  rewrite Hsession. cbn [conn_events].
  unfold detach, on_ready. step.
  match goal with
  | |- context [syncEmails ?X ?a ?b ?c ?d ?st] =>
      change (syncEmails X a b c d st)
        with (syncEmails X a b c d (ready_state email password s))
  end.
  rewrite Hsync. unfold settle_conn. step.
  pose proof (syncEmails_keeps X slackService webhookService email (next_conn s)
                (ready_state email password s)) as [_ Hkeep].
  rewrite Hsync in Hkeep. cbn [snd] in Hkeep.
  change (conn_promise (ready_state email password s)) with (@None (settled unit)) in Hkeep.
  change (conn_promise (advance sb ?evs ?n)) with (conn_promise sb).
  rewrite Hkeep.
  match goal with
  | |- context [conn_events ?X ?a ?b ?c ?d ?ev ?f ?g ?h ?st] =>
      pose proof (conn_events_returns X a b c d ev f g h st) as Hret;
      pose proof (conn_events_stays X a b c d ev f g h st) as [_ Hstay];
      destruct (conn_events X a b c d ev f g h st) as [o s1]
  end.
  cbn [fst snd] in *. subst o.
  by rewrite (Hstay (Rejected e) eq_refl).
Qed.

Lemma pair_of_fst {A B} (p : A * B) (a : A) : p.1 = a → p = (a, p.2).
Proof. destruct p. by intros <-. Qed.

Lemma new_events_later (s s' : state) (evs : list event) (n : nat) :
  trace s `prefix_of` trace s' →
  new_events s (advance s' evs n) = new_events s s' ++ evs.
Proof.
  intros [k Hk]. unfold new_events. rewrite trace_advance, Hk, <- app_assoc.
  by rewrite !drop_app_length.
Qed.

Lemma not_connect_pipeline (ev : event) : pipeline_event ev → not_connect ev.
Proof. by destruct ev. Qed.

Lemma on_ready_no_connect (X : Externals) (slackService : SlackService)
    (webhookService : WebhookService) (email : string) (imap : nat) :
  emits not_connect (on_ready X slackService webhookService email imap).
Proof.
  pose proof (λ n events a b,
    emits_weaken _ _ _ not_connect_pipeline
      (sync_fetch_events_emits X slackService webhookService email n events a b)) as H.
  unfold on_ready, syncEmails, setupIdleMode. emits_go. apply H.
Qed.

Lemma conn_events_no_connect (X : Externals) (slackService : SlackService)
    (webhookService : WebhookService) (email : string) (imap : nat)
    (events : list conn_event) (ready_armed error_armed end_armed : bool) :
  emits not_connect
    (conn_events X slackService webhookService email imap events
       ready_armed error_armed end_armed).
Proof.
  pose proof (on_ready_no_connect X slackService webhookService email imap) as H.
  revert ready_armed error_armed end_armed.
  induction events as [|[|err|] events IH]; intros ready_armed error_armed end_armed;
    cbn [conn_events]; unfold on_error, on_end; emits_go.
Qed.

(** A connection attempt opens one connection, the next one. *)
Lemma connect_account_connects (X : Externals) (slackService : SlackService)
    (webhookService : WebhookService) (account : string * string)
    (s s' : state) (o : outcome unit) :
  connect_account X slackService webhookService account s = (o, s') →
  connects (new_events s s') = [(next_conn s, trim account.1, trim account.2)].
Proof.
  unfold connect_account, initializeConnection, await_promise. step.
  match goal with
  | |- context [conn_events ?X ?a ?b ?c ?d ?ev ?f ?g ?h ?st] =>
      destruct (conn_events_no_connect X a b c d ev f g h st) as (evs & Hevs & HP);
      destruct (conn_events X a b c d ev f g h st) as [[[]|err|] s1]
  end; cbn [fst snd] in *.
  1: destruct (conn_promise s1) as [[[]|?]|].
  all: intros [= <- <-]; unfold new_events; rewrite Hevs.
  all: cbn [trace advance with_calls with_trace with_next_conn with_conn_promise].
  all: rewrite <- app_assoc, drop_app_length; unfold connects.
  all: rewrite omap_app, (omap_none_Forall _ not_connect evs) by quiet.
  all: reflexivity.
Qed.

Lemma split_go_cons (sep : ascii) (cur s : string) : split_go sep cur s ≠ [].
Proof.
  revert cur. induction s as [|c s IH]; intros cur; cbn [split_go]; [done|].
  destruct (Ascii.eqb c sep); [done|apply IH].
Qed.

Lemma env_list_nil (value : option string) : env_list value = [] ↔ value = None.
Proof.
  destruct value as [s|]; cbn; [|done].
  split; [|done]. intros H. by destruct (split_go_cons "," "" s).
Qed.

(** C8: [start] throws, before any connection is opened, when no account
    is configured (the list of accounts is empty exactly when the
    variable is not set) and when the numbers of accounts and of
    passwords differ.  Otherwise it opens the accounts in turn: when an account's
    connection fails, [start] throws that error and the accounts after
    it are not attempted; a connection whose initial backfill throws
    fails with that error; and when [start] returns, the running flag
    is set and the initial backfill of every account has completed. *)
Theorem start_fails_fast (X : Externals) (slackService : SlackService)
    (webhookService : WebhookService) (s : state) :
  let emailAccounts := env_list (env_EMAIL_ACCOUNTS X) in
  let emailPasswords := env_list (env_EMAIL_PASSWORDS X) in
  let accounts := zip emailAccounts emailPasswords in
  let begun := advance s [EvLog LogInfo "Starting IMAP sync service..." None] 0 in
  let started := start X slackService webhookService s in
  (emailAccounts = [] ↔ env_EMAIL_ACCOUNTS X = None) ∧
  (emailAccounts = [] →
     started.1 = Thrown (JsError "No email accounts configured") ∧
     connects (new_events s started.2) = []) ∧
  (emailAccounts ≠ [] → length emailAccounts ≠ length emailPasswords →
     started.1 = Thrown (JsError "Email accounts and passwords count mismatch") ∧
     connects (new_events s started.2) = []) ∧
  (∀ pre account post s1 error s2,
     emailAccounts ≠ [] → length emailAccounts = length emailPasswords →
     accounts = pre ++ account :: post →
     for_of pre (connect_account X slackService webhookService) begun
       = (Returned tt, s1) →
     connect_account X slackService webhookService account s1 = (Thrown error, s2) →
     started.1 = Thrown error ∧
     connects (new_events s1 started.2)
       = [(next_conn s1, trim account.1, trim account.2)]) ∧
  (∀ email password rest error sb s1,
     imap_session X (calls s1) email password = ConnReady :: rest →
     syncEmails X slackService webhookService email (next_conn s1)
       (ready_state email password s1) = (Thrown error, sb) →
     (initializeConnection X slackService webhookService email password s1).1
       = Thrown error) ∧
  (started.1 = Returned tt →
     isRunning started.2 = true ∧
     emailAccounts ≠ [] ∧ length emailAccounts = length emailPasswords ∧
     Forall (λ account,
               backfilled X slackService webhookService (trim account.1) s started.2)
       accounts).
Proof.
  intros emailAccounts emailPasswords accounts begun started.
  pose proof (start_run X slackService webhookService s) as Hstart.
  cbv zeta in Hstart. fold emailAccounts emailPasswords accounts begun started in Hstart.
  split; [|split; [|split; [|split; [|split]]]].
  - apply env_list_nil.
  - intros Hnone. rewrite Hstart, Hnone. cbn [length].
    rewrite bool_decide_eq_true_2 by done. cbn [fst snd].
    split; [done|]. unfold begun. by rewrite advance_advance, new_events_advance.
  - intros Hsome Hdiff. rewrite Hstart.
    rewrite bool_decide_eq_false_2 by (by destruct emailAccounts).
    rewrite bool_decide_eq_true_2 by done. cbn [fst snd].
    split; [done|]. unfold begun. by rewrite advance_advance, new_events_advance.
  - intros pre account post s1 error s2 Hsome Hsame Hsplit Hpre Haccount.
    rewrite Hstart.
    rewrite bool_decide_eq_false_2 by (by destruct emailAccounts).
    rewrite bool_decide_eq_false_2 by (by intros ?).
    rewrite Hsplit, (for_of_thrown _ pre account post begun s1 s2 error Hpre Haccount).
    cbn [fst snd]. split; [done|].
    pose proof (initializeConnection_grows X slackService webhookService
                  (trim account.1) (trim account.2) s1) as Hgrow.
    fold (connect_account X slackService webhookService account) in Hgrow.
    rewrite Haccount in Hgrow. cbn [snd] in Hgrow.
    rewrite (new_events_later _ _ _ _ Hgrow). unfold connects. rewrite omap_app.
    fold connects. rewrite (connect_account_connects _ _ _ _ _ _ _ Haccount).
    reflexivity.
  - intros email password rest error sb s1.
    apply initializeConnection_backfill_fails.
  - intros Hreturned. rewrite Hstart in Hreturned |- *.
    case_bool_decide as Hnone; [done|].
    case_bool_decide as Hdiff; [done|].
    destruct (for_of accounts _ begun) as [[[]|error|] s1] eqn:Hloop; [|done..].
    cbn [snd]. split; [done|]. split; [by destruct emailAccounts|].
    split; [by destruct (decide (length emailAccounts = length emailPasswords))|].
    destruct (start_loop_backfilled _ _ _ _ _ _ Hloop) as [Hgrow Hall].
    eapply Forall_impl; [exact Hall|]. intros account Ha.
    eapply backfilled_mono; [exact Ha|by apply prefix_app_r|by apply prefix_app_r].
Qed.

(** The theorem on two accounts whose server refuses the search: [start]
    throws the error of the first account's backfill and has opened one
    connection only. *)
Lemma start_fails_fast_witness :
  (start refused_search_world unconfigured_slack unconfigured_webhook initial_state).1
  = Thrown (LibError "search refused").
Proof.
  pose (begun := advance initial_state
                   [EvLog LogInfo "Starting IMAP sync service..." None] 0).
  destruct (start_fails_fast refused_search_world unconfigured_slack
              unconfigured_webhook initial_state) as (_ & _ & _ & Hfail & Hbackfill & _).
  assert ((initializeConnection refused_search_world unconfigured_slack
             unconfigured_webhook "a@x.com" "p1" begun).1
          = Thrown (LibError "search refused")) as Hconn.
  { eapply (Hbackfill "a@x.com" "p1" []); [reflexivity|].
    apply pair_of_fst. by vm_compute. }
  eapply (Hfail [] ("a@x.com", "p1") [(" b@x.com", "p2")] begun);
    [done|reflexivity|reflexivity|reflexivity|].
  apply pair_of_fst. exact Hconn.
Defined.

(** The theorem on one registered session, with a tick and the
    ['end'] event of the session after the stop. *)
Lemma stop_ends_sessions_witness :
  ∃ s' s'',
    stop empty_inbox_world registered = (Returned tt, s') ∧
    0%nat ∈ imap_ends (new_events registered s') ∧
    for_of [Tick "a@x.com" 0%nat; ConnectionEnded "a@x.com"]
      (deliver empty_inbox_world unconfigured_slack unconfigured_webhook) s'
    = (Returned tt, s'') ∧
    Forall is_log (new_events s' s'').
Proof.
  destruct (stop_ends_sessions empty_inbox_world unconfigured_slack
              unconfigured_webhook [Tick "a@x.com" 0%nat; ConnectionEnded "a@x.com"]
              registered)
    as (s' & Hstop & _ & _ & _ & Hends & Hlater & _).
  destruct Hlater as (s'' & Hrun & _ & Hlog); [by repeat constructor|].
  exists s', s''. split; [exact Hstop|]. split; [|by split].
  apply Hends. by exists "a@x.com".
Defined.

(** The theorem on the instance as constructed. *)
Lemma isRunning_call_throws_witness :
  call_method (imapSyncService initial_state) "isRunning"
  = Thrown (JsTypeError "isRunning is not a function").
Proof.
  destruct (isRunning_call_throws initial_state) as (_ & _ & H & _). exact H.
Defined.

(** The theorem with a configured chat sink: one send, without timeout. *)
Lemma sink_timeouts_witness :
  Forall (λ post, cfg_timeout post.2 = None)
    (posts (new_events initial_state
              (sendNotification interested_world configured_slack meeting_request
                 initial_state).2)).
Proof.
  destruct (sink_timeouts interested_world configured_slack configured_webhook
              meeting_request [meeting_request] initial_state) as (H & _). exact H.
Defined.

(** The theorem with an unconfigured chat sink: the webhook sink is
    called all the same. *)
Lemma sinks_fail_independently_witness :
  ∃ s1 webhook_ok s2,
    sendNotification interested_world unconfigured_slack meeting_request initial_state
      = (Returned false, s1) ∧
    triggerWebhook interested_world configured_webhook meeting_request s1
      = (Returned webhook_ok, s2).
Proof.
  destruct (sinks_fail_independently interested_world unconfigured_slack
              configured_webhook meeting_request initial_state)
    as (chat_ok & s1 & webhook_ok & s2 & Hchat & Hwebhook & _).
  exists s1, webhook_ok, s2. split; [|exact Hwebhook].
  rewrite Hchat. f_equal. f_equal.
  assert ((sendNotification interested_world unconfigured_slack meeting_request
             initial_state).1 = Returned false) as H by reflexivity.
  rewrite Hchat in H. by injection H.
Defined.
Lemma sync_fetch_quiet (X : Externals) (slackService : SlackService)
    (webhookService : WebhookService) (email : string) (results_length : nat)
    (pre rest : list fetch_event) (error_armed end_armed : bool) (s : state) :
  Forall not_fetch_error pre →
  ∃ s' end_armed',
    sync_fetch_events X slackService webhookService email results_length
      (pre ++ rest) error_armed end_armed s
    = sync_fetch_events X slackService webhookService email results_length
        rest error_armed end_armed' s' ∧
    processedCount s' = (fetched_messages pre + processedCount s)%nat ∧
    sync_promise s'
      = (if sync_promise s is Some p then Some p
         else if bool_decide (processedCount s < results_length
                              ≤ fetched_messages pre + processedCount s)%nat
              then Some (Fulfilled tt) else None).
Proof.
  intros Hpre. revert end_armed s.
  induction Hpre as [|ev pre Hev _ IH]; intros end_armed s.
  - exists s, end_armed. split; [reflexivity|]. split; [done|].
    destruct (sync_promise s); [done|].
    rewrite bool_decide_eq_false_2; [done|]. cbn. lia.
  - destruct ev as [msg seqno|err|]; [|done|].
    + cbn [app sync_fetch_events].
      destruct (processEmailMessage_run X slackService webhookService msg email seqno
                  (sync_callback email results_length) s
                  (sync_callback_total email results_length))
        as (evs & n & Hrun & _).
      destruct (sync_callback_run email results_length
                  (advance s (EvParse (buffer_of msg) :: evs) n))
        as (s1 & Hcb & Hcount & Hpromise & _).
      rewrite Hcb in Hrun.
      unfold mbind, M_bind, bind, detach. rewrite Hrun. cbn [snd].
      destruct (IH end_armed s1) as (s' & end_armed' & -> & Hcount' & Hpromise').
      exists s', end_armed'. split; [reflexivity|]. split.
      { rewrite Hcount', Hcount. cbn. lia. }
      rewrite Hpromise', Hpromise, Hcount.
      change (processedCount (advance s (EvParse (buffer_of msg) :: evs) n))
        with (processedCount s).
      change (sync_promise (advance s (EvParse (buffer_of msg) :: evs) n))
        with (sync_promise s).
      replace (fetched_messages (FetchMessage msg seqno :: pre))
        with (S (fetched_messages pre)) by reflexivity.
      destruct (sync_promise s) as [p|]; cbn [default from_option id].
      * by destruct (bool_decide (S (processedCount s) = results_length)).
      * repeat case_bool_decide; try done; lia.
    + cbn [app sync_fetch_events].
      destruct end_armed; step.
      * destruct (IH false (advance s [EvLog LogInfo ("Fetch completed for " +:+ email) None] 0))
          as (s' & end_armed' & -> & Hcount' & Hpromise').
        exists s', end_armed'. split; [reflexivity|]. split; [exact Hcount'|exact Hpromise'].
      * destruct (IH false s) as (s' & end_armed' & -> & Hcount' & Hpromise').
        exists s', end_armed'. split; [reflexivity|]. split; [exact Hcount'|exact Hpromise'].
Qed.

Lemma sync_fetch_settled (X : Externals) (slackService : SlackService)
    (webhookService : WebhookService) (email : string) (results_length : nat)
    (events : list fetch_event) (error_armed end_armed : bool) (s : state)
    (p : settled unit) :
  sync_promise s = Some p →
  ∃ s',
    sync_fetch_events X slackService webhookService email results_length
      events error_armed end_armed s = (Returned tt, s') ∧
    sync_promise s' = Some p.
Proof.
  revert error_armed end_armed s.
  induction events as [|[msg seqno|err|] events IH]; intros error_armed end_armed s Hp.
  - by exists s.
  - cbn [sync_fetch_events].
    destruct (processEmailMessage_run X slackService webhookService msg email seqno
                (sync_callback email results_length) s
                (sync_callback_total email results_length))
      as (evs & n & Hrun & _).
    destruct (sync_callback_run email results_length
                (advance s (EvParse (buffer_of msg) :: evs) n))
      as (s1 & Hcb & _ & Hpromise & _).
    rewrite Hcb in Hrun.
    unfold mbind, M_bind, bind, detach. rewrite Hrun. cbn [snd].
    apply IH. rewrite Hpromise.
    change (sync_promise (advance s (EvParse (buffer_of msg) :: evs) n))
      with (sync_promise s).
    rewrite Hp. by case_bool_decide.
  - cbn [sync_fetch_events]. unfold settle_sync.
    destruct error_armed; step; apply IH; cbn; by rewrite ?Hp.
  - cbn [sync_fetch_events].
    destruct end_armed; step; apply IH; cbn; by rewrite ?Hp.
Qed.

(** X1: once the search of the initial sync has found messages, the
    outcome of [syncEmails] is decided by the fetch events in three
    cases, each of which holds however the asynchronous handling of the
    messages is interleaved with the later fetch events.  When the fetch
    emits no ['error'] event and at least as many ['message'] events as
    the search found results, [syncEmails] resolves.  When an ['error']
    event comes while fewer ['message'] events than search results have
    been emitted, it rejects with that error.  When the fetch emits
    fewer ['message'] events than the search found results and no
    ['error'] event, it never settles: the ['end'] event of the fetch
    only logs.  (An ['error'] event after the last awaited message is
    left out: there the outcome depends on whether the handling of that
    message has ended when the event arrives.) *)
Theorem syncEmails_outcome (X : Externals) (slackService : SlackService)
    (webhookService : WebhookService) (email : string) (imap : nat)
    (results : list N) (events : list fetch_event) (s : state) :
  imap_openBox X (calls s) imap = Fulfilled tt →
  imap_search X (2 + calls s) imap
    (SINCE (format_DD_MMM_YYYY (subtract_days (date_now X (1 + calls s)) 30)))
    = Fulfilled results →
  results ≠ [] →
  imap_fetch X (3 + calls s) imap results = events →
  let outcome := (syncEmails X slackService webhookService email imap s).1 in
  (Forall not_fetch_error events →
   (length results ≤ fetched_messages events)%nat →
   outcome = Returned tt) ∧
  (∀ pre err post,
     events = pre ++ FetchError err :: post → Forall not_fetch_error pre →
     (fetched_messages pre < length results)%nat →
     outcome = Thrown err) ∧
  (Forall not_fetch_error events →
   (fetched_messages events < length results)%nat →
   outcome = Pending).
Proof.
  intros Hopen Hsearch Hsome Hfetch outcome. subst outcome.
  cbn [Nat.add] in Hsearch, Hfetch.
  assert (0 < length results)%nat as Hpos by (destruct results; [done|cbn; lia]).
  unfold syncEmails, settle_sync, await_promise. step.
  cbn [calls with_sync_promise]. rewrite Hopen. step.
  cbn [calls with_sync_promise]. rewrite Hsearch. step.
  rewrite bool_decide_eq_false_2 by lia. step.
  cbn [calls with_sync_promise]. rewrite Hfetch.
  match goal with
  | |- context [sync_fetch_events _ _ _ _ _ _ _ _ ?st] => set (s0 := st)
  end.
  assert (sync_promise s0 = None ∧ processedCount s0 = 0%nat) as [Hnone Hzero] by done.
  split; [|split].
  - intros Hquiet Hcount.
    destruct (sync_fetch_quiet X slackService webhookService email (length results)
                events [] true true s0 Hquiet) as (s1 & ee & Hrun & _ & Hpromise).
    rewrite app_nil_r in Hrun. rewrite Hrun. cbn [sync_fetch_events].
    rewrite Hnone, Hzero, bool_decide_eq_true_2 in Hpromise by lia.
    step. by rewrite Hpromise.
  - intros pre err post -> Hpre Hcount.
    destruct (sync_fetch_quiet X slackService webhookService email (length results)
                pre (FetchError err :: post) true true s0 Hpre)
      as (s1 & ee & -> & _ & Hpromise).
    rewrite Hnone, Hzero, bool_decide_eq_false_2 in Hpromise by lia.
    cbn [sync_fetch_events]. unfold settle_sync. step.
    cbn [sync_promise advance with_calls with_trace]. rewrite Hpromise.
    match goal with
    | |- context [sync_fetch_events _ _ _ _ _ _ _ _ ?st] =>
        destruct (sync_fetch_settled X slackService webhookService email
                    (length results) post false ee st (Rejected err) eq_refl)
          as (s2 & -> & Hp2)
    end.
    cbn [fst snd]. by rewrite Hp2.
  - intros Hquiet Hcount.
    destruct (sync_fetch_quiet X slackService webhookService email (length results)
                events [] true true s0 Hquiet) as (s1 & ee & Hrun & _ & Hpromise).
    rewrite app_nil_r in Hrun. rewrite Hrun. cbn [sync_fetch_events].
    rewrite Hnone, Hzero, bool_decide_eq_false_2 in Hpromise by lia.
    step. by rewrite Hpromise.
Qed.

(** The theorem on an account where the search finds two messages and
    the fetch delivers one and ends: the initial sync never settles. *)
Lemma syncEmails_outcome_witness :
  (syncEmails short_fetch_world unconfigured_slack unconfigured_webhook "a@x.com" 0
     initial_state).1 = Pending.
Proof.
  destruct (syncEmails_outcome short_fetch_world unconfigured_slack unconfigured_webhook
              "a@x.com" 0 [1%N; 2%N] [FetchMessage garbled 1%N; FetchEnd] initial_state
              eq_refl eq_refl ltac:(done) eq_refl) as (_ & _ & H).
  apply H; [repeat constructor|cbn; lia].
Defined.

(** * The classifier's view of a Message *)

(** X2: the classification of a Message depends only on its sender,
    recipient, subject, date and the first 1000 code units of its text:
    two Messages that agree on these are sent to the provider as the
    same request and are classified alike, with the same log lines,
    whatever their ids, the rest of their text, their HTML and their
    attachments. *)
Theorem classification_reads_1000_code_units (X : Externals)
    (emailData emailData' : email_data) (s : state) :
  e_from emailData = e_from emailData' →
  e_to emailData = e_to emailData' →
  e_subject emailData = e_subject emailData' →
  e_date emailData = e_date emailData' →
  Strings.String.substring 0 1000 (e_text emailData)
    = Strings.String.substring 0 1000 (e_text emailData') →
  categorization_request (buildCategorizationPrompt X emailData)
    = categorization_request (buildCategorizationPrompt X emailData') ∧
  categorizeEmail X emailData s = categorizeEmail X emailData' s.
Proof.
  intros Hfrom Hto Hsubject Hdate Htext.
  assert (buildCategorizationPrompt X emailData = buildCategorizationPrompt X emailData')
    as Hprompt.
  { unfold buildCategorizationPrompt. by rewrite Hfrom, Hto, Hsubject, Hdate, Htext. }
  split; [by rewrite Hprompt|].
  unfold categorizeEmail. by rewrite Hprompt, Hsubject.
Qed.

(** The theorem on two Messages whose texts part after 1000 code units. *)
Lemma classification_reads_1000_code_units_witness :
  categorizeEmail interested_world (long_mail "a@x.com_7" "yes, please" "") initial_state
  = categorizeEmail interested_world
      (long_mail "a@x.com_8" "unsubscribe me" "<p>unsubscribe me</p>") initial_state.
Proof.
  apply (classification_reads_1000_code_units interested_world
           (long_mail "a@x.com_7" "yes, please" "")
           (long_mail "a@x.com_8" "unsubscribe me" "<p>unsubscribe me</p>")
           initial_state); [reflexivity..|by vm_compute].
Defined.

(** * What the sinks take for a success *)

(** X3: the two sinks judge the peer's answer differently.  The chat
    sink reports success only for status 200, the webhook sink for every
    status from 200 to 299; so for an answer such as 201, 202 or 204 the
    chat sink returns [false] and the webhook sink [true]. *)
Theorem sinks_disagree_on_success (X : Externals) (slackService : SlackService)
    (webhookService : WebhookService) (emailData : email_data) (status : Z)
    (s : state) :
  answers_with X status →
  falsy (slack_webhookUrl slackService) = false →
  falsy (webhookUrl webhookService) = false →
  (sendNotification X slackService emailData s).1
    = Returned (bool_decide (status = 200)) ∧
  (triggerWebhook X webhookService emailData s).1
    = Returned (bool_decide (200 ≤ status < 300)) ∧
  (200 < status < 300 →
     (sendNotification X slackService emailData s).1 = Returned false ∧
     (triggerWebhook X webhookService emailData s).1 = Returned true).
Proof.
  intros Hpeer Hslack Hwebhook.
  destruct (sendNotification_run X slackService emailData s)
    as (ok1 & evs1 & n1 & Hrun1 & _ & _ & Hon1).
  destruct (triggerWebhook_run X webhookService emailData s)
    as (ok2 & evs2 & n2 & Hrun2 & _ & _ & Hon2).
  destruct (Hon1 Hslack) as [_ Hok1]. destruct (Hon2 Hwebhook) as (payload & _ & Hok2).
  rewrite Hpeer in Hok1, Hok2. subst ok1 ok2. rewrite Hrun1, Hrun2. cbn [fst].
  split; [done|]. split; [done|]. intros Hrange.
  rewrite bool_decide_eq_false_2 by lia. by rewrite bool_decide_eq_true_2 by lia.
Qed.

(** The theorem at status 204. *)
Lemma sinks_disagree_on_success_witness :
  (sendNotification no_content_world configured_slack meeting_request initial_state).1
    = Returned false ∧
  (triggerWebhook no_content_world configured_webhook meeting_request initial_state).1
    = Returned true.
Proof.
  destruct (sinks_disagree_on_success no_content_world configured_slack
              configured_webhook meeting_request 204 initial_state)
    as (_ & _ & H); [by intros ????|reflexivity|reflexivity|].
  apply H. lia.
Defined.

(** * The batch envelope *)

Lemma map_payload_data_returns (X : Externals) (emails : list email_data) (s : state) :
  map_payload_data X emails s
  = (Returned (webhook_data_of <$> emails), advance s [] (2 * length emails)).
Proof.
  revert s. induction emails as [|email rest IH]; intros s.
  - cbn. by rewrite advance_0.
  - unfold map_payload_data; fold (map_payload_data X).
    unfold buildWebhookPayload. step. rewrite IH. step.
    f_equal. f_equal. cbn [length]. lia.
Qed.

(** X4: a configured webhook sink sends every batch, the empty one
    included, as one request whose envelope is consistent: [count] is
    the number of entries of [data], and [data] holds, in input order,
    the [data] object the single-message payload has for each Message.
    An unconfigured sink sends nothing and returns [false]. *)
Theorem batch_envelope_is_consistent (X : Externals) (this : WebhookService)
    (emails : list email_data) (s : state) :
  let sent := posts (new_events s (triggerBatchWebhook X this emails s).2) in
  (falsy (webhookUrl this) = true →
     sent = [] ∧ (triggerBatchWebhook X this emails s).1 = Returned false) ∧
  (falsy (webhookUrl this) = false →
     ∃ payload,
       sent = [(default "" (webhookUrl this), BatchWebhookBody payload,
                {| cfg_headers := webhook_headers; cfg_timeout := Some 15000 |})] ∧
       bp_event payload = "email.batch.interested" ∧
       bp_count payload = length emails ∧
       length (bp_data payload) = bp_count payload ∧
       bp_data payload = webhook_data_of <$> emails) ∧
  (∀ emailData s0, ∃ payload s1,
     buildWebhookPayload X emailData s0 = (Returned payload, s1) ∧
     wp_data payload = webhook_data_of emailData).
Proof.
  intros sent. subst sent. split; [|split].
  - intros Hoff. unfold triggerBatchWebhook. rewrite Hoff. step.
    by rewrite new_events_advance.
  - intros Hon. unfold triggerBatchWebhook, axios_post_call. rewrite Hon. step.
    rewrite map_payload_data_returns. step.
    destruct (axios_post X _ _ _ _) as [status|err]; step;
      try destruct (bool_decide (200 ≤ status) && bool_decide (status < 300)); step;
      rewrite new_events_advance; eexists; (split; [reflexivity|]); cbn;
      by rewrite length_fmap.
  - intros emailData s0. unfold buildWebhookPayload. step. by eexists _, _.
Qed.

(** The theorem on the empty batch: one request, with count 0. *)
Lemma batch_envelope_is_consistent_witness :
  ∃ payload,
    posts (new_events initial_state
             (triggerBatchWebhook interested_world configured_webhook [] initial_state).2)
    = [("https://webhook.example/hook", BatchWebhookBody payload,
        {| cfg_headers := webhook_headers; cfg_timeout := Some 15000 |})] ∧
    bp_count payload = 0%nat ∧ bp_data payload = [].
Proof.
  destruct (batch_envelope_is_consistent interested_world configured_webhook []
              initial_state) as (_ & Hon & _).
  destruct (Hon eq_refl) as (payload & Hsent & _ & Hcount & _ & Hdata).
  exists payload. split; [exact Hsent|]. split; [exact Hcount|exact Hdata].
Defined.

(** * Message ids *)

Lemma has_char_app (c : ascii) (s1 s2 : string) :
  has_char c (s1 +:+ s2) = has_char c s1 || has_char c s2.
Proof.
  induction s1 as [|c1 s1 IH]; [done|].
  change (String c1 s1 +:+ s2) with (String c1 (s1 +:+ s2)).
  cbn [has_char]. by rewrite IH, orb_assoc.
Qed.

(** A string is cut in one way only at the last occurrence of [c]. *)
Lemma cut_at_last_char (c : ascii) (a1 d1 a2 d2 : string) :
  has_char c d1 = false → has_char c d2 = false →
  a1 +:+ String c d1 = a2 +:+ String c d2 →
  a1 = a2 ∧ d1 = d2.
Proof.
  intros H1 H2. revert a2.
  induction a1 as [|x a1 IH]; intros [|y a2]; cbn; intros Heq.
  - by injection Heq.
  - injection Heq as <- ->. rewrite has_char_app in H1. cbn in H1.
    rewrite Ascii.eqb_refl in H1. cbn in H1. by rewrite orb_true_r in H1.
  - injection Heq as -> <-. rewrite has_char_app in H2. cbn in H2.
    rewrite Ascii.eqb_refl in H2. cbn in H2. by rewrite orb_true_r in H2.
  - injection Heq as -> Heq. destruct (IH a2 Heq) as [-> ->]. done.
Qed.

Lemma pretty_N_go_has_char (c : ascii) (x : N) (s : string) :
  (∀ d, (d < 10)%N → pretty_N_char d ≠ c) →
  has_char c s = false → has_char c (pretty_N_go x s) = false.
Proof.
  intros Hc. revert s. induction (N.lt_wf_0 x) as [x _ IH]; intros s Hs.
  assert (x = 0 ∨ 0 < x)%N as [->|?] by lia.
  - by rewrite pretty_N_go_0.
  - rewrite pretty_N_go_step by done. apply IH.
    { by apply N.div_lt. }
    cbn. rewrite Hs, orb_false_r. apply Ascii.eqb_neq, Hc.
    by apply N.mod_lt.
Qed.

Lemma template_uid_no_underscore (uid : option N) :
  has_char "_" (template_uid uid) = false.
Proof.
  destruct uid as [n|]; [|reflexivity]. cbn. unfold pretty, pretty_N.
  case_decide; [reflexivity|]. apply pretty_N_go_has_char; [|done].
  intros d _. unfold pretty_N_char. by repeat case_match.
Qed.

Lemma pretty_N_go_head (x : N) (s : string) :
  (0 < x)%N → ∃ d rest, (d < 10)%N ∧ pretty_N_go x s = String (pretty_N_char d) rest.
Proof.
  revert s. induction (N.lt_wf_0 x) as [x _ IH]; intros s Hx.
  rewrite pretty_N_go_step by done.
  destruct (N.eq_0_gt_0_cases (x `div` 10)) as [->|Hpos].
  - rewrite pretty_N_go_0. exists (x `mod` 10)%N, s. split; [|done]. by apply N.mod_lt.
  - apply IH; [|done]. by apply N.div_lt.
Qed.

Lemma template_uid_inj : Inj (=) (=) template_uid.
Proof.
  intros [n1|] [n2|]; cbn; intros Heq; [by rewrite (inj pretty _ _ Heq)| | |done].
  - exfalso. unfold pretty, pretty_N in Heq. case_decide; [done|].
    destruct (pretty_N_go_head n1 "") as (d & rest & _ & Hd); [lia|].
    rewrite Hd in Heq. unfold pretty_N_char in Heq. by repeat case_match.
  - exfalso. unfold pretty, pretty_N in Heq. case_decide; [done|].
    destruct (pretty_N_go_head n2 "") as (d & rest & _ & Hd); [lia|].
    rewrite Hd in Heq. unfold pretty_N_char in Heq. by repeat case_match.
Qed.

Lemma stored_ids (X : Externals) (slackService : SlackService)
    (webhookService : WebhookService) (msg : imap_message) (email : string)
    (seqno : N) (callback : M unit) (s : state) :
  total_callback callback →
  ∃ s',
    processEmailMessage X slackService webhookService msg email seqno callback s
      = callback s' ∧
    Forall (λ emailData,
              e_id emailData
              = email +:+ "_" +:+ template_uid (a_uid (attributes_of msg)))
      (stored (new_events s s')) ∧
    (∀ parsed,
       simpleParser X (calls s) (buffer_of msg) = Fulfilled parsed →
       length (stored (new_events s s')) = 1%nat).
Proof.
  intros Hcb.
  destruct (processEmailMessage_run X slackService webhookService msg email seqno
              callback s Hcb) as (evs & n & Hrun & Hshape).
  eexists. split; [exact Hrun|]. rewrite new_events_advance. unfold stored.
  remember (simpleParser X (calls s) (buffer_of msg)) as answer eqn:Hanswer.
  destruct Hshape as [err|parsed now createdAt updatedAt err
                     |parsed now createdAt updatedAt category classified at_ err emailData Hin Hcl
                     |parsed now createdAt updatedAt category classified at_ notifications
                        emailData Hin Hcl Hnote].
  - by project.
  - project. split; [by repeat constructor|done].
  - project. split; [by repeat constructor|done].
  - unfold notified in Hnote. destruct (bool_decide (category = "Interested")).
    + destruct Hnote as (chat & webhook & -> & Hchat & Hwebhook).
      project. split; [by repeat constructor|done].
    + subst notifications. project. split; [by repeat constructor|done].
Qed.

Lemma message_id_inj (email1 : string) (uid1 : option N) (email2 : string)
    (uid2 : option N) :
  email1 +:+ "_" +:+ template_uid uid1 = email2 +:+ "_" +:+ template_uid uid2 ↔
  email1 = email2 ∧ uid1 = uid2.
Proof.
  split; [|by intros [-> ->]]. intros Heq.
  apply cut_at_last_char in Heq as [-> Heq]; auto using template_uid_no_underscore.
  split; [done|]. by apply template_uid_inj.
Qed.

(** X5: the pipeline of a fetched message hands to the store only
    Messages with the id [<account>_<uid>], where [<uid>] is the text
    [undefined] when the server sent no uid for the message, and exactly
    one such Message when the parser fulfils.  For two fetched messages,
    of the same account or not, the Messages handed to the store have
    the same id exactly when the accounts are the same and the uids are
    the same or both missing.  So a message that is fetched again is
    written over its own document; messages with different uids, or of
    different accounts, get different documents; and all the messages
    of an account for which the server sent no uid share the document
    [<account>_undefined], each written over the one before. *)
Theorem message_ids_identify_messages (X : Externals) (slackService : SlackService)
    (webhookService : WebhookService)
    (msg1 : imap_message) (email1 : string) (seqno1 : N) (callback1 : M unit)
    (s1 : state)
    (msg2 : imap_message) (email2 : string) (seqno2 : N) (callback2 : M unit)
    (s2 : state) :
  total_callback callback1 →
  total_callback callback2 →
  ∃ s1' s2',
    processEmailMessage X slackService webhookService msg1 email1 seqno1 callback1 s1
      = callback1 s1' ∧
    processEmailMessage X slackService webhookService msg2 email2 seqno2 callback2 s2
      = callback2 s2' ∧
    Forall (λ emailData,
              e_id emailData
              = email1 +:+ "_" +:+ template_uid (a_uid (attributes_of msg1)))
      (stored (new_events s1 s1')) ∧
    (∀ parsed,
       simpleParser X (calls s1) (buffer_of msg1) = Fulfilled parsed →
       length (stored (new_events s1 s1')) = 1%nat) ∧
    (∀ emailData1 emailData2,
       emailData1 ∈ stored (new_events s1 s1') →
       emailData2 ∈ stored (new_events s2 s2') →
       e_id emailData1 = e_id emailData2 ↔
       email1 = email2 ∧
       a_uid (attributes_of msg1) = a_uid (attributes_of msg2)) ∧
    (m_attributes msg1 = None →
     Forall (λ emailData, e_id emailData = email1 +:+ "_undefined")
       (stored (new_events s1 s1'))).
Proof.
  intros Hcb1 Hcb2.
  destruct (stored_ids X slackService webhookService msg1 email1 seqno1 callback1 s1 Hcb1)
    as (s1' & Hrun1 & Hids1 & Hone1).
  destruct (stored_ids X slackService webhookService msg2 email2 seqno2 callback2 s2 Hcb2)
    as (s2' & Hrun2 & Hids2 & _).
  exists s1', s2'.
  split; [exact Hrun1|]. split; [exact Hrun2|]. split; [exact Hids1|].
  split; [exact Hone1|]. split.
  - intros emailData1 emailData2 Hin1 Hin2.
    rewrite Forall_forall in Hids1, Hids2.
    rewrite (Hids1 _ Hin1), (Hids2 _ Hin2). apply message_id_inj.
  - intros Hnone. unfold attributes_of in Hids1. by rewrite Hnone in Hids1.
Qed.

(** The theorem on two messages of one account: a message with uid 7
    fetched twice is stored under [a@x.com_7] both times. *)
Lemma message_ids_identify_messages_witness :
  ∃ s1' s2',
    processEmailMessage lead_world configured_slack configured_webhook
      lead_mail "a@x.com" 1%N (sync_callback "a@x.com" 2) initial_state
    = sync_callback "a@x.com" 2 s1' ∧
    processEmailMessage lead_world configured_slack configured_webhook
      lead_mail "a@x.com" 2%N (sync_callback "a@x.com" 2) initial_state
    = sync_callback "a@x.com" 2 s2' ∧
    Forall (λ emailData, e_id emailData = "a@x.com_7")
      (stored (new_events initial_state s1')) ∧
    length (stored (new_events initial_state s1')) = 1%nat.
Proof.
  destruct (message_ids_identify_messages lead_world configured_slack
              configured_webhook
              lead_mail "a@x.com" 1%N (sync_callback "a@x.com" 2) initial_state
              lead_mail "a@x.com" 2%N (sync_callback "a@x.com" 2) initial_state
              (sync_callback_total "a@x.com" 2) (sync_callback_total "a@x.com" 2))
    as (s1' & s2' & H1 & H2 & Hids & Hone & _).
  exists s1', s2'. repeat split; [exact H1|exact H2|exact Hids|].
  exact (Hone subject_only eq_refl).
Defined.

(** * A session that has ended *)

(** X6: when the session of an account reports its end, the account is
    taken out of the registry and nothing else is done; from then on
    every tick of that account's timer returns at once, without opening
    a folder, searching or logging, while the ticks of the accounts
    still registered go on opening [INBOX].  An ['error'] event, by
    contrast, leaves the registry as it is. *)
Theorem ended_session_is_not_polled (X : Externals) (slackService : SlackService)
    (webhookService : WebhookService) (email : string) (s : state) :
  let ended := (deliver X slackService webhookService (ConnectionEnded email) s).2 in
  (deliver X slackService webhookService (ConnectionEnded email) s).1 = Returned tt ∧
  connections ended = delete email (connections s) ∧
  new_events s ended = [EvLog LogInfo ("IMAP connection ended for " +:+ email) None] ∧
  (∀ imap,
     deliver X slackService webhookService (Tick email imap) ended
     = (Returned tt, ended)) ∧
  (∀ other imap,
     other ≠ email → is_Some (connections s !! other) →
     head (new_events ended
             (deliver X slackService webhookService (Tick other imap) ended).2)
     = Some (EvOpenBox imap "INBOX" true)) ∧
  (∀ err, connections (on_error email err s).2 = connections s).
Proof.
  intros ended. subst ended. cbn [deliver]. unfold on_end. step.
  split; [done|]. split; [done|].
  split.
  { unfold new_events. cbn [trace with_connections advance with_calls with_trace].
    by rewrite drop_app_length. }
  split; [|split].
  - intros imap. unfold detach, checkForNewEmails. step.
    cbn [connections with_connections advance with_calls with_trace].
    rewrite lookup_delete_eq.
    by rewrite bool_decide_eq_false_2 by (by intros [??]).
  - intros other imap Hother Hreg.
    match goal with
    | |- context [detach (checkForNewEmails ?X ?a ?b ?c ?d) ?st] =>
        destruct (checkForNewEmails_search X a b c d st) as (s' & Hrun & Hhead & _)
    end.
    { cbn [connections with_connections advance with_calls with_trace].
      by rewrite lookup_delete_ne. }
    unfold detach. cbn [snd]. rewrite Hrun. exact Hhead.
  - intros err. unfold on_error, settle_conn. step.
    change (conn_promise (advance s ?evs ?n)) with (conn_promise s).
    by destruct (conn_promise s).
Qed.

(** * The fallback embedding *)

Lemma to_int32_range (z : Z) : - 2 ^ 31 ≤ to_int32 z < 2 ^ 31.
Proof.
  unfold to_int32. pose proof (Z.mod_pos_bound (z + 2 ^ 31) (2 ^ 32)). lia.
Qed.

Lemma to_int32_congruent (x y : Z) :
  (x - y) mod 2 ^ 32 = 0 → to_int32 x = to_int32 y.
Proof.
  intros H. unfold to_int32. f_equal.
  apply Z.mod_divide in H as [k Hk]; [|done].
  replace (x + 2 ^ 31) with (y + 2 ^ 31 + k * 2 ^ 32) by lia.
  by rewrite Z.mod_add.
Qed.

Lemma to_int32_spec (z : Z) : ∃ k, to_int32 z = z + k * 2 ^ 32.
Proof.
  unfold to_int32. exists (- ((z + 2 ^ 31) / 2 ^ 32)).
  pose proof (Z.div_mod (z + 2 ^ 31) (2 ^ 32)). lia.
Qed.

Lemma simpleHash_loop_polynomial (acc : Z) (str : string) :
  simpleHash_loop (to_int32 acc) str = to_int32 (polynomial_31 acc str).
Proof.
  revert acc. induction str as [|c str IH]; intros acc; [done|].
  cbn [simpleHash_loop polynomial_31]. rewrite <- IH. f_equal.
  unfold bit_and, shift_left. rewrite Z.land_diag.
  change (5 mod 32) with 5. rewrite Z.shiftl_mul_pow2 by done.
  apply to_int32_congruent.
  destruct (to_int32_spec (to_int32 (to_int32 acc) * 2 ^ 5)) as [k2 ->].
  destruct (to_int32_spec (to_int32 acc)) as [k3 ->].
  destruct (to_int32_spec acc) as [k4 ->].
  apply Z.mod_divide; [done|].
  exists (k2 + 32 * k3 + 31 * k4).
  lia.
Qed.

Lemma simpleHash_polynomial (str : string) :
  simpleHash str = Z.abs (to_int32 (polynomial_31 0 str)).
Proof. unfold simpleHash. by rewrite <- simpleHash_loop_polynomial. Qed.

Lemma simpleHash_range (str : string) : 0 ≤ simpleHash str ≤ 2 ^ 31.
Proof.
  rewrite simpleHash_polynomial.
  pose proof (to_int32_range (polynomial_31 0 str)). lia.
Qed.

Lemma word_index_range (str : string) : 0 ≤ word_index str < 1536.
Proof.
  pose proof (simpleHash_range str).
  unfold word_index. rewrite Z.rem_mod_nonneg by lia.
  apply Z.mod_pos_bound. lia.
Qed.

(** X7: [simpleHash] is the base-31 polynomial hash of the code units of
    its argument, wrapped to a signed 32-bit integer, without its sign.
    Its value lies between 0 and 2^31 (the bounds included: the absolute
    value of -2^31 is not a 32-bit integer), it is 0 for the empty
    string, and the slot [hash % 1536] computed from it is a valid index
    of the 1536 entries of the embedding. *)
Theorem simpleHash_is_polynomial_hash (str : string) :
  simpleHash str = Z.abs (to_int32 (polynomial_31 0 str)) ∧
  0 ≤ simpleHash str ≤ 2 ^ 31 ∧
  simpleHash "" = 0 ∧
  0 ≤ word_index str < 1536.
Proof.
  split; [apply simpleHash_polynomial|]. split; [apply simpleHash_range|].
  split; [done|apply word_index_range].
Qed.

Lemma split_whitespace_go_length (in_space : bool) (cur s : string) :
  (1 ≤ length (split_whitespace_go in_space cur s))%nat.
Proof.
  revert in_space cur. induction s as [|c s IH]; intros in_space cur; cbn; [lia|].
  destruct (is_js_whitespace c); [destruct in_space|]; cbn; auto with lia.
Qed.

Lemma total_alter_succ (i : nat) (l : list Z) :
  (i < length l)%nat → total (alter (λ count, count + 1) i l) = total l + 1.
Proof.
  revert i. induction l as [|x l IH]; intros i Hi; [cbn in Hi; lia|].
  destruct i as [|i]; cbn in *; [lia|]. unfold total in IH. rewrite IH by lia. lia.
Qed.

Lemma word_counts_invariant (words : list string) (init : list Z) :
  length init = 1536%nat → Forall (λ val, 0 ≤ val) init →
  let embedding :=
    foldl (λ embedding word,
             alter (λ count, count + 1) (Z.to_nat (word_index word)) embedding)
          init words in
  length embedding = 1536%nat ∧
  Forall (λ val, 0 ≤ val) embedding ∧
  total embedding = total init + Z.of_nat (length words).
Proof.
  revert init. induction words as [|word words IH]; intros init Hlen Hpos;
    cbn [foldl length]; cbv zeta.
  - split; [done|]. split; [done|]. change (Z.of_nat 0) with 0. lia.
  - pose proof (word_index_range word) as Hindex.
    destruct (IH (alter (λ count, count + 1) (Z.to_nat (word_index word)) init))
      as (Hlen' & Hpos' & Htotal).
    { by rewrite length_alter. }
    { apply Forall_alter; [done|]. intros; lia. }
    split; [done|]. split; [done|].
    cbv zeta in Htotal. rewrite Htotal, total_alter_succ by lia. lia.
Qed.

Lemma foldl_squares (l : list Z) (acc : Z) :
  foldl (λ sum val, sum + val * val) acc l = acc + total ((λ val, val * val) <$> l).
Proof.
  revert acc. induction l as [|x l IH]; intros acc; cbn; [lia|].
  rewrite IH. unfold total. lia.
Qed.

Lemma total_le_squares (l : list Z) :
  Forall (λ val, 0 ≤ val) l → total l ≤ total ((λ val, val * val) <$> l).
Proof.
  induction 1 as [|x l Hx _ IH]; cbn; [done|]. unfold total in IH. nia.
Qed.

(** X8: whatever the text, the fallback embedding has 1536 entries, none
    negative before scaling; their numerators count the words of the
    lower-cased text (the pieces between runs of white space, of which
    there is always at least one, the empty text giving one empty word),
    so they add up to the number of words; and all entries are divided
    by the root of the same number, the sum of the squares of the
    numerators, which is at least 1: the division is never by zero. *)
Theorem generateSimpleEmbedding_is_scaled_count (text : string) :
  let words := split_whitespace (toLowerCase text) in
  let embedding := generateSimpleEmbedding text in
  length embedding = 1536%nat ∧
  (1 ≤ length words)%nat ∧
  Forall (λ x, 0 ≤ numerator x) embedding ∧
  total (numerator <$> embedding) = Z.of_nat (length words) ∧
  ∃ sum,
    1 ≤ sum ∧
    sum = total ((λ x, numerator x * numerator x) <$> embedding) ∧
    Forall (λ x, under_root x = sum) embedding.
Proof.
  intros words embedding. subst embedding. unfold generateSimpleEmbedding.
  fold words.
  destruct (word_counts_invariant words (replicate 1536 0))
    as (Hlen & Hpos & Htotal); [done|by apply Forall_replicate|].
  fold (word_counts words) in Hlen, Hpos, Htotal.
  assert (1 ≤ length words)%nat as Hwords by apply split_whitespace_go_length.
  assert (total (replicate 1536 0) = 0) as Hzero by by vm_compute.
  rewrite Hzero in Htotal.
  set (sum := foldl (λ sum val, sum + val * val) 0 (word_counts words)).
  assert (numerator <$> ((λ val, {| numerator := val; under_root := sum |})
                           <$> word_counts words) = word_counts words) as Hnum.
  { rewrite <- list_fmap_compose. rewrite <- (list_fmap_id (word_counts words)) at 2.
    by apply list_fmap_ext. }
  rewrite length_fmap. split; [done|]. split; [done|].
  split; [by apply Forall_fmap|].
  split; [rewrite Hnum; lia|].
  exists sum. split; [|split; [|by apply Forall_fmap, Forall_true]].
  - unfold sum. rewrite foldl_squares. pose proof (total_le_squares _ Hpos). lia.
  - unfold sum. rewrite foldl_squares, <- list_fmap_compose. done.
Qed.

(** * The body of a search *)

(** X9: whatever is asked for, the search body of [searchEmails] has one
    [must] clause and sorts by date, newest first: the [sortBy] and
    [sortOrder] of the filters have no effect on it.  It has a [filter]
    key only when a criterion is given, with one clause for each of
    account, folder and category that is given and one for the date
    range when either end is given; an empty string counts as not
    given.  A missing size, and the size 0, become 50; a missing offset
    becomes 0. *)
Theorem searchBody_shape (query : json) (filters : search_filters) :
  let body := searchBody query filters in
  (∀ sortBy sortOrder, searchBody query (sorted_by sortBy sortOrder filters) = body) ∧
  member "sort" body = JArr [JObj [("date", JObj [("order", JStr "desc")])]] ∧
  (∃ clause, bool_clauses "must" body = Some [clause]) ∧
  (bool_clauses "filter" body = None ↔ Forall (λ v, truthy v = false) (criteria filters)) ∧
  (∀ clauses, bool_clauses "filter" body = Some clauses →
     length clauses = length (filter (λ v, truthy v = true) (criteria filters))) ∧
  (f_size filters = JUndefined ∨ f_size filters = JNum 0 → member "size" body = JNum 50) ∧
  (∀ n, n ≠ 0 → f_size filters = JNum n → member "size" body = JNum n) ∧
  (f_from filters = JUndefined → member "from" body = JNum 0) ∧
  (∀ n, f_from filters = JNum n → member "from" body = JNum n).
Proof.
  intros body. subst body. destruct filters as [email folder category dateFrom dateTo from size sortBy sortOrder].
  unfold searchBody, criteria, bool_clauses, sorted_by, js_or, push_filter.
  cbn [f_email f_folder f_category f_dateFrom f_dateTo f_from f_size f_sortBy f_sortOrder].
  split; [done|]. split; [done|].
  split; [destruct (truthy query); by eexists|].
  split; [|split; [|split; [|split; [|split]]]].
  - destruct (truthy email) eqn:?, (truthy folder) eqn:?, (truthy category) eqn:?,
      (truthy dateFrom) eqn:Hfrom, (truthy dateTo) eqn:Hto;
      cbn; rewrite ?Hfrom, ?Hto;
      (split;
       [ intros H; try discriminate H; repeat constructor; assumption
       | intros H; repeat match goal with
               | H : Forall _ (_ :: _) |- _ => apply Forall_cons in H as [? H]
               end; try congruence; reflexivity ]).
  - intros clauses.
    destruct (truthy email) eqn:?, (truthy folder) eqn:?, (truthy category) eqn:?,
      (truthy dateFrom) eqn:Hfrom, (truthy dateTo) eqn:Hto;
      cbn; rewrite ?Hfrom, ?Hto; intros [= <-];
      repeat case_decide; try congruence; reflexivity.
  - intros [->| ->]; reflexivity.
  - intros n Hn ->. cbn. destruct (Z.eqb_spec n 0); [done|reflexivity].
  - intros ->. reflexivity.
  - intros n ->. cbn. destruct (Z.eqb_spec n 0) as [->|]; reflexivity.
Qed.

(** * The advanced search query *)





(** * Reasoning about the services *)

Ltac w_step :=
  repeat progress
    (unfold mbind, W_bind, w_bind, mret, W_ret, w_ret, w_log, w_log_error, w_tell,
       w_modify, w_get, w_consult, w_await, w_throw, w_try, lift, consult, new_Date,
       asked;
     cbn [fst snd mail made qdrant_isInitialized es_isConnected
          with_mail with_made with_qdrant_isInitialized with_es_isConnected
          calls with_calls trace with_trace negb Nat.add]).

Ltac w_trace :=
  unfold new_calls;
  cbn [made with_made with_mail with_qdrant_isInitialized with_es_isConnected];
  rewrite <- ?app_assoc; rewrite drop_app_length; cbn [app].

Lemma new_calls_app (w w' : world) (cs : list call) :
  made w' = made w ++ cs → new_calls w w' = cs.
Proof. intros H. unfold new_calls. rewrite H. apply drop_app_length. Qed.

(** X11: [initialize] of the Qdrant service never throws and tells the
    truth about readiness: it returns [true] exactly when it has raised
    the flag [isReady] reads, and otherwise leaves the flag as it was.
    It first pings the server; when the ping fails nothing else is
    requested.  It then asks for the collection, and creates it, with
    vectors of size 1536, only if that request fails or is not answered
    with status 200; a collection that is there is never created
    again. *)
Theorem qdrant_initialize_reports_readiness (B : Backends) (this : QdrantService)
    (w : world) :
  let ping := HttpGet (baseUrl this +:+ "/") in
  let check := HttpGet (collection_url this) in
  let create := HttpPut (collection_url this) collection_config in
  let pinged := axios_request B (asked w) ping in
  let checked := axios_request B (1 + asked w) check in
  let created := axios_request B (2 + asked w) create in
  let found :=
    match checked with
    | Fulfilled response => bool_decide (r_status response = 200)
    | Rejected _ => false
    end in
  ∃ ok w',
    qdrant_initialize B this w = (Returned ok, w') ∧
    qdrant_isInitialized w' = ok || qdrant_isInitialized w ∧
    (qdrant_isInitialized w = false → qdrant_isReady w' = (Returned ok, w')) ∧
    requests (new_calls w w')
    = (match pinged with
       | Rejected _ => [ping]
       | Fulfilled _ => if found then [ping; check] else [ping; check; create]
       end) ∧
    ok = (match pinged with
          | Rejected _ => false
          | Fulfilled _ =>
              found || (match created with Fulfilled _ => true | Rejected _ => false end)
          end).
Proof.
  intros ping check create pinged checked created found.
  subst found created checked pinged create check ping.
  unfold qdrant_initialize, qdrant_ping, qdrant_createCollection, axios_call, qdrant_isReady.
  w_step.
  destruct (axios_request B (calls (mail w)) _) as [pong|err]; w_step.
  2: { eexists _, _. split; [reflexivity|]. w_step. split; [done|]. split; [by intros ->|].
       split; [|done]. by w_trace. }
  destruct (axios_request B (S (calls (mail w))) _) as [existsResponse|err]; w_step.
  1: destruct (bool_decide (r_status existsResponse = 200)) eqn:Hfound; w_step.
  1: { eexists _, _. split; [reflexivity|]. w_step. split; [done|].
       split; [intros _; reflexivity|]. split; [|done]. by w_trace. }
  all: destruct (axios_request B (S (S (calls (mail w)))) _) as [response|err']; w_step.
  all: eexists _, _; (split; [reflexivity|]); w_step.
  all: split; [done|]; (split; [first [by intros ->|intros _; reflexivity]|]);
    (split; [|done]); by w_trace.
Qed.

Section W_steps.

Context (R : relation world) `{!Reflexive R, !Transitive R}.

Lemma w_steps_ret {A} (a : A) : w_steps R (mret a : W A).
Proof. intros w. reflexivity. Qed.

Lemma w_steps_throw {A} (e : js_error) : w_steps R (w_throw e : W A).
Proof. intros w. reflexivity. Qed.

Lemma w_steps_bind {A B} (m : W A) (k : A → W B) :
  w_steps R m → (∀ a, w_steps R (k a)) → w_steps R (m ≫= k).
Proof.
  intros Hm Hk w. unfold mbind, W_bind, w_bind.
  pose proof (Hm w) as H1.
  destruct (m w) as [[a|e|] w1]; cbn [snd] in *; [|done..].
  etrans; [exact H1|]. apply Hk.
Qed.

Lemma w_steps_try {A} (body : W A) (handler : js_error → W A) :
  w_steps R body → (∀ e, w_steps R (handler e)) → w_steps R (w_try body handler).
Proof.
  intros Hm Hk w. unfold w_try.
  pose proof (Hm w) as H1.
  destruct (body w) as [[a|e|] w1]; cbn [snd] in *; [done| |done].
  etrans; [exact H1|]. apply Hk.
Qed.

Lemma w_steps_get {A} (f : world → A) : w_steps R (w_get f).
Proof. intros w. reflexivity. Qed.

Lemma w_steps_fold {A B} (xs : list A) (acc : B) (body : B → A → W B) :
  (∀ acc x, w_steps R (body acc x)) → w_steps R (w_fold xs acc body).
Proof.
  intros Hbody. revert acc.
  induction xs as [|x xs IH]; intros acc; cbn [w_fold].
  - apply w_steps_ret.
  - apply w_steps_bind; [apply Hbody|]. intros acc'. apply IH.
Qed.

Lemma w_steps_map_items (f : json → W json) (items : list json) :
  (∀ item, w_steps R (f item)) → w_steps R (w_map_items f items).
Proof.
  intros Hf. induction items as [|item items IH]; cbn [w_map_items].
  - apply w_steps_ret.
  - apply w_steps_bind; [apply Hf|]. intros y.
    apply w_steps_bind; [apply IH|]. intros ys. apply w_steps_ret.
Qed.

End W_steps.

#[export] Instance made_by_refl (P : call → Prop) : Reflexive (made_by P).
Proof. intros w. exists []. by rewrite app_nil_r. Qed.

#[export] Instance made_by_trans (P : call → Prop) : Transitive (made_by P).
Proof.
  intros w1 w2 w3 (cs1 & H1 & HP1) (cs2 & H2 & HP2).
  exists (cs1 ++ cs2). rewrite H2, H1, app_assoc. split; [done|].
  by apply Forall_app.
Qed.

Section W_emits.

Context (P : call → Prop).

Lemma w_emits_ret {A} (a : A) : w_emits P (mret a : W A).
Proof. apply w_steps_ret, _. Qed.

Lemma w_emits_throw {A} (e : js_error) : w_emits P (w_throw e : W A).
Proof. apply w_steps_throw, _. Qed.

Lemma w_emits_bind {A B} (m : W A) (k : A → W B) :
  w_emits P m → (∀ a, w_emits P (k a)) → w_emits P (m ≫= k).
Proof. apply w_steps_bind, _. Qed.

Lemma w_emits_try {A} (body : W A) (handler : js_error → W A) :
  w_emits P body → (∀ e, w_emits P (handler e)) → w_emits P (w_try body handler).
Proof. apply w_steps_try, _. Qed.

Lemma w_emits_get {A} (f : world → A) : w_emits P (w_get f).
Proof. apply w_steps_get, _. Qed.

Lemma w_emits_tell (c : call) : P c → w_emits P (w_tell c).
Proof. intros H w. exists [c]. split; [done|]. by constructor. Qed.

Lemma w_emits_modify (f : world → world) :
  (∀ w, made (f w) = made w) → w_emits P (w_modify f).
Proof. intros H w. exists []. cbn. by rewrite H, app_nil_r. Qed.

Lemma w_emits_lift {A} (m : M A) : w_emits P (lift m).
Proof. intros w. exists []. cbn. by rewrite app_nil_r. Qed.

Lemma w_emits_fold {A B} (xs : list A) (acc : B) (body : B → A → W B) :
  (∀ acc x, w_emits P (body acc x)) → w_emits P (w_fold xs acc body).
Proof. apply w_steps_fold; apply _. Qed.

Lemma w_emits_map_items (f : json → W json) (items : list json) :
  (∀ item, w_emits P (f item)) → w_emits P (w_map_items f items).
Proof. apply w_steps_map_items; apply _. Qed.

Lemma w_emits_member (key : string) (v : json) : w_emits P (w_member key v).
Proof. destruct v; first [apply w_emits_ret|apply w_emits_throw]. Qed.

Lemma w_emits_first (v : json) : w_emits P (w_first v).
Proof.
  destruct v as [| | | |[|c s]| | | |];
    first [apply w_emits_ret|apply w_emits_throw|apply w_emits_member].
Qed.

End W_emits.

Lemma w_emits_weaken {A} (P Q : call → Prop) (m : W A) :
  (∀ c, P c → Q c) → w_emits P m → w_emits Q m.
Proof.
  intros HPQ Hm w. destruct (Hm w) as (cs & H & HP).
  exists cs. split; [done|]. by eapply Forall_impl.
Qed.

(** Going through a method of the services, one construct at a time. *)
Ltac w_emits_go :=
  repeat
    (cbv zeta;
     lazymatch goal with
     | |- w_emits _ (mret _) => apply w_emits_ret
     | |- w_emits _ (w_throw _) => apply w_emits_throw
     | |- w_emits _ (_ ≫= _) => apply w_emits_bind; [|intros ?]
     | |- w_emits _ (w_try _ _) => apply w_emits_try; [|intros ?]
     | |- w_emits _ (w_tell _) => apply w_emits_tell
     | |- w_emits _ (w_modify _) => apply w_emits_modify; intros ?; reflexivity
     | |- w_emits _ (w_get _) => apply w_emits_get
     | |- w_emits _ (lift _) => apply w_emits_lift
     | |- w_emits _ (w_consult _) => apply w_emits_lift
     | |- w_emits _ (w_member _ _) => apply w_emits_member
     | |- w_emits _ (w_first _) => apply w_emits_first
     | |- w_emits _ (w_map_items _ _) => apply w_emits_map_items; intros ?
     | |- w_emits _ (w_fold _ _ _) => apply w_emits_fold; intros ? ?
     | |- w_emits _ (w_log _ _) => unfold w_log
     | |- w_emits _ (w_log_error _ _) => unfold w_log_error
     | |- w_emits _ (w_await _) => unfold w_await
     | |- w_emits _ (match ?x with _ => _ end) => destruct x
     | H : w_emits ?P ?m |- w_emits ?P ?m => exact H
     | H : ∀ a, w_emits ?P (?f a) |- w_emits ?P (?f _) => apply H
     | H : ∀ a b, w_emits ?P (?f a b) |- w_emits ?P (?f _ _) => apply H
     | H : ∀ a b c, w_emits ?P (?f a b c) |- w_emits ?P (?f _ _ _) => apply H
     | H : ∀ a b c d, w_emits ?P (?f a b c d) |- w_emits ?P (?f _ _ _ _) => apply H
     end).

(** ** Methods that settle, methods that return *)

Lemma w_total_settles {A} (m : W A) : w_total m → w_settles m.
Proof. intros H w. destruct (H w) as [a ->]. done. Qed.

Lemma w_settles_ret {A} (a : A) : w_settles (mret a : W A).
Proof. by intros w. Qed.

Lemma w_settles_throw {A} (e : js_error) : w_settles (w_throw e : W A).
Proof. by intros w. Qed.

Lemma w_settles_bind {A B} (m : W A) (k : A → W B) :
  w_settles m → (∀ a, w_settles (k a)) → w_settles (m ≫= k).
Proof.
  intros Hm Hk w. unfold mbind, W_bind, w_bind.
  pose proof (Hm w) as H1.
  destruct (m w) as [[a|e|] w1]; cbn [fst] in *; [apply Hk|done..].
Qed.

Lemma w_settles_try {A} (body : W A) (handler : js_error → W A) :
  w_settles body → (∀ e, w_settles (handler e)) → w_settles (w_try body handler).
Proof.
  intros Hm Hk w. unfold w_try.
  pose proof (Hm w) as H1.
  destruct (body w) as [[a|e|] w1]; cbn [fst] in *; [done|apply Hk|done].
Qed.

Lemma w_settles_get {A} (f : world → A) : w_settles (w_get f).
Proof. by intros w. Qed.

Lemma w_settles_modify (f : world → world) : w_settles (w_modify f).
Proof. by intros w. Qed.

Lemma w_settles_tell (c : call) : w_settles (w_tell c).
Proof. by intros w. Qed.

Lemma w_settles_lift {A} (m : M A) : settles m → w_settles (lift m).
Proof. intros H w. apply H. Qed.

Lemma w_settles_consult {A} (oracle : nat → A) : w_settles (w_consult oracle).
Proof. by intros w. Qed.

Lemma w_settles_member (key : string) (v : json) : w_settles (w_member key v).
Proof. by destruct v. Qed.

Lemma w_settles_first (v : json) : w_settles (w_first v).
Proof. by destruct v as [| | | |[|c s]| | | |]. Qed.

Lemma w_settles_map_items (f : json → W json) (items : list json) :
  (∀ item, w_settles (f item)) → w_settles (w_map_items f items).
Proof.
  intros Hf. induction items as [|item items IH]; cbn [w_map_items].
  - apply w_settles_ret.
  - apply w_settles_bind; [apply Hf|]. intros y.
    apply w_settles_bind; [apply IH|]. intros ys. apply w_settles_ret.
Qed.

Lemma w_settles_map (f : json → W json) (v : json) :
  (∀ item, w_settles (f item)) → w_settles (w_map f v).
Proof.
  intros Hf. destruct v; cbn [w_map];
    first [by apply w_settles_map_items|by intros w].
Qed.

Lemma w_total_ret {A} (a : A) : w_total (mret a : W A).
Proof. intros w. by exists a. Qed.

Lemma w_total_bind {A B} (m : W A) (k : A → W B) :
  w_total m → (∀ a, w_total (k a)) → w_total (m ≫= k).
Proof.
  intros Hm Hk w. unfold mbind, W_bind, w_bind.
  destruct (Hm w) as [a Ha].
  destruct (m w) as [o w1]; cbn [fst] in Ha; subst o. apply Hk.
Qed.

(** A [try] whose handler returns a value, around a body that settles. *)
Lemma w_total_try {A} (body : W A) (handler : js_error → W A) :
  w_settles body → (∀ e, w_total (handler e)) → w_total (w_try body handler).
Proof.
  intros Hm Hk w. unfold w_try.
  pose proof (Hm w) as H1.
  destruct (body w) as [[a|e|] w1]; cbn [fst] in *; [by exists a|apply Hk|done].
Qed.

Lemma w_total_get {A} (f : world → A) : w_total (w_get f).
Proof. intros w. by eexists. Qed.

Lemma w_total_tell (c : call) : w_total (w_tell c).
Proof. intros w. by eexists. Qed.

Lemma w_total_consult {A} (oracle : nat → A) : w_total (w_consult oracle).
Proof. intros w. by eexists. Qed.

Lemma w_total_fold {A B} (xs : list A) (acc : B) (body : B → A → W B) :
  (∀ acc x, w_total (body acc x)) → w_total (w_fold xs acc body).
Proof.
  intros Hbody. revert acc.
  induction xs as [|x xs IH]; intros acc; cbn [w_fold].
  - apply w_total_ret.
  - apply w_total_bind; [apply Hbody|]. intros acc'. apply IH.
Qed.

Lemma settles_new_Date (X : Externals) : settles (new_Date X).
Proof. by intros s. Qed.

Lemma settles_chat_completions_create (X : Externals) (req : chat_request) :
  settles (chat_completions_create X req).
Proof.
  intros s. unfold chat_completions_create. step.
  by destruct (openai_create X _ _).
Qed.

Lemma settles_first_content_trimmed (response : chat_response) :
  settles (first_content_trimmed response).
Proof.
  intros s. unfold first_content_trimmed. by destruct (choices response) as [|[|] ?].
Qed.

Ltac w_settles_go :=
  repeat
    (cbv zeta;
     lazymatch goal with
     | |- w_settles (mret _) => apply w_settles_ret
     | |- w_settles (w_throw _) => apply w_settles_throw
     | |- w_settles (_ ≫= _) => apply w_settles_bind; [|intros ?]
     | |- w_settles (w_try _ _) => apply w_settles_try; [|intros ?]
     | |- w_settles (w_tell _) => apply w_settles_tell
     | |- w_settles (w_modify _) => apply w_settles_modify
     | |- w_settles (w_get _) => apply w_settles_get
     | |- w_settles (w_consult _) => apply w_settles_consult
     | |- w_settles (lift (new_Date _)) => apply w_settles_lift, settles_new_Date
     | |- w_settles (lift (chat_completions_create _ _)) =>
         apply w_settles_lift, settles_chat_completions_create
     | |- w_settles (lift (first_content_trimmed _)) =>
         apply w_settles_lift, settles_first_content_trimmed
     | |- w_settles (w_member _ _) => apply w_settles_member
     | |- w_settles (w_first _) => apply w_settles_first
     | |- w_settles (w_map_items _ _) => apply w_settles_map_items; intros ?
     | |- w_settles (w_map _ _) => apply w_settles_map; intros ?
     | |- w_settles (w_log _ _) => unfold w_log
     | |- w_settles (w_log_error _ _) => unfold w_log_error
     | |- w_settles (w_await _) => unfold w_await
     | |- w_settles (match ?x with _ => _ end) => destruct x
     | H : w_settles ?m |- w_settles ?m => exact H
     | H : ∀ a, w_settles (?f a) |- w_settles (?f _) => apply H
     | H : ∀ a b, w_settles (?f a b) |- w_settles (?f _ _) => apply H
     | H : ∀ a b c, w_settles (?f a b c) |- w_settles (?f _ _ _) => apply H
     | H : ∀ a b c d, w_settles (?f a b c d) |- w_settles (?f _ _ _ _) => apply H
     | H : w_total ?m |- w_settles ?m => apply w_total_settles, H
     | H : ∀ a, w_total (?f a) |- w_settles (?f _) => apply w_total_settles, H
     | H : ∀ a b, w_total (?f a b) |- w_settles (?f _ _) => apply w_total_settles, H
     end).

Ltac w_total_go :=
  repeat
    (cbv zeta;
     lazymatch goal with
     | |- w_total (mret _) => apply w_total_ret
     | |- w_total (_ ≫= _) => apply w_total_bind; [|intros ?]
     | |- w_total (w_try _ _) => apply w_total_try; [w_settles_go|intros ?]
     | |- w_total (w_tell _) => apply w_total_tell
     | |- w_total (w_get _) => apply w_total_get
     | |- w_total (w_consult _) => apply w_total_consult
     | |- w_total (w_fold _ _ _) => apply w_total_fold; intros ? ?
     | |- w_total (w_log _ _) => unfold w_log
     | |- w_total (w_log_error _ _) => unfold w_log_error
     | |- w_total (match ?x with _ => _ end) => destruct x
     | H : w_total ?m |- w_total ?m => exact H
     | H : ∀ a, w_total (?f a) |- w_total (?f _) => apply H
     | H : ∀ a b, w_total (?f a b) |- w_total (?f _ _) => apply H
     | H : ∀ a b c, w_total (?f a b c) |- w_total (?f _ _ _) => apply H
     end).

(** * The vector database *)

Section Vector_database.

Context (X : Externals) (B : Backends) (qdrant : QdrantService).

Lemma axios_call_settles (c : call) : w_settles (axios_call B c).
Proof. unfold axios_call. w_settles_go. Qed.

Lemma qdrant_initialize_total : w_total (qdrant_initialize B qdrant).
Proof.
  pose proof axios_call_settles.
  unfold qdrant_initialize, qdrant_ping, qdrant_createCollection. w_total_go.
Qed.

Lemma now_ISOString_settles : w_settles (now_ISOString X B).
Proof. unfold now_ISOString. w_settles_go. Qed.

Lemma Date_now_settles : w_settles (Date_now X).
Proof. unfold Date_now. w_settles_go. Qed.

Lemma qdrant_storeVector_settles id vector payload :
  w_settles (qdrant_storeVector X B qdrant id vector payload).
Proof.
  pose proof axios_call_settles. pose proof now_ISOString_settles.
  unfold qdrant_storeVector. w_settles_go.
Qed.

Lemma qdrant_searchSimilar_settles queryVector topK filter :
  w_settles (qdrant_searchSimilar B qdrant queryVector topK filter).
Proof.
  pose proof axios_call_settles.
  unfold qdrant_searchSimilar. w_settles_go.
Qed.

Lemma qdrant_deleteVector_settles id : w_settles (qdrant_deleteVector B qdrant id).
Proof.
  pose proof axios_call_settles.
  unfold qdrant_deleteVector. w_settles_go.
Qed.

Lemma qdrant_getCollectionStats_settles : w_settles (qdrant_getCollectionStats B qdrant).
Proof.
  pose proof axios_call_settles.
  unfold qdrant_getCollectionStats. w_settles_go.
Qed.

Lemma generateEmbedding_total text : w_total (generateEmbedding X B text).
Proof. unfold generateEmbedding. w_total_go. Qed.

Lemma vectorDB_storeTrainingData_total data :
  w_total (vectorDB_storeTrainingData X B qdrant data).
Proof.
  pose proof generateEmbedding_total. pose proof qdrant_storeVector_settles.
  pose proof Date_now_settles.
  unfold vectorDB_storeTrainingData, qdrant_isReady. w_total_go.
Qed.

Lemma searchSimilarContent_total query topK :
  w_total (searchSimilarContent X B qdrant query topK).
Proof.
  pose proof generateEmbedding_total. pose proof qdrant_searchSimilar_settles.
  unfold searchSimilarContent, qdrant_isReady. w_total_go.
Qed.

Lemma findRelevantTrainingData_total emailContent topK :
  w_total (findRelevantTrainingData X B qdrant emailContent topK).
Proof.
  pose proof searchSimilarContent_total.
  unfold findRelevantTrainingData. w_total_go.
Qed.

Lemma vectorDB_deleteTrainingData_total id :
  w_total (vectorDB_deleteTrainingData B qdrant id).
Proof.
  pose proof qdrant_deleteVector_settles.
  unfold vectorDB_deleteTrainingData, qdrant_isReady. w_total_go.
Qed.

Lemma getIndexStats_total : w_total (getIndexStats B qdrant).
Proof.
  pose proof qdrant_getCollectionStats_settles.
  unfold getIndexStats, qdrant_isReady. w_total_go.
Qed.

Lemma vectorDB_initialize_total : w_total (vectorDB_initialize B qdrant).
Proof.
  pose proof qdrant_initialize_total.
  unfold vectorDB_initialize. w_total_go.
Qed.

End Vector_database.

(** X12: no method of the vector database throws: each returns a value,
    whatever its arguments, the state and the behaviour of Qdrant and of
    the embeddings API ([false], the empty list or [null] standing for
    a failure).  While Qdrant is not initialized each of them returns
    that value without any request: storing, searching and deleting only
    log a warning, and the statistics are [null] without a trace. *)
Theorem vector_database_never_throws (X : Externals) (B : Backends)
    (qdrant : QdrantService) (data : training_data) (text id : string) (topK : Z)
    (w : world) :
  let store := vectorDB_storeTrainingData X B qdrant data w in
  let search := searchSimilarContent X B qdrant text topK w in
  let find := findRelevantTrainingData X B qdrant text topK w in
  let delete := vectorDB_deleteTrainingData B qdrant id w in
  let stats := getIndexStats B qdrant w in
  ((∃ ok, store.1 = Returned ok) ∧
   (∃ hits, search.1 = Returned hits) ∧
   (∃ hits, find.1 = Returned hits) ∧
   (∃ ok, delete.1 = Returned ok) ∧
   (∃ counts, stats.1 = Returned counts) ∧
   (∃ vector, (generateEmbedding X B text w).1 = Returned vector) ∧
   (∃ ok, (vectorDB_initialize B qdrant w).1 = Returned ok)) ∧
  (qdrant_isInitialized w = false →
     store.1 = Returned false ∧ new_calls w store.2 = [not_ready_warning] ∧
     search.1 = Returned [] ∧ new_calls w search.2 = [not_ready_warning] ∧
     find.1 = Returned [] ∧ new_calls w find.2 = [not_ready_warning] ∧
     delete.1 = Returned false ∧ new_calls w delete.2 = [not_ready_warning] ∧
     stats.1 = Returned JNull ∧ new_calls w stats.2 = []).
Proof.
  intros store search find delete stats. split.
  - split; [apply vectorDB_storeTrainingData_total|].
    split; [apply searchSimilarContent_total|].
    split; [apply findRelevantTrainingData_total|].
    split; [apply vectorDB_deleteTrainingData_total|].
    split; [apply getIndexStats_total|].
    split; [apply generateEmbedding_total|apply vectorDB_initialize_total].
  - intros Hoff. subst store search find delete stats.
    unfold vectorDB_storeTrainingData, findRelevantTrainingData, searchSimilarContent,
      vectorDB_deleteTrainingData, getIndexStats, qdrant_isReady.
    w_step. rewrite Hoff. w_step. cbn [w_map_items]. w_step.
    repeat split; try done; try by w_trace.
    unfold new_calls. by rewrite drop_all.
Qed.

(** The theorem before Qdrant is initialized: nothing is stored, and
    nothing is asked of any peer. *)
Lemma vector_database_never_throws_witness :
  (vectorDB_storeTrainingData interested_world empty_qdrant local_qdrant
     sample_training_data initial_world).1 = Returned false ∧
  new_calls initial_world
    (vectorDB_storeTrainingData interested_world empty_qdrant local_qdrant
       sample_training_data initial_world).2 = [not_ready_warning].
Proof.
  destruct (vector_database_never_throws interested_world empty_qdrant local_qdrant
              sample_training_data "" "" 3 initial_world) as [_ H].
  destruct H as (H1 & H2 & _); [reflexivity|]. split; [exact H1|exact H2].
Defined.

(** * Training data in the vector database *)

Lemma field_set_field (key key' : string) (v : json) (o : list (string * json)) :
  field key (set_field key' v o)
  = if Strings.String.eqb key' key then v else field key o.
Proof.
  induction o as [|[k x] o IH]; cbn [set_field field].
  - done.
  - destruct (Strings.String.eqb_spec k key') as [->|Hk]; cbn [field].
    + by destruct (Strings.String.eqb key' key).
    + rewrite IH. destruct (Strings.String.eqb_spec k key) as [->|?]; [|done].
      destruct (Strings.String.eqb_spec key' key) as [->|?]; done.
Qed.

Lemma field_spread (key : string) (a b : list (string * json)) :
  field key (spread a b) = overriding key b (field key a).
Proof.
  unfold spread. revert a. induction b as [|[k v] b IH]; intros a; cbn; [done|].
  by rewrite IH, field_set_field.
Qed.

Lemma overriding_set_field (key key' : string) (v d : json) (o : list (string * json)) :
  key' ≠ key → overriding key (set_field key' v o) d = overriding key o d.
Proof.
  intros Hne. revert d. induction o as [|[k x] o IH]; intros d; cbn [set_field overriding].
  - by destruct (Strings.String.eqb_spec key' key).
  - destruct (Strings.String.eqb_spec k key') as [->|Hk]; cbn [overriding].
    + by destruct (Strings.String.eqb_spec key' key).
    + apply IH.
Qed.

(** The [type] of the payload of a point stored for training data with
    the metadata [metadata]. *)
Lemma training_point_type (id vector : json) (content : string)
    (category : option string) (tid : option string)
    (metadata : list (string * json)) (storedAt createdAt : string) :
  point_type
    (JObj [("id", id); ("vector", vector);
           ("payload",
            JObj (spread
                    (training_payload
                       {| td_id := tid; td_content := content; td_category := category;
                          td_metadata := spread metadata [("storedAt", JStr storedAt)] |})
                    [("createdAt", JStr createdAt)]))])
  = overriding "type" metadata (JStr "training_data").
Proof.
  unfold point_type, training_payload. cbn [member field Strings.String.eqb Ascii.eqb Bool.eqb td_metadata td_content td_category].
  rewrite !field_spread. cbn [overriding Strings.String.eqb Ascii.eqb Bool.eqb field].
  unfold spread. cbn [foldl fst snd]. by rewrite overriding_set_field.
Qed.

Section Training_data.

Context (X : Externals) (B : Backends) (qdrant : QdrantService).

Lemma ai_storeTrainingData_points content category metadata :
  w_emits (stores_as metadata) (ai_storeTrainingData X B qdrant content category metadata).
Proof.
  unfold ai_storeTrainingData, vectorDB_isInitialized, vectorDB_storeTrainingData,
    qdrant_storeVector, generateEmbedding, qdrant_isReady, Date_now, now_ISOString,
    axios_call.
  w_emits_go; try (by constructor).
  unfold stores_as. cbn [points_of member field Strings.String.eqb Ascii.eqb Bool.eqb].
  constructor; [|constructor]. apply training_point_type.
Qed.

End Training_data.

Lemma stored_points_emitted {A} (P : json → Prop) (m : W A) (w : world) :
  w_emits (λ c, Forall P (points_of c)) m →
  Forall P (stored_points (new_calls w (m w).2)).
Proof.
  intros Hm. destruct (Hm w) as (cs & Hcs & HP).
  rewrite (new_calls_app _ _ _ Hcs). unfold stored_points. by apply Forall_bind.
Qed.

Lemma passes_by_type (point : json) (s : string) :
  point_type point = JStr s →
  passes training_data_filter point = bool_decide (s = "training_data").
Proof.
  unfold point_type, passes, training_data_filter, condition_holds.
  cbn [member field Strings.String.eqb Ascii.eqb Bool.eqb forallb].
  intros ->. by rewrite andb_true_r.
Qed.

(** X13: the [type] under which a piece of training data is filed in
    Qdrant is the [type] its metadata give it, and [training_data] only
    when they give none: the metadata are spread over the fields the
    service sets.  The five default entries all carry the metadata type
    [template], so every point [initializeDefaultTrainingData] stores is
    filed under [template]; the retrieval asks in every search for
    points of type [training_data], a filter no point of type [template]
    passes. *)
Theorem training_data_type_is_overridden (X : Externals) (B : Backends)
    (qdrant : QdrantService) :
  (∀ content category metadata w,
     Forall (λ point,
               point_type point = overriding "type" metadata (JStr "training_data"))
       (stored_points
          (new_calls w (ai_storeTrainingData X B qdrant content category metadata w).2))) ∧
  (∀ w,
     Forall (λ point, point_type point = JStr "template")
       (stored_points (new_calls w (initializeDefaultTrainingData X B qdrant w).2))) ∧
  (∀ text topK w,
     Forall (λ filter, filter = training_data_filter)
       (search_filters_sent
          (new_calls w (searchSimilarContent X B qdrant text topK w).2))) ∧
  (∀ point,
     (point_type point = JStr "template" → passes training_data_filter point = false) ∧
     (point_type point = JStr "training_data" → passes training_data_filter point = true)).
Proof.
  split; [|split; [|split]].
  - intros content category metadata w.
    apply (stored_points_emitted _ _ w), ai_storeTrainingData_points.
  - intros w. apply (stored_points_emitted _ _ w).
    pose proof (ai_storeTrainingData_points X B qdrant) as Hstore.
    assert (∀ content category priority,
              w_emits (λ c, Forall (λ point, point_type point = JStr "template")
                              (points_of c))
                (ai_storeTrainingData X B qdrant content category
                   [("type", JStr "template"); ("priority", JStr priority)])) as Htemplate.
    { intros content category priority. exact (Hstore content category _). }
    unfold initializeDefaultTrainingData, defaultTrainingData.
    cbn [w_fold fst snd].
    w_emits_go; try (by constructor); apply Htemplate.
  - intros text topK w.
    assert (w_emits (λ c, Forall (λ filter, filter = training_data_filter)
                            (search_filter_of c))
              (searchSimilarContent X B qdrant text topK)) as Hm.
    { unfold searchSimilarContent, qdrant_searchSimilar, generateEmbedding, qdrant_isReady,
        axios_call, w_map.
      w_emits_go; try (by constructor). }
    destruct (Hm w) as (cs & Hcs & HP).
    rewrite (new_calls_app _ _ _ Hcs). unfold search_filters_sent. by apply Forall_bind.
  - intros point. split; intros Htype; by rewrite (passes_by_type _ _ Htype).
Qed.

(** The theorem where Qdrant accepts every point: the five defaults are
    stored, all under the type [template], and none passes the filter
    of the retrieval. *)
Lemma training_data_type_is_overridden_witness :
  let stored :=
    stored_points
      (new_calls ready_world
         (initializeDefaultTrainingData interested_world obliging_qdrant local_qdrant
            ready_world).2) in
  length stored = 5%nat ∧
  Forall (λ point, passes training_data_filter point = false) stored.
Proof.
  intros stored.
  destruct (training_data_type_is_overridden interested_world obliging_qdrant
              local_qdrant) as (_ & Hdefaults & _ & Hfilter).
  split; [by vm_compute|].
  eapply Forall_impl; [apply (Hdefaults ready_world)|].
  intros point Htype. by apply Hfilter.
Defined.

#[export] Instance keeps_qdrant_flag_refl : Reflexive keeps_qdrant_flag.
Proof. by intros w. Qed.

#[export] Instance keeps_qdrant_flag_trans : Transitive keeps_qdrant_flag.
Proof. intros w1 w2 w3 H1 H2. unfold keeps_qdrant_flag in *. congruence. Qed.

Ltac w_keeps_go :=
  repeat
    (cbv zeta;
     lazymatch goal with
     | |- w_steps _ (mret _) => apply w_steps_ret, _
     | |- w_steps _ (w_throw _) => apply w_steps_throw, _
     | |- w_steps _ (_ ≫= _) => apply w_steps_bind; [apply _| |intros ?]
     | |- w_steps _ (w_try _ _) => apply w_steps_try; [apply _| |intros ?]
     | |- w_steps _ (w_tell _) => intros ?; reflexivity
     | |- w_steps _ (w_get _) => apply w_steps_get, _
     | |- w_steps _ (lift _) => intros ?; reflexivity
     | |- w_steps _ (w_consult _) => intros ?; reflexivity
     | |- w_steps _ (w_member _ _) => intros ?; by destruct_json
     | |- w_steps _ (w_first _) => intros ?; by destruct_first
     | |- w_steps _ (w_map_items _ _) => apply w_steps_map_items; [apply _..|intros ?]
     | |- w_steps _ (w_fold _ _ _) => apply w_steps_fold; [apply _..|intros ? ?]
     | |- w_steps _ (w_log _ _) => unfold w_log
     | |- w_steps _ (w_log_error _ _) => unfold w_log_error
     | |- w_steps _ (w_await _) => unfold w_await
     | |- w_steps _ (match ?x with _ => _ end) => destruct x
     | H : w_steps ?R ?m |- w_steps ?R ?m => exact H
     | H : ∀ a, w_steps ?R (?f a) |- w_steps ?R (?f _) => apply H
     | H : ∀ a b, w_steps ?R (?f a b) |- w_steps ?R (?f _ _) => apply H
     | H : ∀ a b c, w_steps ?R (?f a b c) |- w_steps ?R (?f _ _ _) => apply H
     end)
with destruct_json :=
  match goal with |- context [w_member _ ?v] => destruct v end
with destruct_first :=
  match goal with |- context [w_first ?v] => destruct v as [| | | |[|? ?]| | | |] end.

Section Training_data_count.

Context (X : Externals) (B : Backends) (qdrant : QdrantService).

Lemma generateEmbedding_keeps text :
  w_steps keeps_qdrant_flag (generateEmbedding X B text).
Proof. unfold generateEmbedding. w_keeps_go. Qed.

Lemma generateEmbedding_no_put text : w_emits not_put (generateEmbedding X B text).
Proof. unfold generateEmbedding. w_emits_go; exact I. Qed.

Lemma ai_storeTrainingData_keeps content category metadata :
  w_steps keeps_qdrant_flag (ai_storeTrainingData X B qdrant content category metadata).
Proof.
  unfold ai_storeTrainingData, vectorDB_isInitialized, vectorDB_storeTrainingData,
    qdrant_storeVector, generateEmbedding, qdrant_isReady, Date_now, now_ISOString,
    axios_call.
  w_keeps_go.
Qed.

Lemma requests_app (cs1 cs2 : list call) :
  requests (cs1 ++ cs2) = requests cs1 ++ requests cs2.
Proof. apply filter_app. Qed.

Lemma stored_points_app (cs1 cs2 : list call) :
  stored_points (cs1 ++ cs2) = stored_points cs1 ++ stored_points cs2.
Proof. apply bind_app. Qed.

Lemma stored_points_not_put (cs : list call) : Forall not_put cs → stored_points cs = [].
Proof.
  induction 1 as [|c cs Hc _ IH]; [done|].
  unfold stored_points in *. cbn. rewrite IH. by destruct c.
Qed.

Lemma ai_storeTrainingData_run content category metadata (w : world) :
  ∃ ok w' cs,
    ai_storeTrainingData X B qdrant content category metadata w = (Returned ok, w') ∧
    made w' = made w ++ cs ∧
    qdrant_isInitialized w' = qdrant_isInitialized w ∧
    (qdrant_isInitialized w = false → ok = false ∧ requests cs = []) ∧
    (qdrant_isInitialized w = true → qdrant_obliges B →
       ok = true ∧ length (stored_points cs) = 1%nat).
Proof.
  unfold ai_storeTrainingData, vectorDB_isInitialized, vectorDB_storeTrainingData,
    qdrant_storeVector, qdrant_isReady, Date_now, now_ISOString, axios_call.
  w_step.
  destruct (qdrant_isInitialized w) eqn:Hflag; w_step.
  2: { eexists _, _, _. split; [reflexivity|]. w_step.
       split; [reflexivity|]. split; [done|]. split; [done|]. discriminate. }
  rewrite Hflag. w_step. cbn [td_id td_content td_category td_metadata].
  match goal with
  | |- context [generateEmbedding X B ?text ?w0] =>
      destruct (generateEmbedding_total X B text w0) as [vector Hv];
      pose proof (generateEmbedding_keeps text w0) as Hkeep;
      destruct (generateEmbedding_no_put text w0) as (cs1 & Hcs1 & Hnp);
      destruct (generateEmbedding X B text w0) as [o w1]
  end.
  cbn [fst snd] in *. subst o. unfold keeps_qdrant_flag in Hkeep.
  cbn [qdrant_isInitialized with_mail with_made] in Hkeep. rewrite Hflag in Hkeep.
  change (falsy (Some ("training_" +:+ ?s))) with false. w_step.
  cbn [default from_option id]. rewrite Hkeep. w_step.
  cbn [made with_mail with_made] in Hcs1.
  destruct (axios_request B (S (calls (mail w1))) _) as [response|err] eqn:Hput; w_step.
  - eexists _, _, _. split; [reflexivity|]. w_step. rewrite Hcs1, <- !app_assoc.
    split; [reflexivity|]. split; [done|]. split; [discriminate|].
    intros _ _. split; [done|].
    rewrite !stored_points_app, (stored_points_not_put _ Hnp). reflexivity.
  - eexists _, _, _. split; [reflexivity|]. w_step. rewrite Hcs1, <- !app_assoc.
    split; [reflexivity|]. split; [done|]. split; [discriminate|].
    intros _ Hob.
    match type of Hput with
    | axios_request B ?n ?c = _ => destruct (Hob n c) as [response Hr]
    end.
    congruence.
Qed.

Lemma w_bind_returned {A C : Type} (m : W A) (k : A → W C) (w w1 : world) (a : A) :
  m w = (Returned a, w1) → (m ≫= k) w = k a w1.
Proof. intros Hrun. unfold mbind, W_bind, w_bind. by rewrite Hrun. Qed.

Lemma default_loop_run (entries : list (string * string * list (string * json)))
    (acc : nat) (w : world) :
  ∃ n w' cs,
    w_fold entries acc (λ storedCount entry,
      success ← ai_storeTrainingData X B qdrant entry.1.1 entry.1.2 entry.2;
      mret (if (success : bool) then S storedCount else storedCount)) w
    = (Returned n, w') ∧
    made w' = made w ++ cs ∧
    qdrant_isInitialized w' = qdrant_isInitialized w ∧
    (acc ≤ n ≤ acc + length entries)%nat ∧
    (qdrant_isInitialized w = false → n = acc ∧ requests cs = []) ∧
    (qdrant_isInitialized w = true → qdrant_obliges B →
       n = (acc + length entries)%nat ∧
       length (stored_points cs) = length entries).
Proof.
  revert acc w. induction entries as [|entry entries IH]; intros acc w; cbn [w_fold].
  - exists acc, w, []. rewrite app_nil_r. w_step. cbn [length].
    repeat split; try done; lia.
  - destruct (ai_storeTrainingData_run entry.1.1 entry.1.2 entry.2 w)
      as (ok & w1 & cs1 & Hrun & Hcs1 & Hflag1 & Hoff1 & Hon1).
    destruct (IH (if ok then S acc else acc) w1)
      as (n & w' & cs & Hrest & Hcs & Hflag & Hbounds & Hoff & Hon).
    w_step. rewrite Hrun. w_step.
    exists n, w', (cs1 ++ cs). split; [exact Hrest|].
    split; [by rewrite Hcs, Hcs1, app_assoc|]. split; [congruence|].
    cbn [length]. split; [destruct ok; lia|]. split.
    + intros Hw. destruct (Hoff1 Hw) as [-> Hr1].
      destruct Hoff as [-> Hr]; [congruence|].
      split; [done|]. by rewrite requests_app, Hr1, Hr.
    + intros Hw Hob. destruct (Hon1 Hw Hob) as [-> Hp1].
      destruct Hon as [-> Hp]; [congruence|done|].
      split; [lia|]. rewrite stored_points_app, length_app, Hp1, Hp. done.
Qed.

(** X14: [initializeDefaultTrainingData] never throws; it returns the
    number of default entries stored, at most five, and leaves the flag
    of the Qdrant service as it is.  While Qdrant is not initialized it
    returns 0 without a single request; and once Qdrant is initialized
    and accepts the points, all five entries are stored, whatever the
    embeddings API answers. *)
Theorem default_training_data_are_counted (w : world) :
  ∃ n w',
    initializeDefaultTrainingData X B qdrant w = (Returned n, w') ∧
    (n ≤ 5)%nat ∧
    qdrant_isInitialized w' = qdrant_isInitialized w ∧
    (qdrant_isInitialized w = false →
       n = 0%nat ∧ requests (new_calls w w') = []) ∧
    (qdrant_isInitialized w = true → qdrant_obliges B →
       n = 5%nat ∧ length (stored_points (new_calls w w')) = 5%nat).
Proof.
  unfold initializeDefaultTrainingData.
  destruct (default_loop_run defaultTrainingData 0 w)
    as (n & w1 & cs & Hrun & Hcs & Hflag & Hbounds & Hoff & Hon).
  unfold w_try. rewrite (w_bind_returned _ _ _ _ _ Hrun). w_step.
  eexists _, _. split; [reflexivity|]. w_step.
  split; [cbn in Hbounds; lia|]. split; [done|].
  assert (∀ c, new_calls w (with_made (λ t, t ++ [c]) w1) = cs ++ [c]) as Hnew.
  { intros c. apply new_calls_app. cbn [made with_made]. by rewrite Hcs, app_assoc. }
  rewrite Hnew. split.
  - intros Hw. destruct (Hoff Hw) as [-> Hr]. split; [done|].
    by rewrite requests_app, Hr.
  - intros Hw Hob. destruct (Hon Hw Hob) as [-> Hp]. split; [done|].
    by rewrite stored_points_app, length_app, Hp.
Qed.

End Training_data_count.

(** The theorem where the embeddings API is unreachable and Qdrant
    accepts every point: five entries are stored. *)
Lemma default_training_data_are_counted_witness :
  (initializeDefaultTrainingData interested_world obliging_qdrant local_qdrant
     ready_world).1 = Returned 5%nat.
Proof.
  destruct (default_training_data_are_counted interested_world obliging_qdrant
              local_qdrant ready_world) as (n & w' & Hrun & _ & _ & _ & Hon).
  destruct Hon as [-> _]; [reflexivity|by intros n' c; eexists|].
  by rewrite Hrun.
Defined.

#[export] Instance keeps_trace_refl : Reflexive keeps_trace.
Proof. by intros w. Qed.

#[export] Instance keeps_trace_trans : Transitive keeps_trace.
Proof. intros w1 w2 w3 H1 H2. unfold keeps_trace in *. congruence. Qed.

Lemma w_steps_map (R : relation world) `{!Reflexive R, !Transitive R}
    (f : json → W json) (v : json) :
  (∀ item, w_steps R (f item)) → w_steps R (w_map f v).
Proof.
  intros Hf. destruct v; cbn [w_map];
    first [by apply w_steps_map_items | by intros w].
Qed.

Lemma w_returns_ret {A} (Q : A → Prop) (a : A) : Q a → w_returns Q (mret a : W A).
Proof. intros H w a' [= <-]. done. Qed.

Lemma w_returns_bind {A C} (Q : C → Prop) (m : W A) (k : A → W C) :
  (∀ a, w_returns Q (k a)) → w_returns Q (m ≫= k).
Proof.
  intros Hk w c. unfold mbind, W_bind, w_bind.
  destruct (m w) as [[a|e|] w1]; cbn [fst]; [apply Hk|done..].
Qed.

Lemma w_returns_try {A} (Q : A → Prop) (body : W A) (handler : js_error → W A) :
  w_returns Q body → (∀ e, w_returns Q (handler e)) → w_returns Q (w_try body handler).
Proof.
  intros Hm Hk w a. unfold w_try. pose proof (Hm w) as H1.
  destruct (body w) as [[a'|e|] w1]; cbn [fst] in *; [apply H1|apply Hk|done].
Qed.

Lemma w_returns_map_items (Q : json → Prop) (f : json → W json) (items : list json) :
  (∀ item, w_returns Q (f item)) → w_returns (Forall Q) (w_map_items f items).
Proof.
  intros Hf. induction items as [|item items IH]; cbn [w_map_items].
  - by apply w_returns_ret.
  - intros w ys. unfold mbind, W_bind, w_bind.
    pose proof (Hf item w) as H1.
    destruct (f item w) as [[y|e|] w1]; cbn [fst] in *; [|done..].
    pose proof (IH w1) as H2.
    destruct (w_map_items f items w1) as [[ys'|e|] w2]; cbn [fst] in *; [|done..].
    intros [= <-]. constructor; [by apply H1|by apply H2].
Qed.

Lemma map_member_objects (key : string) (items : list json) (w : world) :
  Forall is_object items →
  w_map_items (w_member key) items w = (Returned (member key <$> items), w).
Proof.
  induction 1 as [|item items Hitem _ IH]; [done|].
  cbn [w_map_items]. unfold mbind, W_bind, w_bind.
  destruct item; try done. cbn [w_member]. unfold mret, W_ret, w_ret.
  by rewrite IH.
Qed.

Section Suggested_reply.

Context (X : Externals) (B : Backends) (qdrant : QdrantService).

Lemma findRelevantTrainingData_objects emailContent topK :
  w_returns (Forall is_object) (findRelevantTrainingData X B qdrant emailContent topK).
Proof.
  unfold findRelevantTrainingData. apply w_returns_try.
  - apply w_returns_bind. intros similarContent. apply w_returns_map_items.
    intros item. repeat (apply w_returns_bind; intros ?). by apply w_returns_ret.
  - intros e. apply w_returns_bind. intros _. by apply w_returns_ret.
Qed.

Lemma findRelevantTrainingData_keeps_trace emailContent topK :
  w_steps keeps_trace (findRelevantTrainingData X B qdrant emailContent topK).
Proof.
  unfold findRelevantTrainingData, searchSimilarContent, qdrant_searchSimilar,
    generateEmbedding, qdrant_isReady, axios_call.
  w_keeps_go. apply w_steps_map; [apply _..|intros ?]. w_keeps_go.
Qed.

Lemma findRelevantTrainingData_run emailContent topK (w : world) :
  ∃ items w',
    findRelevantTrainingData X B qdrant emailContent topK w = (Returned items, w') ∧
    Forall is_object items ∧
    trace (mail w') = trace (mail w) ∧
    (qdrant_isInitialized w = false → items = [] ∧ requests (new_calls w w') = []).
Proof.
  destruct (findRelevantTrainingData_total X B qdrant emailContent topK w) as [items Hrun].
  pose proof (findRelevantTrainingData_objects emailContent topK w items Hrun) as Hobj.
  pose proof (findRelevantTrainingData_keeps_trace emailContent topK w) as Htrace.
  destruct (findRelevantTrainingData X B qdrant emailContent topK w)
    as [o w'] eqn:Hrun'. cbn [fst snd] in *. subst o.
  exists items, w'. split; [done|]. split; [done|]. split; [exact Htrace|].
  intros Hoff. revert Hrun'.
  unfold findRelevantTrainingData, searchSimilarContent, qdrant_isReady.
  w_step. rewrite Hoff. w_step. cbn [w_map_items]. w_step.
  intros [= <- <-]. split; [done|]. by w_trace.
Qed.

Lemma w_try_bind_returned {A C} (m : W A) (k : A → W C) (h : js_error → W C)
    (w w1 : world) (a : A) :
  m w = (Returned a, w1) → w_try (m ≫= k) h w = w_try (k a) h w1.
Proof. intros Hrun. unfold w_try, mbind, W_bind, w_bind. by rewrite Hrun. Qed.

Lemma relevant_context_run (emailData : email_data) (w : world) (initialized : bool) :
  initialized = qdrant_isInitialized w →
  ∃ relevantData w1,
    (if initialized then
       (relevantData ←
          findRelevantTrainingData X B qdrant
            (e_subject emailData +:+ " " +:+ e_text emailData) 3;
        if bool_decide (0 < length relevantData)%nat then
          (contents ← w_map_items (w_member "content") relevantData;
           mret (join_contents B (nl +:+ nl) contents))
        else mret "")
     else mret "") w = (Returned (relevant_context B relevantData), w1) ∧
    trace (mail w1) = trace (mail w) ∧
    (if qdrant_isInitialized w then
       findRelevantTrainingData X B qdrant
         (e_subject emailData +:+ " " +:+ e_text emailData) 3 w
       = (Returned relevantData, w1)
     else relevantData = [] ∧ w1 = w).
Proof.
  intros ->. destruct (qdrant_isInitialized w) eqn:Hflag.
  - destruct (findRelevantTrainingData_run
                (e_subject emailData +:+ " " +:+ e_text emailData) 3 w)
      as (items & w1 & Hrun & Hobj & Htrace & _).
    rewrite (w_bind_returned _ _ _ _ _ Hrun).
    exists items, w1. unfold relevant_context. case_bool_decide.
    + rewrite (w_bind_returned _ _ _ _ _ (map_member_objects "content" items w1 Hobj)).
      by split.
    + by split.
  - exists [], w. by split.
Qed.

Lemma reply_tail (subject prompt : string) (w1 : world) :
  ∃ w2,
    w_try
      (response ← lift (chat_completions_create X (reply_request prompt));
       suggestedReply ← lift (first_content_trimmed response);
       w_log LogInfo ("Generated suggested reply for email: " +:+ subject);;
       mret suggestedReply)
      (λ error,
         w_log_error "Error generating suggested reply:" error;;
         mret "Error generating reply. Please try again.") w1
    = (Returned (reply_of (openai_create X (calls (mail w1)) (reply_request prompt))), w2) ∧
    trace (mail w2) = trace (mail w1) ++ [EvChatCompletion (reply_request prompt)] ∧
    requests (new_calls w1 w2) = [].
Proof.
  unfold chat_completions_create, first_content_trimmed, reply_of. w_step. step.
  destruct (openai_create X (calls (mail w1)) (reply_request prompt))
    as [response|e] eqn:Hanswer; step; w_step.
  2: { eexists. split; [reflexivity|]. w_step. split; [done|by w_trace]. }
  destruct (choices response) as [|[content|] rest] eqn:Hchoices; w_step;
    (eexists; split; [reflexivity|]; w_step; split; [done|by w_trace]).
Qed.

(** X15: [generateSuggestedReply] never throws.  Without an API key it
    returns its notice and asks no peer anything.  With a key it first
    asks the vector database, when Qdrant is initialized, for the three
    pieces of training data nearest to the subject and text of the
    message; nothing is found when Qdrant is not initialized.  It then
    sends the provider exactly one request, for the prompt built from
    the message and from the training data given, followed, when
    something was found, by a [Relevant Context:] section with the
    contents found.  Its result is the first content of the provider's
    answer to that request, trimmed, and the apology when the provider
    rejects the request or answers without a first content.  After the
    retrieval no HTTP request is made, so none at all while Qdrant is
    not initialized. *)
Theorem suggested_reply_always_answers (emailData : email_data) (trainingData : string)
    (w : world) :
  let run := generateSuggestedReply X B qdrant emailData trainingData w in
  let evs := new_events (mail w) (mail run.2) in
  (falsy (env_OPENAI_API_KEY X) = true →
     run.1 = Returned "AI reply generation not available" ∧
     evs = [] ∧ requests (new_calls w run.2) = []) ∧
  (falsy (env_OPENAI_API_KEY X) = false →
     ∃ relevantData w1,
       (if qdrant_isInitialized w then
          findRelevantTrainingData X B qdrant
            (e_subject emailData +:+ " " +:+ e_text emailData) 3 w
          = (Returned relevantData, w1)
        else relevantData = [] ∧ w1 = w) ∧
       let request :=
         reply_request
           (buildReplyPrompt emailData
              (combined_training_data trainingData (relevant_context B relevantData))) in
       evs = [EvChatCompletion request] ∧
       run.1 = Returned (reply_of (openai_create X (calls (mail w1)) request)) ∧
       requests (new_calls w1 run.2) = []).
Proof.
  intros run evs. subst run evs. unfold generateSuggestedReply. split; intros Hkey.
  - rewrite Hkey. w_step. split; [done|]. split; [|by w_trace].
    unfold new_events. by rewrite drop_all.
  - rewrite Hkey.
    assert (vectorDB_isInitialized w = (Returned (qdrant_isInitialized w), w)) as Hflag
      by reflexivity.
    rewrite (w_try_bind_returned _ _ _ _ _ _ Hflag).
    destruct (relevant_context_run emailData w (qdrant_isInitialized w) eq_refl)
      as (relevantData & w1 & Hcontext & Htrace & Hfound).
    rewrite (w_try_bind_returned _ _ _ _ _ _ Hcontext). cbv zeta.
    fold (combined_training_data trainingData (relevant_context B relevantData)).
    destruct (reply_tail (e_subject emailData)
                (buildReplyPrompt emailData
                   (combined_training_data trainingData
                      (relevant_context B relevantData))) w1)
      as (w2 & -> & Hevs & Hcalls).
    exists relevantData, w1. cbn [fst snd]. split; [exact Hfound|]. split.
    { unfold new_events. by rewrite Hevs, Htrace, drop_app_length. }
    by split.
Qed.

End Suggested_reply.





Ltac route_step :=
  repeat progress
    (w_step; unfold w_member; cbn [truthy negb member w_path meta_statusCode];
     try rewrite (bool_decide_false (None = Some 404)) by done).

Lemma call_advancedSearch (X : Externals) (B : Backends) (args : list json) :
  ElasticsearchService.call X B "advancedSearch" args
  = w_throw (JsTypeError "this.elasticsearchService.advancedSearch is not a function").
Proof. reflexivity. Qed.

(** X16: the handler of [POST /api/search/advanced] never answers with
    a result.  It calls [advancedSearch] of the search service, which
    has no such method, so every valid request ends in the TypeError of
    that call and is answered 500; an invalid one is answered 400.  The
    handler itself never throws, sends exactly one response, and the
    search index is never asked anything. *)
Theorem advanced_search_never_succeeds (X : Externals) (B : Backends)
    (validated : validation search_params) (w : world) :
  let run := SearchRoutes.advancedSearch X B validated w in
  let calls := new_calls w run.2 in
  run.1 = Returned tt ∧
  client_calls calls = [] ∧
  responses calls =
    [match validated with
     | Invalid message => (400, validation_error message)
     | Valid _ => (500, internal_server_error "Failed to perform advanced search")
     end].
Proof.
  intros run calls. subst run calls. unfold SearchRoutes.advancedSearch.
  destruct validated as [message|value].
  - unfold res_status_json. w_step. split; [done|]. by w_trace.
  - cbv zeta. rewrite call_advancedSearch.
    unfold res_status_json, console_error. w_step. split; [done|]. by w_trace.
Qed.

Lemma call_getEmailById (X : Externals) (B : Backends) (args : list json) :
  ElasticsearchService.call X B "getEmailById" args
  = ElasticsearchService.getEmailById B (arg 0 args).
Proof. reflexivity. Qed.

(** X17: [GET /api/emails/:id] asks the search index once for the
    document and sends one response.  A document the index does not
    have (the client's error carries status 404) is answered 404 and
    reported nowhere, like a document without a source; any other
    failure of the client, and an answer without a body, is answered
    500 and reported twice, by the service and by the handler; a
    document with a source is answered 200 with that source. *)
Theorem missing_email_is_not_found (X : Externals) (B : Backends) (id : string)
    (w : world) :
  id ≠ "" →
  let params := JObj [("index", JStr (ElasticsearchService.indexName B)); ("id", JStr id)] in
  let answer := client_request B (asked w) (ClientCall "get" params) in
  let run := EmailRoutes.getEmailById X B (JStr id) w in
  let calls := new_calls w run.2 in
  run.1 = Returned tt ∧
  client_calls calls = [("get", params)] ∧
  responses calls = [answer_to_get B answer] ∧
  length (filter (λ c, is_error_report c = true) calls)
  = if bool_decide ((answer_to_get B answer).1 = 500) then 2%nat else 0%nat.
Proof.
  intros Hid params answer run calls. subst run calls answer.
  unfold EmailRoutes.getEmailById. cbn [truthy]. rewrite bool_decide_false by done.
  cbn [negb]. rewrite call_getEmailById. change (arg 0 [JStr id]) with (JStr id).
  unfold ElasticsearchService.getEmailById, client_call, res_status_json, res_json,
    console_error, answer_to_get.
  fold params. w_step.
  destruct (client_request B (calls (mail w)) (ClientCall "get" params))
    as [response|error] eqn:Hanswer; w_step.
  2: { destruct (bool_decide (meta_statusCode B error = Some 404));
       route_step; (split; [done|]); by w_trace. }
  route_step.
  destruct response as [| |b|n|s|t|xs|items|fields];
    try (route_step; (split; [done|]); by w_trace).
  route_step.
  destruct (field "body" fields) as [| |b|n|s|t|xs|items|body] eqn:Hbody;
    try (route_step; (split; [done|]); by w_trace).
  route_step.
  destruct (truthy (field "_source" body)); route_step; (split; [done|]); by w_trace.
Qed.

(** The theorem for an index that answers every request with status
    404: the handler answers 404 and reports no error. *)
Lemma missing_email_is_not_found_witness :
  responses (new_calls initial_world
               (EmailRoutes.getEmailById interested_world without_document
                  (JStr "a@x.com_8") initial_world).2)
  = [(404, not_found)].
Proof.
  destruct (missing_email_is_not_found interested_world without_document "a@x.com_8"
              initial_world) as (_ & _ & H & _); [done|exact H].
Defined.

(** ** Searches *)


Lemma w_emits_map (P : call → Prop) (f : json → W json) (v : json) :
  (∀ item, w_emits P (f item)) → w_emits P (w_map f v).
Proof.
  intros Hf. destruct v; cbn [w_map];
    first [by apply w_emits_map_items
          |apply w_emits_throw
          |apply w_emits_bind; [apply w_emits_member|intros ?; apply w_emits_ret]].
Qed.



Lemma w_try_bind_thrown {A C} (m : W A) (k : A → W C) (h : js_error → W C)
    (w w1 : world) (e : js_error) :
  m w = (Thrown e, w1) → w_try (m ≫= k) h w = h e w1.
Proof. intros Hrun. unfold w_try, mbind, W_bind, w_bind. by rewrite Hrun. Qed.

Lemma client_calls_app (cs1 cs2 : list call) :
  client_calls (cs1 ++ cs2) = client_calls cs1 ++ client_calls cs2.
Proof. apply omap_app. Qed.

Lemma client_calls_quiet (cs : list call) : Forall quiet cs → client_calls cs = [].
Proof.
  induction 1 as [|c cs Hc _ IH]; [done|].
  unfold client_calls in *. destruct c; try done; cbn [omap]; by rewrite IH.
Qed.

Lemma responses_from_quiet (status : Z) (cs rest : list call) :
  Forall quiet cs → responses_from status (cs ++ rest) = responses_from status rest.
Proof.
  induction 1 as [|c cs Hc _ IH]; [done|].
  cbn [app responses_from]. by destruct c.
Qed.

Section Searches.

Context (X : Externals) (B : Backends).





End Searches.






Lemma call_updateEmailCategory (X : Externals) (B : Backends) (args : list json) :
  ElasticsearchService.call X B "updateEmailCategory" args
  = no_result (ElasticsearchService.updateEmailCategory X B (arg 0 args) (arg 1 args)).
Proof. reflexivity. Qed.

Lemma category_update_run (X : Externals) (B : Backends) (id category : json)
    (details : string) (w : world) :
  let run :=
    w_try
      (if negb (truthy id) then
         res_status_json 400 (JObj [("error", JStr "Email ID is required")])
       else
         match EmailRoutes.validate_category details category with
         | Invalid message => res_status_json 400 (validation_error message)
         | Valid value =>
             ElasticsearchService.call X B "updateEmailCategory" [id; JStr value];;
             res_json (JObj [("success", JBool true);
                             ("message", JStr "Email category updated successfully");
                             ("data", JObj [("category", JStr value)])])
         end)
      (λ error,
         console_error "Error updating email category:" error;;
         res_status_json 500 (internal_server_error "Failed to update email category"))
      w in
  let calls := new_calls w run.2 in
  run.1 = Returned tt ∧
  ∃ status answer,
    responses calls = [(status, answer)] ∧
    match (if truthy id then
             match category with
             | JStr s => if bool_decide (s ∈ categories) then Some s else None
             | _ => None
             end
           else None) with
    | Some category =>
        category ∈ categories ∧
        (∃ updatedAt, client_calls calls = [update_request B id category updatedAt]) ∧
        (status = 200 ∨ status = 500)
    | None =>
        client_calls calls = [] ∧ (status = 400 ∨ status = 500)
    end.
Proof.
  intros run calls. subst run calls.
  unfold res_json, res_status_json, console_error.
  destruct (truthy id) eqn:Hid; cbn [negb].
  2: { route_step. split; [done|]. eexists _, _. w_trace.
       split; [reflexivity|]. split; [done|]. by left. }
  unfold EmailRoutes.validate_category.
  destruct category as [| |b|n|s|t|xs|items|fields];
    try (route_step; split; [done|]; eexists _, _; w_trace;
         split; [reflexivity|]; split; [done|]; by left).
  case_bool_decide as Hin.
  2: { route_step. split; [done|]. eexists _, _. w_trace.
       split; [reflexivity|]. split; [done|]. by left. }
  rewrite call_updateEmailCategory.
  change (arg 0 [id; JStr s]) with id. change (arg 1 [id; JStr s]) with (JStr s).
  unfold no_result, ElasticsearchService.updateEmailCategory, client_call.
  route_step.
  match goal with
  | |- context [client_request B ?n ?c] =>
      destruct (client_request B n c) as [response|error]
  end; route_step; (split; [done|]); eexists _, _; w_trace;
    (split; [reflexivity|]); (split; [done|]);
    (split; [by eexists|]); [by left|by right].
Qed.

(** X20: [PATCH /api/emails/:id/category] never throws and sends one
    response.  It writes to the index only a category of the closed
    set of five, and only when the route has an id: it then asks the
    client for one update, of the [category] and of [updatedAt], and
    answers 200 when the client accepts it and 500 when it does not.
    Any other request reaches no index and is answered 400 or 500. *)
Theorem only_known_categories_are_written (X : Externals) (B : Backends)
    (id body : json) (details : string) (w : world) :
  let run := EmailRoutes.updateEmailCategory X B id body details w in
  let calls := new_calls w run.2 in
  run.1 = Returned tt ∧
  ∃ status answer,
    responses calls = [(status, answer)] ∧
    match accepted_category id body with
    | Some category =>
        category ∈ categories ∧
        (∃ updatedAt, client_calls calls = [update_request B id category updatedAt]) ∧
        (status = 200 ∨ status = 500)
    | None =>
        client_calls calls = [] ∧ (status = 400 ∨ status = 500)
    end.
Proof.
  intros run calls. subst run calls.
  unfold EmailRoutes.updateEmailCategory, accepted_category.
  destruct body as [| |b|n|s|t|xs|items|fields];
    try (unfold res_json, res_status_json, console_error;
         route_step; split; [done|]; eexists _, _; w_trace;
         split; [reflexivity|]; split; [done|]; by right);
    match goal with
    | |- context [mret (member "category" ?body)] =>
        rewrite (w_try_bind_returned _ _ _ w w (member "category" body) eq_refl);
        apply category_update_run
    end.
Qed.

Ltac initialize_done :=
  repeat split; intros;
  try match goal with
      | H : _ ∈ _ |- _ => cbn in H; rewrite ?elem_of_cons, ?elem_of_nil in H
      end;
  try match goal with
      | H : ∃ _, _ ∧ _ |- _ => destruct H as (? & ? & ?)
      end;
  cbn; rewrite ?elem_of_cons, ?elem_of_nil;
  first
    [ done
    | congruence
    | by left
    | right; by eexists _, _, _
    | by eexists
    | intuition (discriminate || congruence) ].

(** X21: [initialize] of the search service pings the index first.
    When the ping fails it throws that error, asks nothing else and
    leaves [isConnected] as it was.  When the ping succeeds it raises
    [isConnected] at once, and the flag stays raised when the check for
    the index, its creation or the mappings then fail and [initialize]
    throws.  The index is created exactly when the check resolves to a
    falsy value; the mappings are put last, and [initialize] returns
    only after they are.  Every error it throws is one the client
    rejected with. *)
Theorem initialize_raises_the_flag_on_ping (B : Backends) (w : world) :
  let run := ElasticsearchService.initialize B w in
  let asked_of_client := apis (new_calls w run.2) in
  let ping := client_request B (asked w) (ClientCall "ping" JUndefined) in
  let found :=
    client_request B (S (asked w))
      (ClientCall "indices.exists"
         (JObj [("index", JStr (ElasticsearchService.indexName B))])) in
  head asked_of_client = Some "ping" ∧
  (∀ error, ping = Rejected error →
     run.1 = Thrown error ∧ asked_of_client = ["ping"] ∧
     es_isConnected run.2 = es_isConnected w) ∧
  (∀ pong, ping = Fulfilled pong →
     es_isConnected run.2 = true ∧
     asked_of_client !! 1%nat = Some "indices.exists" ∧
     ("indices.create" ∈ asked_of_client ↔
      ∃ answer, found = Fulfilled answer ∧ truthy answer = false)) ∧
  (run.1 = Returned tt ∨
   ∃ error n c, run.1 = Thrown error ∧ client_request B n c = Rejected error) ∧
  (run.1 = Returned tt → last asked_of_client = Some "indices.putMapping").
Proof.
  intros run asked_of_client ping found. subst run asked_of_client ping found.
  unfold ElasticsearchService.initialize, ElasticsearchService.createIndex,
    ElasticsearchService.setupMappings, client_call, apis.
  set (index := ElasticsearchService.indexName B).
  w_step.
  destruct (client_request B (calls (mail w)) (ClientCall "ping" JUndefined))
    as [pong|error] eqn:Hping; w_step.
  2: { w_trace. initialize_done. }
  destruct (client_request B (S (calls (mail w)))
              (ClientCall "indices.exists" (JObj [("index", JStr index)])))
    as [answer|error] eqn:Hfound; w_step.
  2: { w_trace. initialize_done. }
  destruct (truthy answer) eqn:Hanswer; w_step.
  - match goal with
    | |- context [client_request B ?n ?c] =>
        destruct (client_request B n c) as [done_|error] eqn:Hput
    end; w_step; w_trace; initialize_done.
  - match goal with
    | |- context [client_request B ?n ?c] =>
        destruct (client_request B n c) as [created|error] eqn:Hcreate
    end; w_step.
    2: { w_trace. initialize_done. }
    match goal with
    | |- context [client_request B ?n (ClientCall "indices.putMapping" ?p)] =>
        destruct (client_request B n (ClientCall "indices.putMapping" p))
          as [done_|error] eqn:Hput
    end; w_step; w_trace; initialize_done.
Qed.

Section App_start.

Context (X : Externals) (B : Backends) (qdrant : QdrantService)
  (slackService : SlackService) (webhookService : WebhookService).

Lemma initialize_emits : w_emits of_a_service (ElasticsearchService.initialize B).
Proof.
  unfold ElasticsearchService.initialize, ElasticsearchService.createIndex,
    ElasticsearchService.setupMappings, client_call.
  w_emits_go; exact I.
Qed.

Lemma initialize_settles : w_settles (ElasticsearchService.initialize B).
Proof.
  unfold ElasticsearchService.initialize, ElasticsearchService.createIndex,
    ElasticsearchService.setupMappings, client_call.
  w_settles_go.
Qed.

Lemma initialize_keeps_trace : w_steps keeps_trace (ElasticsearchService.initialize B).
Proof.
  unfold ElasticsearchService.initialize, ElasticsearchService.createIndex,
    ElasticsearchService.setupMappings, client_call.
  w_keeps_go; by intros ?.
Qed.

Lemma ai_initialize_emits : w_emits of_a_service (ai_initialize B qdrant).
Proof.
  unfold ai_initialize, vectorDB_initialize, qdrant_initialize, qdrant_ping,
    qdrant_createCollection, axios_call.
  w_emits_go; exact I.
Qed.

Lemma ai_initialize_keeps_trace : w_steps keeps_trace (ai_initialize B qdrant).
Proof.
  unfold ai_initialize, vectorDB_initialize, qdrant_initialize, qdrant_ping,
    qdrant_createCollection, axios_call.
  w_keeps_go; by intros ?.
Qed.

Lemma ai_initialize_total : w_total (ai_initialize B qdrant).
Proof.
  pose proof (vectorDB_initialize_total B qdrant).
  unfold ai_initialize. w_total_go.
Qed.

Lemma defaults_emit : w_emits of_a_service (initializeDefaultTrainingData X B qdrant).
Proof.
  unfold initializeDefaultTrainingData, ai_storeTrainingData, vectorDB_isInitialized,
    vectorDB_storeTrainingData, qdrant_storeVector, generateEmbedding, qdrant_isReady,
    Date_now, now_ISOString, axios_call.
  w_emits_go; exact I.
Qed.

Lemma defaults_keep_trace :
  w_steps keeps_trace (initializeDefaultTrainingData X B qdrant).
Proof.
  unfold initializeDefaultTrainingData, ai_storeTrainingData, vectorDB_isInitialized,
    vectorDB_storeTrainingData, qdrant_storeVector, generateEmbedding, qdrant_isReady,
    Date_now, now_ISOString, axios_call.
  w_keeps_go; by intros ?.
Qed.

Lemma defaults_total : w_total (initializeDefaultTrainingData X B qdrant).
Proof.
  intros w. unfold initializeDefaultTrainingData.
  destruct (default_loop_run X B qdrant defaultTrainingData 0 w)
    as (n & w1 & cs & Hrun & _).
  unfold w_try. rewrite (w_bind_returned _ _ _ _ _ Hrun). w_step. by exists n.
Qed.

End App_start.

Section App_runs.

Context (X : Externals) (B : Backends) (qdrant : QdrantService)
  (slackService : SlackService) (webhookService : WebhookService).

Lemma services_initialized_emits :
  w_emits of_a_service (services_initialized X B qdrant).
Proof.
  pose proof (initialize_emits B). pose proof (ai_initialize_emits B qdrant).
  pose proof (defaults_emit X B qdrant).
  unfold services_initialized. w_emits_go; exact I.
Qed.

Lemma services_initialized_keeps_trace :
  w_steps keeps_trace (services_initialized X B qdrant).
Proof.
  pose proof (initialize_keeps_trace B). pose proof (ai_initialize_keeps_trace B qdrant).
  pose proof (defaults_keep_trace X B qdrant).
  unfold services_initialized. w_keeps_go.
Qed.

Lemma services_initialized_outcome (w : world) :
  (services_initialized X B qdrant w).1
  = match (ElasticsearchService.initialize B w).1 with
    | Returned _ => Returned tt
    | Thrown e => Thrown e
    | Pending => Pending
    end.
Proof.
  unfold services_initialized.
  destruct (ElasticsearchService.initialize B w) as [[[]|e|] w1] eqn:Hindex;
    cbn [fst]; unfold mbind at 1, W_bind, w_bind; rewrite Hindex; [|done..].
  w_step.
  set (w2 := with_made _ w1).
  destruct (ai_initialize_total B qdrant w2) as [[] Hai].
  destruct (ai_initialize B qdrant w2) as [o w3]. cbn [fst] in Hai. subst o.
  destruct (defaults_total X B qdrant w3) as [n Hdefaults].
  destruct (initializeDefaultTrainingData X B qdrant w3) as [o w4].
  cbn [fst] in Hdefaults. subst o. done.
Qed.

Lemma start_without_accounts (s : state) :
  env_EMAIL_ACCOUNTS X = None →
  ∃ e, (start X slackService webhookService s).1 = Thrown e.
Proof.
  intros Hnone. unfold start. rewrite Hnone. cbn [env_list from_option length].
  rewrite bool_decide_true by done. eexists. step. reflexivity.
Qed.

Lemma start_runs_services (w : world) :
  ReachinboxApp.start X B qdrant slackService webhookService w
  = w_try
      (services_initialized X B qdrant;;
       lift (start X slackService webhookService);;
       w_log LogInfo "IMAP sync service started";;
       w_tell (ServerListen (ReachinboxApp.port B)))
      (λ error,
         w_log_error "Failed to start application:" error;;
         w_tell (ProcessExit 1)) w.
Proof.
  unfold ReachinboxApp.start, services_initialized, w_try.
  unfold mbind, W_bind, w_bind.
  destruct (ElasticsearchService.initialize B w) as [[[]|?|] w1]; try reflexivity.
  destruct (w_log LogInfo "Elasticsearch initialized" w1) as [[[]|?|] w2];
    try reflexivity.
  destruct (ai_initialize B qdrant w2) as [[[]|?|] w3]; try reflexivity.
  destruct (initializeDefaultTrainingData X B qdrant w3) as [[n|?|] w4];
    reflexivity.
Qed.

Lemma no_listen_of_a_service (cs tail : list call) :
  Forall of_a_service cs → ¬ listens tail → ¬ listens (cs ++ tail).
Proof.
  intros Hcs Htail [port [Hin|Hin]%elem_of_app]; [|by apply Htail; exists port].
  by apply (proj1 (Forall_forall _ _) Hcs) in Hin.
Qed.

Lemma no_exit_of_a_service (cs tail : list call) :
  Forall of_a_service cs → ¬ exits tail → ¬ exits (cs ++ tail).
Proof.
  intros Hcs Htail [code [Hin|Hin]%elem_of_app]; [|by apply Htail; exists code].
  by apply (proj1 (Forall_forall _ _) Hcs) in Hin.
Qed.

(** X22: [start] of the application never throws.  The server listens
    only as the last step of a start that went through: after the
    search index was initialized and the mail synchronisation has
    started.  The services are initialized exactly when the search
    index is: Qdrant and the embeddings API cannot fail the start.
    When the index cannot be initialized the process exits with code 1
    before any mail connection is opened; when the mail
    synchronisation throws it exits with code 1 as well, and while the
    synchronisation does not return the application neither listens
    nor exits.  In particular, without configured mail accounts the
    server never listens. *)
Theorem server_listens_after_the_mail_sync (w : world) :
  let run := ReachinboxApp.start X B qdrant slackService webhookService w in
  let calls := new_calls w run.2 in
  let ready := services_initialized X B qdrant w in
  let sync := start X slackService webhookService (mail ready.2) in
  (ready.1 = Returned tt ↔ (ElasticsearchService.initialize B w).1 = Returned tt) ∧
  match ready.1 with
  | Returned _ =>
      match sync.1 with
      | Returned _ =>
          run.1 = Returned tt ∧
          last calls = Some (ServerListen (ReachinboxApp.port B)) ∧ ¬ exits calls
      | Thrown _ =>
          run.1 = Returned tt ∧ last calls = Some (ProcessExit 1) ∧ ¬ listens calls
      | Pending => run.1 = Pending ∧ ¬ listens calls ∧ ¬ exits calls
      end
  | _ =>
      run.1 = Returned tt ∧ last calls = Some (ProcessExit 1) ∧ ¬ listens calls ∧
      new_events (mail w) (mail run.2) = []
  end ∧
  (env_EMAIL_ACCOUNTS X = None → ¬ listens calls).
Proof.
  intros run calls ready sync. subst run calls ready sync.
  pose proof (services_initialized_outcome w) as Houtcome.
  pose proof (initialize_settles B w) as Hsettles.
  destruct (services_initialized_emits w) as (cs & Hcs & Hservice).
  pose proof (services_initialized_keeps_trace w) as Htrace.
  unfold keeps_trace in Htrace.
  rewrite start_runs_services.
  destruct (services_initialized X B qdrant w) as [o w4] eqn:Hready.
  cbn [fst snd] in *.
  split.
  { destruct (ElasticsearchService.initialize B w).1 as [[]|e|]; subst o; done. }
  destruct o as [[]|e|].
  - rewrite (w_try_bind_returned _ _ _ _ _ _ Hready).
    pose proof (start_without_accounts (mail w4)) as Hnone.
    destruct (start X slackService webhookService (mail w4)) as [[[]|e|] s'] eqn:Hsync;
      cbn [fst] in *; w_step; rewrite Hsync; w_step.
    + split.
      * split; [done|].
        rewrite (new_calls_app w _ (cs ++ [Logged LogInfo "IMAP sync service started" None;
                                          ServerListen (ReachinboxApp.port B)]))
          by (cbn [made with_made with_mail]; rewrite Hcs, <- !app_assoc; done).
        split; [by rewrite last_app|].
        apply no_exit_of_a_service; [done|].
        intros [code Hin]. by repeat (apply elem_of_cons in Hin as [?|Hin]; [done|]);
          apply elem_of_nil in Hin.
      * intros Haccounts. destruct (Hnone Haccounts) as [e ?]. done.
    + assert (new_calls w
                (with_made (λ t, t ++ [ProcessExit 1])
                   (with_made
                      (λ t, t ++ [Logged LogError "Failed to start application:" (Some e)])
                      (with_mail (λ _, s') w4)))
              = cs ++ [Logged LogError "Failed to start application:" (Some e);
                       ProcessExit 1]) as ->.
      { apply new_calls_app. cbn [made with_made with_mail].
        by rewrite Hcs, <- !app_assoc. }
      assert (¬ listens (cs ++ [Logged LogError "Failed to start application:" (Some e);
                               ProcessExit 1])) as Hquiet.
      { apply no_listen_of_a_service; [done|].
        intros [port Hin]. by repeat (apply elem_of_cons in Hin as [?|Hin]; [done|]);
          apply elem_of_nil in Hin. }
      split; [|done]. split; [done|]. split; [by rewrite last_app|done].
    + assert (new_calls w (with_mail (λ _, s') w4) = cs ++ []) as ->.
      { apply new_calls_app. cbn [made with_made with_mail]. by rewrite Hcs, app_nil_r. }
      assert (¬ listens (cs ++ [])) as Hquiet.
      { apply no_listen_of_a_service; [done|]. by intros [port Hin%elem_of_nil]. }
      split; [|done]. split; [done|]. split; [done|].
      apply no_exit_of_a_service; [done|]. by intros [code Hin%elem_of_nil].
  - rewrite (w_try_bind_thrown _ _ _ _ _ _ Hready). w_step.
    assert (new_calls w
              (with_made (λ t, t ++ [ProcessExit 1])
                 (with_made
                    (λ t, t ++ [Logged LogError "Failed to start application:" (Some e)])
                    w4))
            = cs ++ [Logged LogError "Failed to start application:" (Some e);
                     ProcessExit 1]) as ->.
    { apply new_calls_app. cbn [made with_made with_mail].
      by rewrite Hcs, <- !app_assoc. }
    assert (¬ listens (cs ++ [Logged LogError "Failed to start application:" (Some e);
                             ProcessExit 1])) as Hquiet.
    { apply no_listen_of_a_service; [done|].
      intros [port Hin]. by repeat (apply elem_of_cons in Hin as [?|Hin]; [done|]);
        apply elem_of_nil in Hin. }
    split; [|done]. split; [done|]. split; [by rewrite last_app|].
    split; [done|]. unfold new_events. rewrite Htrace. apply drop_all.
  - destruct (ElasticsearchService.initialize B w).1; done.
Qed.

End App_runs.

Section AI_routes.

Context (X : Externals) (B : Backends) (qdrant : QdrantService).

Lemma generateSuggestedReply_total emailData trainingData :
  w_total (generateSuggestedReply X B qdrant emailData trainingData).
Proof.
  pose proof (findRelevantTrainingData_total X B qdrant).
  unfold generateSuggestedReply, vectorDB_isInitialized, qdrant_isReady.
  w_total_go.
Qed.

Lemma generateSuggestedReply_quiet emailData trainingData :
  w_emits quiet (generateSuggestedReply X B qdrant emailData trainingData).
Proof.
  unfold generateSuggestedReply, vectorDB_isInitialized, qdrant_isReady,
    findRelevantTrainingData, searchSimilarContent, qdrant_searchSimilar,
    generateEmbedding, qdrant_isReady, axios_call.
  w_emits_go; try exact I.
  apply w_emits_map. intros point. w_emits_go.
Qed.

Lemma ai_storeTrainingData_quiet content category metadata :
  w_emits quiet (ai_storeTrainingData X B qdrant content category metadata).
Proof.
  unfold ai_storeTrainingData, vectorDB_isInitialized, vectorDB_storeTrainingData,
    qdrant_storeVector, generateEmbedding, qdrant_isReady, Date_now, now_ISOString,
    axios_call.
  w_emits_go; exact I.
Qed.

(** X23: [POST /api/ai/reply/suggest] never throws and sends one
    response.  A valid request is always answered 200 with
    [success: true]: the reply it carries is whatever
    [generateSuggestedReply] of the service returned, which never
    throws, so a reply that could not be generated arrives as the
    text that stands for the failure and never as a status 500.  An
    invalid request is answered 400 and the service is not called. *)
Theorem suggested_reply_is_always_a_success
    (validated : validation (email_data * string)) (w : world) :
  let run := AICategorizationRoutes.generateSuggestedReply X B qdrant validated w in
  let calls := new_calls w run.2 in
  run.1 = Returned tt ∧
  client_calls calls = [] ∧
  match validated with
  | Invalid message =>
      calls = [ResStatus 400; ResJson (validation_error message)]
  | Valid value =>
      ∃ reply,
        (generateSuggestedReply X B qdrant value.1 value.2 w).1 = Returned reply ∧
        responses calls = [(200, suggestion value.1 reply)]
  end.
Proof.
  intros run calls. subst run calls.
  unfold AICategorizationRoutes.generateSuggestedReply.
  destruct validated as [message|[email trainingData]].
  - unfold res_status_json. w_step. split; [done|]. by w_trace.
  - cbv zeta. cbn [fst snd].
    destruct (generateSuggestedReply_total email trainingData w) as [reply Hreply].
    destruct (generateSuggestedReply_quiet email trainingData w) as (cs & Hcs & Hquiet).
    destruct (generateSuggestedReply X B qdrant email trainingData w) as [o w1] eqn:Hrun.
    cbn [fst snd] in *. subst o.
    rewrite (w_try_bind_returned _ _ _ _ _ _ Hrun).
    unfold res_json. w_step. split; [done|].
    rewrite (new_calls_app w _ (cs ++ [ResJson (suggestion email reply)]))
      by (cbn [made with_made]; by rewrite Hcs, <- app_assoc).
    split.
    + by rewrite client_calls_app, (client_calls_quiet cs Hquiet).
    + exists reply. split; [done|].
      unfold responses. by rewrite responses_from_quiet.
Qed.

(** X24: the handler of a valid [POST /api/ai/training-data] never
    throws and sends one response.  While Qdrant is not initialized
    the request is answered 500 without any request to Qdrant or to
    the embeddings API; once Qdrant is initialized and accepts the
    point it is answered 200, whether or not the embeddings API
    answered. *)
Theorem training_data_needs_qdrant (value : training_body) (w : world) :
  let run := AICategorizationRoutes.storeTrainingData X B qdrant (Valid value) w in
  let calls := new_calls w run.2 in
  run.1 = Returned tt ∧
  length (responses calls) = 1%nat ∧
  (qdrant_isInitialized w = false →
     responses calls = [(500, JObj [("error", JStr "Failed to store training data")])] ∧
     requests calls = []) ∧
  (qdrant_isInitialized w = true → qdrant_obliges B →
     responses calls
     = [(200, JObj [("success", JBool true);
                    ("message", JStr "Training data stored successfully")])]).
Proof.
  intros run calls. subst run calls.
  unfold AICategorizationRoutes.storeTrainingData.
  set (category := or_default (tb_category value) "general").
  set (metadata := default [] (tb_metadata value)).
  destruct (ai_storeTrainingData_run X B qdrant (tb_content value) category metadata w)
    as (ok & w1 & cs & Hrun & Hcs & _ & Hoff & Hon).
  destruct (ai_storeTrainingData_quiet (tb_content value) category metadata w)
    as (cs' & Hcs' & Hquiet).
  rewrite Hrun in Hcs'. cbn [snd] in Hcs'.
  assert (cs' = cs) as -> by (apply (app_inv_head (made w)); congruence).
  rewrite (w_try_bind_returned _ _ _ _ _ _ Hrun).
  unfold res_json, res_status_json.
  destruct ok; w_step.
  - rewrite (new_calls_app w _
               (cs ++ [ResJson (JObj [("success", JBool true);
                                      ("message", JStr "Training data stored successfully")])]))
      by (cbn [made with_made]; by rewrite Hcs, <- app_assoc).
    unfold responses. rewrite responses_from_quiet by done.
    split; [done|]. split; [done|]. split; [|done].
    intros Hflag. by destruct (Hoff Hflag).
  - rewrite (new_calls_app w _
               (cs ++ [ResStatus 500;
                       ResJson (JObj [("error", JStr "Failed to store training data")])]))
      by (cbn [made with_made]; by rewrite Hcs, <- !app_assoc).
    unfold responses. rewrite responses_from_quiet by done.
    split; [done|]. split; [done|]. split.
    + intros Hflag. destruct (Hoff Hflag) as [_ Hrequests].
      split; [done|]. by rewrite requests_app, Hrequests.
    + intros Hflag Hobliges. by destruct (Hon Hflag Hobliges).
Qed.

End AI_routes.

